(** * Agent runtime: execution substrate

    A shallow embedding of the policy engine, the rollback tracker, the
    audit logger with its secret redaction, the skill runner's agentic
    loop and the plan runner's state machine, together with the
    properties of these components that the specification states. *)

From Stdlib Require Import ZArith Ascii String List Bool Lia.
From stdpp Require Import base strings gmap list pretty.
Set Warnings "-register-all".
Import ListNotations.
Local Open Scope string_scope.
Local Open Scope list_scope.

(** ** Strings as the source uses them *)

Module Str.

(** [s.substring(start, start + len)] clipped to the string. *)
Fixpoint take (n : nat) (s : string) : string :=
  match n, s with
  | S k, String c r => String c (take k r)
  | _, _ => EmptyString
  end.

Fixpoint drop (n : nat) (s : string) : string :=
  match n, s with
  | S k, String _ r => drop k r
  | _, _ => s
  end.

(** [s.startsWith(p)]; on success the rest of [s] after [p]. *)
Fixpoint strip_prefix (p s : string) : option string :=
  match p, s with
  | EmptyString, _ => Some s
  | String a p', String b s' =>
      if Ascii.eqb a b then strip_prefix p' s' else None
  | String _ _, EmptyString => None
  end.

Definition startsWith (p s : string) : bool :=
  match strip_prefix p s with Some _ => true | None => false end.

(** [s.includes(p)]. *)
Fixpoint includes (p s : string) : bool :=
  startsWith p s ||
  match s with
  | EmptyString => false
  | String _ r => includes p r
  end.

(** [parts.join(sep)]. *)
Fixpoint join (sep : string) (parts : list string) : string :=
  match parts with
  | [] => EmptyString
  | [x] => x
  | x :: rest => x +:+ sep +:+ join sep rest
  end.

(** The first occurrence of a non-empty [p] in [s]: the text before it
    and the text after it. *)
Fixpoint split_first (p s : string) : option (string * string) :=
  match strip_prefix p s with
  | Some rest => Some (EmptyString, rest)
  | None =>
      match s with
      | EmptyString => None
      | String c r =>
          match split_first p r with
          | Some (before, after) => Some (String c before, after)
          | None => None
          end
      end
  end.

(** [s.split('.')[0]]: the text before the first dot, the whole string
    when it has none. *)
Fixpoint before_dot (s : string) : string :=
  match s with
  | EmptyString => EmptyString
  | String c r => if Ascii.eqb c "." then EmptyString else String c (before_dot r)
  end.

Fixpoint spaces (n : nat) : string :=
  match n with
  | O => EmptyString
  | S k => String " " (spaces k)
  end.

End Str.

(** ** JSON values and [JSON.stringify(v, null, 2)] *)

Module Json.

Inductive json : Type :=
| JNull
| JBool (b : bool)
| JNum (n : Z)
| JStr (s : string)
| JArr (items : list json)
| JObj (fields : list (string * json)).

Definition nl : string := String (ascii_of_nat 10) EmptyString.

Definition hex_digit (n : nat) : ascii :=
  match n with
  | 0 => "0" | 1 => "1" | 2 => "2" | 3 => "3" | 4 => "4"
  | 5 => "5" | 6 => "6" | 7 => "7" | 8 => "8" | 9 => "9"
  | 10 => "a" | 11 => "b" | 12 => "c" | 13 => "d" | 14 => "e"
  | _ => "f"
  end%char.

(** One code unit inside a JSON string literal. *)
Definition escape_char (c : ascii) : string :=
  let n := nat_of_ascii c in
  if Nat.eqb n 34 then "\" +:+ String c EmptyString
  else if Nat.eqb n 92 then "\\"
  else if Nat.eqb n 8 then "\b"
  else if Nat.eqb n 12 then "\f"
  else if Nat.eqb n 10 then "\n"
  else if Nat.eqb n 13 then "\r"
  else if Nat.eqb n 9 then "\t"
  else if Nat.ltb n 32 then
    "\u00" +:+ String (hex_digit (n / 16)) (String (hex_digit (n mod 16)) EmptyString)
  else String c EmptyString.

Fixpoint escape (s : string) : string :=
  match s with
  | EmptyString => EmptyString
  | String c r => escape_char c +:+ escape r
  end.

Definition quote (s : string) : string :=
  String (ascii_of_nat 34) (escape s) +:+ String (ascii_of_nat 34) EmptyString.

(** [JSON.stringify(v, null, 2)] at nesting depth [ind] (in spaces).
    Object fields whose value is [undefined] are not in [fields]. *)
Fixpoint stringify_at (ind : nat) (v : json) : string :=
  match v with
  | JNull => "null"
  | JBool true => "true"
  | JBool false => "false"
  | JNum n => pretty n
  | JStr s => quote s
  | JArr [] => "[]"
  | JArr items =>
      "[" +:+ nl +:+
      Str.join ("," +:+ nl)
        (List.map (fun x => Str.spaces (ind + 2) +:+ stringify_at (ind + 2) x) items)
      +:+ nl +:+ Str.spaces ind +:+ "]"
  | JObj [] => "{}"
  | JObj fields =>
      "{" +:+ nl +:+
      Str.join ("," +:+ nl)
        (List.map (fun kv => Str.spaces (ind + 2) +:+ quote (fst kv) +:+ ": "
                             +:+ stringify_at (ind + 2) (snd kv)) fields)
      +:+ nl +:+ Str.spaces ind +:+ "}"
  end.

Definition stringify (v : json) : string := stringify_at 0 v.

(** [JSON.stringify(v)] without indentation. *)
Fixpoint stringify_compact (v : json) : string :=
  match v with
  | JNull => "null"
  | JBool true => "true"
  | JBool false => "false"
  | JNum n => pretty n
  | JStr s => quote s
  | JArr items => "[" +:+ Str.join "," (List.map stringify_compact items) +:+ "]"
  | JObj fields =>
      "{" +:+
      Str.join "," (List.map (fun kv => quote (fst kv) +:+ ":" +:+ stringify_compact (snd kv)) fields)
      +:+ "}"
  end.

(** [String(v)] for a value that came from JSON. *)
Fixpoint to_String (v : json) : string :=
  match v with
  | JNull => "null"
  | JBool true => "true"
  | JBool false => "false"
  | JNum n => pretty n
  | JStr s => s
  | JArr items =>
      Str.join ","
        (List.map (fun x => match x with JNull => EmptyString | _ => to_String x end) items)
  | JObj _ => "[object Object]"
  end.

(** An optional field: absent when [None]. *)
Definition opt_field {A} (k : string) (f : A -> json) (o : option A)
  : list (string * json) :=
  match o with
  | Some a => [(k, f a)]
  | None => []
  end.

End Json.
Import Json.

(** ** Secret redaction (config/secrets.ts) *)

Module Secrets.

Definition in_range (lo hi : nat) (c : ascii) : bool :=
  let n := nat_of_ascii c in Nat.leb lo n && Nat.leb n hi.

Definition is_digit : ascii -> bool := in_range 48 57.
Definition is_upper : ascii -> bool := in_range 65 90.
Definition is_lower : ascii -> bool := in_range 97 122.
Definition is_alnum (c : ascii) : bool := is_lower c || is_upper c || is_digit c.

(** [[a-zA-Z0-9_-]] *)
Definition cls_word_dash (c : ascii) : bool :=
  is_alnum c || Ascii.eqb c "_" || Ascii.eqb c "-".
(** [[a-zA-Z0-9-]] *)
Definition cls_alnum_dash (c : ascii) : bool := is_alnum c || Ascii.eqb c "-".
(** [[0-9A-Z]] *)
Definition cls_upper_digit (c : ascii) : bool := is_digit c || is_upper c.
(** [[a-f0-9]] *)
Definition cls_hex (c : ascii) : bool := in_range 97 102 c || is_digit c.

(** Every pattern of the table is a literal prefix followed by one
    character class repeated [min_rep] to [max_rep] times (no upper
    bound when [None]). *)
Record Pattern : Type := {
  prefix : string;
  cls : ascii -> bool;
  min_rep : nat;
  max_rep : option nat
}.

Definition SECRET_PATTERNS : list Pattern := [
  {| prefix := "sk-"; cls := cls_word_dash; min_rep := 20; max_rep := None |};
  {| prefix := "sk-ant-"; cls := cls_word_dash; min_rep := 20; max_rep := None |};
  {| prefix := "ghp_"; cls := is_alnum; min_rep := 36; max_rep := Some 36 |};
  {| prefix := "gho_"; cls := is_alnum; min_rep := 36; max_rep := Some 36 |};
  {| prefix := "glpat-"; cls := cls_word_dash; min_rep := 20; max_rep := None |};
  {| prefix := "xoxb-"; cls := cls_alnum_dash; min_rep := 1; max_rep := None |};
  {| prefix := "xoxp-"; cls := cls_alnum_dash; min_rep := 1; max_rep := None |};
  {| prefix := "AKIA"; cls := cls_upper_digit; min_rep := 16; max_rep := Some 16 |};
  {| prefix := EmptyString; cls := cls_hex; min_rep := 32; max_rep := None |}
].

(** Length of the greedy run of class characters at the head of [s],
    at most [limit] of them. *)
Fixpoint run_length (cls : ascii -> bool) (limit : option nat) (s : string) : nat :=
  match s with
  | EmptyString => 0
  | String c r =>
      match limit with
      | Some 0 => 0
      | _ =>
          if cls c
          then S (run_length cls (option_map Nat.pred limit) r)
          else 0
      end
  end.

(** The regular expression matched at the head of [s]: the length of
    the match. The quantifier is greedy and nothing follows it, so
    the engine never backtracks. *)
Definition match_at (p : Pattern) (s : string) : option nat :=
  match Str.strip_prefix (prefix p) s with
  | Some rest =>
      let k := run_length (cls p) (max_rep p) rest in
      if Nat.leb (min_rep p) k then Some (String.length (prefix p) + k) else None
  | None => None
  end.

(** The replacer callback of [redactSecrets]. *)
Definition mask (m : string) : string :=
  if Nat.ltb (String.length m) 8 then m
  else Str.take 4 m +:+ "***" +:+ Str.drop (String.length m - 4) m.

(** [text.replace(pattern, mask)] with the [g] flag: matches are
    searched left to right, and the search resumes after each match;
    [skip] counts the characters of the current match still to pass.
    No pattern of the table matches the empty string. *)
Fixpoint replace_from (p : Pattern) (skip : nat) (s : string) : string :=
  match s with
  | EmptyString => EmptyString
  | String c r =>
      match skip with
      | S k => replace_from p k r
      | O =>
          match match_at p s with
          | Some (S m) => mask (Str.take (S m) s) +:+ replace_from p m r
          | _ => String c (replace_from p 0 r)
          end
      end
  end.

Definition replace_all (p : Pattern) (s : string) : string := replace_from p 0 s.

Definition redactSecrets (text : string) : string :=
  fold_left (fun result p => replace_all p result) SECRET_PATTERNS text.

(** [s] has a substring that the pattern matches in full. *)
Fixpoint has_match (p : Pattern) (s : string) : bool :=
  match match_at p s with
  | Some _ => true
  | None =>
      match s with
      | EmptyString => false
      | String _ r => has_match p r
      end
  end.

Definition has_secret (s : string) : bool :=
  existsb (fun p => has_match p s) SECRET_PATTERNS.

End Secrets.

(** ** The per-run audit logger (logging/audit-log.ts) *)

Module AuditLog.

Inductive AuditEventType : Type :=
| TOOL_CALL | TOOL_RESULT | PERMISSION_CHECK | PERMISSION_DENIED
| APPROVAL_GRANTED | APPROVAL_DENIED | STEP_START | STEP_COMPLETE
| STEP_FAILED | RUN_START | RUN_COMPLETE | SKILL_LOADED | PLAN_PARSED
| DIFF_GENERATED.

Definition event_type_name (t : AuditEventType) : string :=
  match t with
  | TOOL_CALL => "tool_call" | TOOL_RESULT => "tool_result"
  | PERMISSION_CHECK => "permission_check"
  | PERMISSION_DENIED => "permission_denied"
  | APPROVAL_GRANTED => "approval_granted"
  | APPROVAL_DENIED => "approval_denied"
  | STEP_START => "step_start" | STEP_COMPLETE => "step_complete"
  | STEP_FAILED => "step_failed" | RUN_START => "run_start"
  | RUN_COMPLETE => "run_complete" | SKILL_LOADED => "skill_loaded"
  | PLAN_PARSED => "plan_parsed" | DIFF_GENERATED => "diff_generated"
  end.

Record AuditEvent : Type := {
  ev_type : AuditEventType;
  ev_timestamp : string;
  ev_data : json
}.

Inductive RunStatus : Type := run_running | run_completed | run_failed | run_aborted.
Inductive StepStatus : Type :=
  st_pending | st_running | st_completed | st_failed | st_skipped.

Definition run_status_name (s : RunStatus) : string :=
  match s with
  | run_running => "running" | run_completed => "completed"
  | run_failed => "failed" | run_aborted => "aborted"
  end.

Definition step_status_name (s : StepStatus) : string :=
  match s with
  | st_pending => "pending" | st_running => "running"
  | st_completed => "completed" | st_failed => "failed"
  | st_skipped => "skipped"
  end.

Record Verification : Type := { passed : bool; details : string }.

Record StepLog : Type := {
  sl_stepId : string;
  sl_skill : option string;
  sl_tool : option string;
  sl_startedAt : string;
  sl_completedAt : option string;
  sl_status : StepStatus;
  sl_input : option json;
  sl_output : option json;
  sl_error : option string;
  sl_verification : option Verification
}.

Record DiffEntry : Type := {
  de_file : string;
  de_before : string;
  de_after : string;
  de_stepId : string;
  de_timestamp : string
}.

Record RunSummary : Type := {
  stepsCompleted : nat;
  stepsFailed : nat;
  stepsSkipped : nat;
  filesChanged : nat;
  durationMs : Z;
  verificationsPassed : nat;
  verificationsFailed : nat
}.

Record RunLog : Type := {
  runId : string;
  planName : option string;
  startedAt : string;
  completedAt : option string;
  status : RunStatus;
  events : list AuditEvent;
  steps : list StepLog;
  diffs : list DiffEntry;
  summary : option RunSummary
}.

(** The objects as [JSON.stringify] sees them: own properties in
    creation order, [undefined] ones left out. *)
Definition event_json (e : AuditEvent) : json :=
  JObj [("type", JStr (event_type_name (ev_type e)));
        ("timestamp", JStr (ev_timestamp e));
        ("data", ev_data e)].

Definition verification_json (v : Verification) : json :=
  JObj [("passed", JBool (passed v)); ("details", JStr (details v))].

Definition step_json (s : StepLog) : json :=
  JObj ([("stepId", JStr (sl_stepId s))]
        ++ opt_field "skill" JStr (sl_skill s)
        ++ opt_field "tool" JStr (sl_tool s)
        ++ [("startedAt", JStr (sl_startedAt s));
            ("status", JStr (step_status_name (sl_status s)))]
        ++ opt_field "input" id (sl_input s)
        ++ opt_field "completedAt" JStr (sl_completedAt s)
        ++ opt_field "output" id (sl_output s)
        ++ opt_field "error" JStr (sl_error s)
        ++ opt_field "verification" verification_json (sl_verification s)).

Definition diff_json (d : DiffEntry) : json :=
  JObj [("file", JStr (de_file d)); ("before", JStr (de_before d));
        ("after", JStr (de_after d)); ("stepId", JStr (de_stepId d));
        ("timestamp", JStr (de_timestamp d))].

Definition nat_json (n : nat) : json := JNum (Z.of_nat n).

Definition summary_json (s : RunSummary) : json :=
  JObj [("stepsCompleted", nat_json (stepsCompleted s));
        ("stepsFailed", nat_json (stepsFailed s));
        ("stepsSkipped", nat_json (stepsSkipped s));
        ("filesChanged", nat_json (filesChanged s));
        ("durationMs", JNum (durationMs s));
        ("verificationsPassed", nat_json (verificationsPassed s));
        ("verificationsFailed", nat_json (verificationsFailed s))].

Definition diffs_json (ds : list DiffEntry) : json := JArr (List.map diff_json ds).

Definition runlog_json (r : RunLog) : json :=
  JObj ([("runId", JStr (runId r))]
        ++ opt_field "planName" JStr (planName r)
        ++ [("startedAt", JStr (startedAt r));
            ("status", JStr (run_status_name (status r)));
            ("events", JArr (List.map event_json (events r)));
            ("steps", JArr (List.map step_json (steps r)));
            ("diffs", diffs_json (diffs r))]
        ++ opt_field "completedAt" JStr (completedAt r)
        ++ opt_field "summary" summary_json (summary r)).

(** [path.join(dir, name)] for a plain file name. *)
Definition path_join (dir name : string) : string := dir +:+ "/" +:+ name.

Record AuditLogger : Type := { runLog : RunLog; runDir : string }.

(** A call of [writeFile(path, content, 'utf-8')]. *)
Record FileWrite : Type := { fw_path : string; fw_content : string }.

(** [AuditLogger.save]: the files it writes, in order. *)
Definition save (l : AuditLogger) : list FileWrite :=
  let logPath := path_join (runDir l) "run.json" in
  let content := stringify (runlog_json (runLog l)) in
  {| fw_path := logPath; fw_content := Secrets.redactSecrets content |}
  ::
  (if Nat.ltb 0 (List.length (diffs (runLog l)))
   then
     let diffPath := path_join (runDir l) "diffs.json" in
     [{| fw_path := diffPath;
         fw_content := stringify (diffs_json (diffs (runLog l))) |}]
   else []).

(** [new AuditLogger(runId, planName)]; [runsDir] is [getRunsDir()] and
    [now] the time of the call as an ISO string. *)
Definition new_logger (runsDir rid : string) (plan : option string) (now : string)
  : AuditLogger :=
  {| runDir := path_join runsDir rid;
     runLog := {| runId := rid; planName := plan; startedAt := now;
                  completedAt := None; status := run_running; events := [];
                  steps := []; diffs := []; summary := None |} |}.

Definition with_log (l : AuditLogger) (r : RunLog) : AuditLogger :=
  {| runLog := r; runDir := runDir l |}.

(** The subscription to the audit emitter. *)
Definition onAudit (l : AuditLogger) (e : AuditEvent) : AuditLogger :=
  let r := runLog l in
  with_log l
    {| runId := runId r; planName := planName r; startedAt := startedAt r;
       completedAt := completedAt r; status := status r;
       events := events r ++ [e]; steps := steps r; diffs := diffs r;
       summary := summary r |}.

Definition addStep (l : AuditLogger) (step : StepLog) : AuditLogger :=
  let r := runLog l in
  with_log l
    {| runId := runId r; planName := planName r; startedAt := startedAt r;
       completedAt := completedAt r; status := status r;
       events := events r; steps := steps r ++ [step]; diffs := diffs r;
       summary := summary r |}.

Definition addDiff (l : AuditLogger) (d : DiffEntry) : AuditLogger :=
  let r := runLog l in
  with_log l
    {| runId := runId r; planName := planName r; startedAt := startedAt r;
       completedAt := completedAt r; status := status r;
       events := events r; steps := steps r; diffs := diffs r ++ [d];
       summary := summary r |}.

(** A run whose only step wrote an AWS access key into a file. *)
Definition aws_key : string := "AKIA0123456789ABCDEF".

Definition leaky_run : AuditLogger :=
  addDiff (new_logger ".agent/runs" "run-1" (Some "deploy") "2026-01-01T00:00:00.000Z")
    {| de_file := "/w/.env"; de_before := EmptyString;
       de_after := "KEY=" +:+ aws_key;
       de_stepId := "s1";
       de_timestamp := "2026-01-01T00:00:01.000Z" |}.

End AuditLog.

(** ** The policy engine (policy/engine.ts) *)

Module Policy.

Inductive ApprovalAction : Type := allow | deny | confirm.

Record PolicyRule : Type := {
  permission : string;
  action : ApprovalAction
}.

Record PolicyConfig : Type := {
  defaultApproval : ApprovalAction;
  rules : list PolicyRule
}.

Inductive RiskLevel : Type := low | medium | high.

Record ActionDescriptor : Type := {
  tool : string;
  operation : string;
  description : string;
  permissions : list string;
  args : option json;
  riskLevel : RiskLevel
}.

Record PermissionResult : Type := {
  allowed : bool;
  reason : option string;
  requiresApproval : bool
}.

Record ExecutionContext : Type := {
  cwd : string;
  autonomous : bool;
  approvedPermissions : gset string;
  onApproval : option (ActionDescriptor -> bool);
  enabledTools : list string
}.

Record PolicyEngine : Type := {
  config : PolicyConfig;
  sessionApprovals : gset string
}.

(** What [auditEmitter.emit(type, data)] is called with. *)
Definition Emission : Type := AuditLog.AuditEventType * json.

(** The loop [for (const rule of rules) if (rule.permission === p)
    return rule.action]. *)
Fixpoint scanRules (rs : list PolicyRule) (p : string) : option ApprovalAction :=
  match rs with
  | [] => None
  | rule :: rest =>
      if String.eqb (permission rule) p then Some (action rule)
      else scanRules rest p
  end.

Definition findRule (cfg : PolicyConfig) (perm : string) : ApprovalAction :=
  match scanRules (rules cfg) perm with
  | Some a => a
  | None =>
      let parentPerm := Str.before_dot perm in
      if negb (String.eqb parentPerm perm) then
        match scanRules (rules cfg) parentPerm with
        | Some a => a
        | None => defaultApproval cfg
        end
      else defaultApproval cfg
  end.

(** The cache key of a session approval. *)
Definition session_key (toolName perm : string) : string :=
  toolName +:+ ":" +:+ perm.

Definition quoted (s : string) : string :=
  String (ascii_of_nat 34) s +:+ String (ascii_of_nat 34) EmptyString.

Definition granted : PermissionResult :=
  {| allowed := true; reason := None; requiresApproval := false |}.

(** The loop of [checkPermission] over the permissions still to
    check. *)
Fixpoint checkPermission_from (e : PolicyEngine) (a : ActionDescriptor)
    (ctx : ExecutionContext) (perms : list string)
  : PermissionResult * list Emission :=
  match perms with
  | [] => (granted, [])
  | perm :: rest =>
      let rule := findRule (config e) perm in
      if bool_decide (perm ∈ approvedPermissions ctx)
         || bool_decide (session_key (tool a) perm ∈ sessionApprovals e)
      then checkPermission_from e a ctx rest
      else
        match rule with
        | allow => checkPermission_from e a ctx rest
        | deny =>
            ({| allowed := false;
                reason := Some ("Permission " +:+ quoted perm
                                +:+ " is denied by policy for tool "
                                +:+ quoted (tool a));
                requiresApproval := false |},
             [(AuditLog.PERMISSION_DENIED,
               JObj [("tool", JStr (tool a)); ("permission", JStr perm);
                     ("reason", JStr "Denied by policy")])])
        | confirm =>
            ({| allowed := false;
                reason := Some ("Action " +:+ quoted (description a)
                                +:+ " requires approval (" +:+ perm +:+ ")");
                requiresApproval := true |},
             [])
        end
  end.

Definition checkPermission (e : PolicyEngine) (a : ActionDescriptor)
    (ctx : ExecutionContext) : PermissionResult * list Emission :=
  checkPermission_from e a ctx (permissions a).

Definition grantSessionApproval (e : PolicyEngine) (a : ActionDescriptor)
  : PolicyEngine :=
  {| config := config e;
     sessionApprovals :=
       fold_left (fun acc perm => acc ∪ {[ session_key (tool a) perm ]})
                 (permissions a) (sessionApprovals e) |}.

Definition clearSessionApprovals (e : PolicyEngine) : PolicyEngine :=
  {| config := config e; sessionApprovals := ∅ |}.

Definition approval_data (a : ActionDescriptor) : json :=
  JObj [("tool", JStr (tool a));
        ("permissions", JArr (List.map JStr (permissions a)));
        ("description", JStr (description a))].

Definition requestApproval (e : PolicyEngine) (a : ActionDescriptor)
    (ctx : ExecutionContext) : bool * PolicyEngine * list Emission :=
  match autonomous ctx, riskLevel a with
  | true, low => (true, grantSessionApproval e a, [])
  | _, _ =>
      match onApproval ctx with
      | Some handler =>
          if handler a
          then (true, grantSessionApproval e a,
                [(AuditLog.APPROVAL_GRANTED, approval_data a)])
          else (false, e, [(AuditLog.APPROVAL_DENIED, approval_data a)])
      | None => (false, e, [])
      end
  end.

(** A required permission passes a check without a question: it is
    pre-approved in the context, approved for this tool in the session,
    or allowed by the rule that [findRule] resolves. *)
Definition passes (e : PolicyEngine) (a : ActionDescriptor) (ctx : ExecutionContext)
    (p : string) : Prop :=
  p ∈ approvedPermissions ctx
  \/ session_key (tool a) p ∈ sessionApprovals e
  \/ findRule (config e) p = allow.

End Policy.

(** ** An insertion-ordered [Map] with string keys *)

Module JsMap.

Definition t (V : Type) : Type := list (string * V).

Fixpoint get {V} (m : t V) (k : string) : option V :=
  match m with
  | [] => None
  | (k', v) :: rest => if String.eqb k' k then Some v else get rest k
  end.

Definition has {V} (m : t V) (k : string) : bool :=
  match get m k with Some _ => true | None => false end.

(** [m.set(k, v)]: an existing key keeps its place, a new key goes
    last. *)
Fixpoint set {V} (m : t V) (k : string) (v : V) : t V :=
  match m with
  | [] => [(k, v)]
  | (k', v') :: rest =>
      if String.eqb k' k then (k', v) :: rest else (k', v') :: set rest k v
  end.

Definition keys {V} (m : t V) : list string := List.map fst m.

(** What every map built by [set] from the empty map satisfies. *)
Definition wf {V} (m : t V) : Prop := NoDup (keys m).

End JsMap.

(** ** Text files: what [readFile(path, 'utf-8')] makes of bytes *)

Module Utf8.

(** A text is held as its UTF-8 encoding, so writing a text with
    [writeFile(path, text, 'utf-8')] stores the text as it is, and
    reading bytes with [readFile(path, 'utf-8')] yields them with every
    sequence that is no UTF-8 replaced by U+FFFD. *)

Definition code (b : ascii) : N := N_of_ascii b.

Definition in_range (lo hi : N) (b : ascii) : bool :=
  N.leb lo (code b) && N.leb (code b) hi.

(** U+FFFD as UTF-8: EF BF BD. *)
Definition replacement : string :=
  String (ascii_of_N 239) (String (ascii_of_N 191) (String (ascii_of_N 189) EmptyString)).

(** What a byte is when no sequence is pending: a character of its
    own, the first byte of a sequence of [needed] more bytes whose next
    byte lies between [lower] and [upper], or the start of nothing. *)
Inductive Lead : Type :=
| Single
| Starts (needed : nat) (lower upper : N)
| Invalid.

Definition lead (b : ascii) : Lead :=
  if N.leb (code b) 127 then Single
  else if in_range 194 223 b then Starts 1 128 191
  else if in_range 224 239 b then
    Starts 2 (if N.eqb (code b) 224 then 160 else 128)
             (if N.eqb (code b) 237 then 159 else 191)
  else if in_range 240 244 b then
    Starts 3 (if N.eqb (code b) 240 then 144 else 128)
             (if N.eqb (code b) 244 then 143 else 191)
  else Invalid.

(** The decoder, with [needed] bytes of the pending sequence to come
    and the bytes of that sequence read so far in [pending]. A byte
    that cannot continue the pending sequence ends it with U+FFFD and
    is read again as a first byte; so does the end of the input. *)
Fixpoint decode_from (needed : nat) (lower upper : N) (pending : string)
    (bytes : string) : string :=
  match bytes with
  | EmptyString =>
      match needed with
      | O => EmptyString
      | S _ => replacement
      end
  | String b rest =>
      let fresh :=
        match lead b with
        | Single => String b (decode_from 0 128 191 EmptyString rest)
        | Starts n lo hi => decode_from n lo hi (String b EmptyString) rest
        | Invalid => replacement +:+ decode_from 0 128 191 EmptyString rest
        end in
      match needed with
      | O => fresh
      | S n =>
          if in_range lower upper b then
            match n with
            | O => pending +:+ String b (decode_from 0 128 191 EmptyString rest)
            | S _ => decode_from n 128 191 (pending +:+ String b EmptyString) rest
            end
          else replacement +:+ fresh
      end
  end.

Definition decode (bytes : string) : string := decode_from 0 128 191 EmptyString bytes.





End Utf8.

(** ** The rollback tracker (engine/rollback.ts) *)

Module Rollback.

Record FileDiff : Type := {
  file : string;
  before : string;
  after : string;
  patch : string
}.

Record RollbackTracker : Type := {
  beforeStates : JsMap.t (JsMap.t string);
  diffs : list FileDiff
}.

Definition empty : RollbackTracker := {| beforeStates := []; diffs := [] |}.

(** What an absolute path names on the disk: a file with its bytes, or
    a directory. A path that is not in the map names nothing. *)
Inductive Node : Type :=
| File (bytes : string)
| Dir.

Abbreviation FS := (gmap string Node).

(** What the [try { access; readFile(absPath, 'utf-8') } catch { '' }]
    blocks yield: the text of a file, and the empty text when the path
    names nothing or names a directory, where [readFile] throws. *)
Definition read_or_empty (fs : FS) (absPath : string) : string :=
  match fs !! absPath with
  | Some (File bytes) => Utf8.decode bytes
  | _ => EmptyString
  end.

(** The text before the last slash. *)
Fixpoint before_last_slash (s : string) : option string :=
  match s with
  | EmptyString => None
  | String c r =>
      match before_last_slash r with
      | Some d => Some (String c d)
      | None => if Ascii.eqb c "/" then Some EmptyString else None
      end
  end.

(** [path.dirname] of a path as [path.resolve] returns it. *)
Definition dirname (absPath : string) : string :=
  match before_last_slash absPath with
  | Some EmptyString => "/"
  | Some d => d
  | None => "."
  end.

(** Whether [writeFile(filePath, ...)] goes through: it throws when the
    path names a directory and when the directory of the path does not
    exist; otherwise it creates the file or replaces its content. *)
Definition writable (fs : FS) (filePath : string) : bool :=
  match fs !! filePath with
  | Some Dir => false
  | _ =>
      match fs !! dirname filePath with
      | Some Dir => true
      | _ => false
      end
  end.

(** [writeFile(filePath, content, 'utf-8')]: the disk afterwards, or
    [None] when it throws. *)
Definition writeFile (fs : FS) (filePath content : string) : option FS :=
  if writable fs filePath then Some (<[filePath := File content]> fs) else None.

Section Tracker.

(** [path.resolve(cwd, filePath)] and [createPatch] of the [diff]
    package. *)
Variable resolve : string -> string -> string.
Variable createPatch : string -> string -> string -> string.

Definition captureBeforeState (t : RollbackTracker) (fs : FS)
    (stepId filePath cwd : string) : RollbackTracker :=
  let absPath := resolve cwd filePath in
  let content := read_or_empty fs absPath in
  let states :=
    if negb (JsMap.has (beforeStates t) stepId)
    then JsMap.set (beforeStates t) stepId []
    else beforeStates t in
  let bucket := default [] (JsMap.get states stepId) in
  {| beforeStates := JsMap.set states stepId (JsMap.set bucket absPath content);
     diffs := diffs t |}.

Definition captureAfterState (t : RollbackTracker) (fs : FS)
    (stepId filePath cwd : string) : RollbackTracker :=
  let absPath := resolve cwd filePath in
  match JsMap.get (beforeStates t) stepId with
  | None => t
  | Some beforeMap =>
      let before := default EmptyString (JsMap.get beforeMap absPath) in
      let after := read_or_empty fs absPath in
      if negb (String.eqb before after)
      then {| beforeStates := beforeStates t;
              diffs := diffs t ++ [ {| file := absPath; before := before;
                                       after := after;
                                       patch := createPatch absPath before after |} ] |}
      else t
  end.

(** The loop of [rollbackStep] over the entries of a bucket: the disk
    afterwards and the list [restored], or [None] in its place when a
    [writeFile] threw; the entries after that one are not written. *)
Fixpoint restore_entries (entries : JsMap.t string) (fs : FS)
  : FS * option (list string) :=
  match entries with
  | [] => (fs, Some [])
  | (filePath, content) :: rest =>
      match writeFile fs filePath content with
      | None => (fs, None)
      | Some fs1 =>
          let '(fs', restored) := restore_entries rest fs1 in
          (fs', option_map (cons filePath) restored)
      end
  end.

Definition rollbackStep (t : RollbackTracker) (fs : FS) (stepId : string)
  : FS * option (list string) :=
  match JsMap.get (beforeStates t) stepId with
  | None => (fs, Some [])
  | Some beforeMap => restore_entries beforeMap fs
  end.

(** The loop of [rollbackAll]; a [rollbackStep] that throws ends it. *)
Fixpoint rollback_steps (t : RollbackTracker) (stepIds : list string) (fs : FS)
  : FS * option (list string) :=
  match stepIds with
  | [] => (fs, Some [])
  | stepId :: rest =>
      match rollbackStep t fs stepId with
      | (fs1, None) => (fs1, None)
      | (fs1, Some restored) =>
          let '(fs2, more) := rollback_steps t rest fs1 in
          (fs2, option_map (app restored) more)
      end
  end.

Definition rollbackAll (t : RollbackTracker) (fs : FS) : FS * option (list string) :=
  rollback_steps t (rev (JsMap.keys (beforeStates t))) fs.

Definition exportPatches (t : RollbackTracker) : string :=
  Str.join Json.nl (List.map patch (diffs t)).

Definition clear (t : RollbackTracker) : RollbackTracker := empty.

(** The stored pre-state of a path under a step. *)
Definition stored (t : RollbackTracker) (stepId absPath : string)
  : option string :=
  match JsMap.get (beforeStates t) stepId with
  | Some bucket => JsMap.get bucket absPath
  | None => None
  end.

Definition tracker_wf (t : RollbackTracker) : Prop :=
  JsMap.wf (beforeStates t) /\
  forall stepId bucket,
    JsMap.get (beforeStates t) stepId = Some bucket -> JsMap.wf bucket.

End Tracker.

(** A concrete [path.resolve] for paths without dots: a relative path
    is appended to the working directory. *)
Definition resolve_plain (cwd filePath : string) : string :=
  if Str.startsWith "/" filePath then filePath else cwd +:+ "/" +:+ filePath.

Definition patch_plain (absPath before after : string) : string :=
  "--- " +:+ absPath +:+ Json.nl +:+ "-" +:+ before +:+ Json.nl +:+ "+" +:+ after.

End Rollback.

(** ** The tool registry (tools/registry.ts) *)

Module Tools.

Record ToolResult : Type := {
  success : bool;
  data : option json;
  error : option string;
  durationMs : Z;
  metadata : option json
}.

Definition failure (msg : string) : ToolResult :=
  {| success := false; data := None; error := Some msg; durationMs := 0;
     metadata := None |}.

Definition result_json (r : ToolResult) : json :=
  JObj ([("success", JBool (success r))]
        ++ opt_field "data" id (data r)
        ++ opt_field "error" JStr (error r)
        ++ [("durationMs", JNum (durationMs r))]
        ++ opt_field "metadata" id (metadata r)).

Section Registry.

(** The state of everything outside the runtime that a tool can read or
    change. *)
Variable W : Type.

(** [safeParse] yields the parsed input or the joined issue messages;
    [execute] yields the tool's result, a thrown error or a timeout
    being the failure result the registry makes of it. *)
Record ToolDefinition : Type := {
  name : string;
  category : string;
  description : string;
  inputSchema : json;
  permissions : list string;
  safeParse : json -> string + json;
  execute : json -> W -> W * ToolResult
}.

Definition ToolRegistry : Type := JsMap.t ToolDefinition.

Definition get (reg : ToolRegistry) (toolName : string) : option ToolDefinition :=
  JsMap.get reg toolName.

(** [pattern.endsWith('.*')] and [pattern.slice(0, -1)]. *)
Fixpoint ends_dot_star (pattern : string) : bool :=
  match pattern with
  | String a (String b EmptyString) => Ascii.eqb a "." && Ascii.eqb b "*"
  | String _ r => ends_dot_star r
  | EmptyString => false
  end.

Definition drop_last (s : string) : string := Str.take (String.length s - 1) s.

Definition matchesPattern (toolName pattern : string) : bool :=
  if String.eqb pattern toolName then true
  else if ends_dot_star pattern then Str.startsWith (drop_last pattern) toolName
  else false.

Definition registry_execute (reg : ToolRegistry) (enabled : list string)
    (toolName : string) (input : json) (w : W) : W * ToolResult :=
  match JsMap.get reg toolName with
  | None => (w, failure ("Tool " +:+ Policy.quoted toolName +:+ " not found"))
  | Some tool =>
      match safeParse tool input with
      | inl issues =>
          (w, failure ("Invalid input for " +:+ Policy.quoted toolName +:+ ": " +:+ issues))
      | inr parsed =>
          if existsb (matchesPattern toolName) enabled
          then execute tool parsed w
          else (w, failure ("Tool " +:+ Policy.quoted toolName
                            +:+ " is not enabled in configuration"))
      end
  end.

End Registry.

Arguments name {W} _.
Arguments category {W} _.
Arguments description {W} _.
Arguments inputSchema {W} _.
Arguments permissions {W} _.
Arguments safeParse {W} _ _.
Arguments execute {W} _ _ _.
Arguments get {W} _ _.
Arguments registry_execute {W} _ _ _ _ _.

End Tools.

(** ** The skill runner (skills/runner.ts) *)

Module Skills.

Record ValidatorConfig : Type := {
  v_name : string;
  v_command : string;
  v_cwd : option string
}.

Record SkillManifest : Type := {
  sk_name : string;
  sk_version : string;
  sk_entrypoint : string;
  sk_tools : list string;
  sk_validators : option (list ValidatorConfig)
}.

Record LoadedSkill : Type := {
  manifest : SkillManifest;
  promptContent : option string;
  workflowPath : option string
}.

(** A workflow entrypoint, as far as the runner can observe it: it
    returns, throws, or calls the tool executor it was handed and goes
    on with the result. *)
Inductive Workflow : Type :=
| WfReturn (out : json)
| WfThrow (msg : string)
| WfCall (toolName : string) (args : json) (k : Tools.ToolResult -> Workflow).

Record LLMToolCall : Type := {
  tc_id : string;
  tc_name : string;
  tc_args : json
}.

Inductive Role : Type := system | user | assistant | tool_role.

Record LLMMessage : Type := {
  role : Role;
  content : string;
  toolCallId : option string;
  toolCalls : option (list LLMToolCall)
}.

Record LLMToolDefinition : Type := {
  td_name : string;
  td_description : string;
  td_inputSchema : json
}.

Inductive ChatOutcome : Type :=
| ChatResponse (text : string) (calls : option (list LLMToolCall))
| ChatThrows (msg : string).

Record ToolCallRecord : Type := {
  rec_tool : string;
  rec_input : json;
  rec_result : Tools.ToolResult
}.

Record ValidatorResult : Type := {
  vr_name : string;
  vr_passed : bool;
  vr_output : string
}.

Record SkillRunResult : Type := {
  success : bool;
  output : option json;
  error : option string;
  toolCallLog : list ToolCallRecord;
  validatorResults : option (list ValidatorResult)
}.

(** [GetSubstitution] for a replacement string when the pattern is a
    string: two dollars give one, dollar-ampersand the match, dollar-
    backquote the text before it, dollar-quote the text after it; no
    group exists, so any other dollar stays as written. *)
Fixpoint expand_replacement (matched before after repl : string) : string :=
  match repl with
  | EmptyString => EmptyString
  | String c r =>
      if Ascii.eqb c "$" then
        match r with
        | String d r' =>
            if Ascii.eqb d "$" then
              String "$" (expand_replacement matched before after r')
            else if Ascii.eqb d "&" then
              matched +:+ expand_replacement matched before after r'
            else if Ascii.eqb d "`" then
              before +:+ expand_replacement matched before after r'
            else if Ascii.eqb d "'" then
              after +:+ expand_replacement matched before after r'
            else String c (expand_replacement matched before after r)
        | EmptyString => String c EmptyString
        end
      else String c (expand_replacement matched before after r)
  end.

(** [s.replace(pattern, repl)] with a non-empty string pattern. *)
Definition js_replace (s pattern repl : string) : string :=
  match Str.split_first pattern s with
  | Some (before, after) =>
      before +:+ expand_replacement pattern before after repl +:+ after
  | None => s
  end.

Definition placeholder (key : string) : string := "{{" +:+ key +:+ "}}".

(** The templating loop over [Object.entries(inputs)]. *)
Definition renderPrompt (prompt : string) (inputs : list (string * json)) : string :=
  fold_left (fun p kv => js_replace p (placeholder (fst kv)) (to_String (snd kv)))
            inputs prompt.

Section Runner.

Variable W : Type.

(** The model behind [llmRouter.chat], the loader behind
    [import(workflowPath)] and the command runner behind
    [runValidators]. *)
Variable chat : list LLMMessage -> list LLMToolDefinition -> string -> ChatOutcome.
Variable importWorkflow : string -> string + (json -> Workflow).
Variable execValidator : ValidatorConfig -> string -> W -> W * (bool * string).

Variable registry : Tools.ToolRegistry W.

(** What a run reads and changes; [llmCalls] counts the calls of the
    model. *)
Record RunState : Type := {
  world : W;
  policy : Policy.PolicyEngine;
  messages : list LLMMessage;
  toolCallsOut : list ToolCallRecord;
  emitted : list Policy.Emission;
  llmCalls : nat
}.

Definition push_message (st : RunState) (m : LLMMessage) : RunState :=
  {| world := world st; policy := policy st; messages := messages st ++ [m];
     toolCallsOut := toolCallsOut st; emitted := emitted st;
     llmCalls := llmCalls st |}.

Definition tool_message (tc : LLMToolCall) (body : json) : LLMMessage :=
  {| role := tool_role; content := stringify_compact body;
     toolCallId := Some (tc_id tc); toolCalls := None |}.

Definition error_body (msg : option string) : json :=
  JObj (opt_field "error" JStr msg).

Definition skill_action (skill : LoadedSkill) (tc : LLMToolCall)
    (tool : Tools.ToolDefinition W) : Policy.ActionDescriptor :=
  {| Policy.tool := tc_name tc;
     Policy.operation := tc_name tc;
     Policy.description :=
       "Skill " +:+ Policy.quoted (sk_name (manifest skill)) +:+ " calling " +:+ tc_name tc;
     Policy.permissions := Tools.permissions tool;
     Policy.args := Some (tc_args tc);
     Policy.riskLevel := Policy.medium |}.

(** The dispatch at the end of the loop body: [registry.execute], the
    record in [toolCalls], the [tool_call] event and the tool message. *)
Definition dispatch (ctx : Policy.ExecutionContext) (st : RunState)
    (tc : LLMToolCall) : RunState :=
  let '(w', result) :=
    Tools.registry_execute registry (Policy.enabledTools ctx)
      (tc_name tc) (tc_args tc) (world st) in
  {| world := w'; policy := policy st;
     messages := messages st ++ [tool_message tc (Tools.result_json result)];
     toolCallsOut := toolCallsOut st
       ++ [ {| rec_tool := tc_name tc; rec_input := tc_args tc; rec_result := result |} ];
     emitted := emitted st
       ++ [(AuditLog.TOOL_CALL,
            JObj [("tool", JStr (tc_name tc)); ("input", tc_args tc);
                  ("success", JBool (Tools.success result))])];
     llmCalls := llmCalls st |}.

Definition with_policy (st : RunState) (e : Policy.PolicyEngine)
    (evs : list Policy.Emission) : RunState :=
  {| world := world st; policy := e; messages := messages st;
     toolCallsOut := toolCallsOut st; emitted := emitted st ++ evs;
     llmCalls := llmCalls st |}.

(** One turn of [for (const tc of response.toolCalls)]. *)
Definition handle_tool_call (skill : LoadedSkill) (ctx : Policy.ExecutionContext)
    (st : RunState) (tc : LLMToolCall) : RunState :=
  match Tools.get registry (tc_name tc) with
  | None =>
      push_message st
        (tool_message tc (error_body (Some ("Tool " +:+ tc_name tc +:+ " not found"))))
  | Some tool =>
      let act := skill_action skill tc tool in
      let '(permResult, evs) := Policy.checkPermission (policy st) act ctx in
      let st1 := with_policy st (policy st) evs in
      if negb (Policy.allowed permResult) && Policy.requiresApproval permResult then
        let '(approved, e', evs') := Policy.requestApproval (policy st1) act ctx in
        let st2 := with_policy st1 e' evs' in
        if approved then dispatch ctx st2 tc
        else push_message st2
               (tool_message tc (error_body (Some "Permission denied by user")))
      else if negb (Policy.allowed permResult) then
        push_message st1 (tool_message tc (error_body (Policy.reason permResult)))
      else dispatch ctx st1 tc
  end.

Definition toolDefs (skill : LoadedSkill) : list LLMToolDefinition :=
  List.map (fun t => {| td_name := Tools.name t;
                        td_description := Tools.description t;
                        td_inputSchema := Tools.inputSchema t |})
    (omap (Tools.get registry) (sk_tools (manifest skill))).

Definition count_call (st : RunState) : RunState :=
  {| world := world st; policy := policy st; messages := messages st;
     toolCallsOut := toolCallsOut st; emitted := emitted st;
     llmCalls := S (llmCalls st) |}.

(** The agentic loop with [remaining] iterations to go: the final
    state, and the output or the message of the error thrown. *)
Fixpoint agentic_loop (skill : LoadedSkill) (ctx : Policy.ExecutionContext)
    (remaining : nat) (st : RunState) : RunState * (string + json) :=
  match remaining with
  | O => (st, inr JNull)
  | S remaining' =>
      match chat (messages st) (toolDefs skill) (sk_name (manifest skill)) with
      | ChatThrows msg => (count_call st, inl msg)
      | ChatResponse text (Some (tc :: more)) =>
          let st1 :=
            push_message (count_call st)
              {| role := assistant; content := text; toolCallId := None;
                 toolCalls := Some (tc :: more) |} in
          let st2 := fold_left (handle_tool_call skill ctx) (tc :: more) st1 in
          agentic_loop skill ctx remaining' st2
      | ChatResponse text _ => (count_call st, inr (JStr text))
      end
  end.

Definition maxIterations : nat := 20.

(** A model that returns tool calls whatever it is sent. *)
Definition always_calls : Prop :=
  forall msgs tools skillName,
    exists text tc more, chat msgs tools skillName = ChatResponse text (Some (tc :: more)).

Definition runPromptSkill (skill : LoadedSkill) (inputs : list (string * json))
    (ctx : Policy.ExecutionContext) (st : RunState) : RunState * (string + json) :=
  let prompt := renderPrompt (default EmptyString (promptContent skill)) inputs in
  let st0 :=
    {| world := world st; policy := policy st;
       messages :=
         [ {| role := system; content := prompt; toolCallId := None; toolCalls := None |};
           {| role := user;
              content := "Execute this skill with inputs: "
                         +:+ stringify_compact (JObj inputs);
              toolCallId := None; toolCalls := None |} ];
       toolCallsOut := toolCallsOut st; emitted := emitted st;
       llmCalls := llmCalls st |} in
  agentic_loop skill ctx maxIterations st0.

(** The workflow run against the scoped tool executor. *)
Fixpoint run_workflow (skill : LoadedSkill) (ctx : Policy.ExecutionContext)
    (wf : Workflow) (st : RunState) : RunState * (string + json) :=
  match wf with
  | WfReturn out => (st, inr out)
  | WfThrow msg => (st, inl ("Workflow execution failed: " +:+ msg))
  | WfCall toolName args k =>
      if negb (existsb (String.eqb toolName) (sk_tools (manifest skill))) then
        run_workflow skill ctx
          (k (Tools.failure ("Tool " +:+ Policy.quoted toolName
                             +:+ " is not allowed for skill "
                             +:+ Policy.quoted (sk_name (manifest skill)))))
          st
      else
        let '(w', result) :=
          Tools.registry_execute registry (Policy.enabledTools ctx) toolName args (world st) in
        run_workflow skill ctx (k result)
          {| world := w'; policy := policy st; messages := messages st;
             toolCallsOut := toolCallsOut st
               ++ [ {| rec_tool := toolName; rec_input := args; rec_result := result |} ];
             emitted := emitted st; llmCalls := llmCalls st |}
  end.

Definition runWorkflowSkill (skill : LoadedSkill) (inputs : list (string * json))
    (ctx : Policy.ExecutionContext) (st : RunState) : RunState * (string + json) :=
  match importWorkflow (default EmptyString (workflowPath skill)) with
  | inl msg => (st, inl ("Workflow execution failed: " +:+ msg))
  | inr wf => run_workflow skill ctx (wf (JObj inputs)) st
  end.

(** [runValidators(skill, cwd)]. *)
Fixpoint run_validator_list (vs : list ValidatorConfig) (cwd : string) (w : W)
  : W * list ValidatorResult :=
  match vs with
  | [] => (w, [])
  | v :: rest =>
      let '(w1, (ok, out)) := execValidator v (default cwd (v_cwd v)) w in
      let '(w2, results) := run_validator_list rest cwd w1 in
      (w2, {| vr_name := v_name v; vr_passed := ok; vr_output := out |} :: results)
  end.

Definition runValidators (skill : LoadedSkill) (cwd : string) (w : W)
  : W * list ValidatorResult :=
  match sk_validators (manifest skill) with
  | None => (w, [])
  | Some vs => run_validator_list vs cwd w
  end.

(** A string is truthy when it is there and not empty. *)
Definition truthy (s : option string) : bool :=
  match s with
  | Some (String _ _) => true
  | _ => false
  end.

Definition with_world (st : RunState) (w : W) : RunState :=
  {| world := w; policy := policy st; messages := messages st;
     toolCallsOut := toolCallsOut st; emitted := emitted st;
     llmCalls := llmCalls st |}.

(** [SkillRunner.run]. [w] and [e] are the world and the policy engine
    at the call. *)
Definition run (skill : LoadedSkill) (inputs : list (string * json))
    (ctx : Policy.ExecutionContext) (w : W) (e : Policy.PolicyEngine)
  : RunState * SkillRunResult :=
  let st :=
    {| world := w; policy := e; messages := []; toolCallsOut := [];
       emitted := [(AuditLog.SKILL_LOADED,
                    JObj [("name", JStr (sk_name (manifest skill)));
                          ("version", JStr (sk_version (manifest skill)));
                          ("entrypoint", JStr (sk_entrypoint (manifest skill)))])];
       llmCalls := 0 |} in
  let '(st1, outcome) :=
    if truthy (promptContent skill) then runPromptSkill skill inputs ctx st
    else if truthy (workflowPath skill) then runWorkflowSkill skill inputs ctx st
    else (st, inl ("Skill " +:+ Policy.quoted (sk_name (manifest skill))
                   +:+ " has no valid entrypoint")) in
  match outcome with
  | inr out =>
      let '(w', results) := runValidators skill (Policy.cwd ctx) (world st1) in
      let allPassed := forallb vr_passed results in
      (with_world st1 w',
       {| success := allPassed || Nat.eqb (List.length results) 0;
          output := Some out;
          error := None;
          toolCallLog := toolCallsOut st1;
          validatorResults := Some results |})
  | inl msg =>
      (st1,
       {| success := false; output := None; error := Some msg;
          toolCallLog := toolCallsOut st1; validatorResults := None |})
  end.

End Runner.

End Skills.

(** ** The plan runner (plans/runner.ts) *)

Module Plans.

Inductive OnFailure : Type := retry | skip | abort.

Record VerifyConfig : Type := {
  command : option string;
  fileExists : option string;
  exitCode : option Z;
  contains : option string
}.

Record PlanStep : Type := {
  id : string;
  name : string;
  skill : option string;
  tool : option string;
  args : option json;
  verify : option VerifyConfig;
  onFailure : option OnFailure;
  retries : option Z;
  dependsOn : option (list string)
}.

Record Plan : Type := {
  planName : string;
  planSteps : list PlanStep
}.

Record StepResult : Type := {
  success : bool;
  output : option json;
  error : option string;
  durationMs : Z
}.

Inductive StepStatus : Type := pending | running | completed | failed | skipped.

Definition step_status_name (s : StepStatus) : string :=
  match s with
  | pending => "pending" | running => "running" | completed => "completed"
  | failed => "failed" | skipped => "skipped"
  end.

Inductive RunStatus : Type :=
  run_pending | run_running | run_completed | run_failed | run_aborted | run_proposed.

Definition run_status_name (s : RunStatus) : string :=
  match s with
  | run_pending => "pending" | run_running => "running"
  | run_completed => "completed" | run_failed => "failed"
  | run_aborted => "aborted" | run_proposed => "proposed"
  end.

Record PlanStepRun : Type := {
  stepId : string;
  status : StepStatus;
  sr_output : option json;
  sr_error : option string;
  sr_durationMs : option Z;
  verification : option AuditLog.Verification
}.

Record PlanRun : Type := {
  runId : string;
  runPlanName : string;
  runStatus : RunStatus;
  steps : list PlanStepRun;
  triggeredBy : string
}.

(** A call of the execution engine, by the id of the step it was made
    for. *)
Inductive EngineCall : Type :=
| CallExecute (stepId : string)
| CallVerify (stepId : string).

Definition is_execute (c : EngineCall) : bool :=
  match c with
  | CallExecute _ => true
  | CallVerify _ => false
  end.

Definition status_eqb (a b : StepStatus) : bool :=
  match a, b with
  | pending, pending | running, running | completed, completed
  | failed, failed | skipped, skipped => true
  | _, _ => false
  end.

(** [steps.find((s) => s.stepId === id)]. *)
Fixpoint find_run (rs : list PlanStepRun) (sid : string) : option PlanStepRun :=
  match rs with
  | [] => None
  | r :: rest => if String.eqb (stepId r) sid then Some r else find_run rest sid
  end.

(** An assignment through the reference that [find] returned: the
    first entry with that id changes. *)
Fixpoint update_run (rs : list PlanStepRun) (sid : string)
    (f : PlanStepRun -> PlanStepRun) : list PlanStepRun :=
  match rs with
  | [] => []
  | r :: rest =>
      if String.eqb (stepId r) sid then f r :: rest
      else r :: update_run rest sid f
  end.

Definition set_status (s : StepStatus) (r : PlanStepRun) : PlanStepRun :=
  {| stepId := stepId r; status := s; sr_output := sr_output r;
     sr_error := sr_error r; sr_durationMs := sr_durationMs r;
     verification := verification r |}.

Definition set_error (e : option string) (r : PlanStepRun) : PlanStepRun :=
  {| stepId := stepId r; status := status r; sr_output := sr_output r;
     sr_error := e; sr_durationMs := sr_durationMs r;
     verification := verification r |}.

Definition set_output (o : option json) (r : PlanStepRun) : PlanStepRun :=
  {| stepId := stepId r; status := status r; sr_output := o;
     sr_error := sr_error r; sr_durationMs := sr_durationMs r;
     verification := verification r |}.

Definition set_duration (d : Z) (r : PlanStepRun) : PlanStepRun :=
  {| stepId := stepId r; status := status r; sr_output := sr_output r;
     sr_error := sr_error r; sr_durationMs := Some d;
     verification := verification r |}.

Definition set_verification (v : AuditLog.Verification) (r : PlanStepRun) : PlanStepRun :=
  {| stepId := stepId r; status := status r; sr_output := sr_output r;
     sr_error := sr_error r; sr_durationMs := sr_durationMs r;
     verification := Some v |}.

Section Runner.

Variable W : Type.

(** [engine.executeStep] and [engine.verify]; both catch what their
    bodies throw, so neither throws. *)
Variable executeStep : PlanStep -> W -> W * StepResult.
Variable verifyStep : VerifyConfig -> W -> W * AuditLog.Verification.

(** The state of a run in progress; [calls] lists the engine calls made
    so far, oldest first. *)
Record LoopState : Type := {
  world : W;
  planRun : PlanRun;
  calls : list EngineCall;
  emitted : list Policy.Emission
}.

Definition with_steps (st : LoopState) (rs : list PlanStepRun) : LoopState :=
  {| world := world st;
     planRun := {| runId := runId (planRun st);
                   runPlanName := runPlanName (planRun st);
                   runStatus := runStatus (planRun st);
                   steps := rs;
                   triggeredBy := triggeredBy (planRun st) |};
     calls := calls st; emitted := emitted st |}.

Definition with_run_status (st : LoopState) (s : RunStatus) : LoopState :=
  {| world := world st;
     planRun := {| runId := runId (planRun st);
                   runPlanName := runPlanName (planRun st);
                   runStatus := s;
                   steps := steps (planRun st);
                   triggeredBy := triggeredBy (planRun st) |};
     calls := calls st; emitted := emitted st |}.

Definition update_step (st : LoopState) (sid : string)
    (f : PlanStepRun -> PlanStepRun) : LoopState :=
  with_steps st (update_run (steps (planRun st)) sid f).

Definition emit (st : LoopState) (t : AuditLog.AuditEventType) (d : json) : LoopState :=
  {| world := world st; planRun := planRun st; calls := calls st;
     emitted := emitted st ++ [(t, d)] |}.

Definition call_execute (st : LoopState) (step : PlanStep) : LoopState * StepResult :=
  let '(w', result) := executeStep step (world st) in
  ({| world := w'; planRun := planRun st;
      calls := calls st ++ [CallExecute (id step)]; emitted := emitted st |},
   result).

Definition call_verify (st : LoopState) (step : PlanStep) (v : VerifyConfig)
  : LoopState * AuditLog.Verification :=
  let '(w', verdict) := verifyStep v (world st) in
  ({| world := w'; planRun := planRun st;
      calls := calls st ++ [CallVerify (id step)]; emitted := emitted st |},
   verdict).

Definition status_of (st : LoopState) (sid : string) : option StepStatus :=
  option_map status (find_run (steps (planRun st)) sid).

(** The filter of the dependency check: the dependency has no entry,
    or its entry is not [completed]. *)
Definition unmet (st : LoopState) (depId : string) : bool :=
  match find_run (steps (planRun st)) depId with
  | None => true
  | Some dep => negb (status_eqb (status dep) completed)
  end.

(** The retry loop with [attempts] attempts to go: the state, and
    whether an attempt succeeded. *)
Fixpoint retry_loop (step : PlanStep) (attempts : nat) (st : LoopState)
  : LoopState * bool :=
  match attempts with
  | O => (st, false)
  | S attempts' =>
      let '(st1, retryResult) := call_execute st step in
      if success retryResult then
        (update_step st1 (id step)
           (fun r => set_error None (set_output (output retryResult)
                                       (set_status completed r))),
         true)
      else retry_loop step attempts' st1
  end.

Definition opt_json (k : string) (o : option string) : list (string * json) :=
  opt_field k JStr o.

(** The dependencies of [step] that the filter of the dependency
    check keeps; none when the step declares no dependencies. *)
Definition unmet_deps (st : LoopState) (step : PlanStep) : list string :=
  match dependsOn step with
  | Some deps => List.filter (unmet st) deps
  | None => []
  end.

Definition mark_skipped (st : LoopState) (step : PlanStep) (unmetDeps : list string)
  : LoopState :=
  update_step st (id step)
    (fun r => set_error (Some ("Unmet dependencies: " +:+ Str.join ", " unmetDeps))
                (set_status skipped r)).

(** The verification block: it runs when the step has a clause and the
    execution succeeded. *)
Definition verify_after (step : PlanStep) (result : StepResult) (st : LoopState)
  : LoopState :=
  match verify step with
  | Some v =>
      if success result then
        let '(st', verdict) := call_verify st step v in
        let st'' := update_step st' (id step) (set_verification verdict) in
        if negb (AuditLog.passed verdict) then
          update_step st'' (id step)
            (fun r => set_error (Some ("Verification failed: "
                                       +:+ AuditLog.details verdict))
                        (set_status failed r))
        else st''
      else st
  | None => st
  end.

Definition record_result (result : StepResult) (r : PlanStepRun) : PlanStepRun :=
  set_duration (durationMs result)
    (set_error (error result)
       (set_output (output result)
          (set_status (if success result then completed else failed) r))).

Definition current_status (st : LoopState) (step : PlanStep) : StepStatus :=
  default pending (status_of st (id step)).

Definition emit_step_end (st : LoopState) (step : PlanStep) : LoopState :=
  let now := current_status st step in
  let err := mjoin (option_map sr_error (find_run (steps (planRun st)) (id step))) in
  emit st
    (if status_eqb now completed then AuditLog.STEP_COMPLETE else AuditLog.STEP_FAILED)
    (JObj ([("stepId", JStr (id step)); ("status", JStr (step_status_name now))]
           ++ opt_json "error" err)).

(** The first attempt of a step whose dependencies are met: from
    [stepRun.status = 'running'] to the [step_complete] or
    [step_failed] event. *)
Definition attempt_step (step : PlanStep) (st : LoopState) : LoopState :=
  let st1 := update_step st (id step) (set_status running) in
  let st2 :=
    emit st1 AuditLog.STEP_START
      (JObj ([("stepId", JStr (id step))]
             ++ opt_json "skill" (skill step) ++ opt_json "tool" (tool step))) in
  let '(st3, result) := call_execute st2 step in
  let st4 := update_step st3 (id step) (record_result result) in
  let st5 := verify_after step result st4 in
  emit_step_end st5 step.

(** The body of [for (const step of plan.steps)] and the rest of the
    loop after it; a [break] ends the recursion. *)
Fixpoint run_steps (todo : list PlanStep) (st : LoopState) : LoopState :=
  match todo with
  | [] => st
  | step :: rest =>
      let unmetDeps := unmet_deps st step in
      if Nat.ltb 0 (List.length unmetDeps) then
        run_steps rest (mark_skipped st step unmetDeps)
      else
        let st6 := attempt_step step st in
        if status_eqb (current_status st6 step) failed then
          match default abort (onFailure step) with
          | retry =>
              if Z.ltb 0 (default 0%Z (retries step)) then
                let '(st7, retried) :=
                  retry_loop step (Z.to_nat (default 0%Z (retries step))) st6 in
                if retried then run_steps rest st7
                else with_run_status st7 run_failed
              else run_steps rest st6
          | abort => with_run_status st6 run_failed
          | skip => run_steps rest st6
          end
        else run_steps rest st6
  end.

(** The entry a step starts with: [{ stepId: s.id, status: 'pending' }]. *)
Definition fresh_entry (s : PlanStep) : PlanStepRun :=
  {| stepId := id s; status := pending; sr_output := None; sr_error := None;
     sr_durationMs := None; verification := None |}.

Definition count_status (s : StepStatus) (rs : list PlanStepRun) : nat :=
  List.length (List.filter (fun r => status_eqb (status r) s) rs).

(** [PlanRunner.run]: the finished run with the engine calls and the
    events of the run. *)
Definition run (plan : Plan) (rid : string) (w : W) : LoopState :=
  let st0 :=
    {| world := w;
       planRun :=
         {| runId := rid; runPlanName := planName plan; runStatus := run_running;
            steps := List.map fresh_entry (planSteps plan);
            triggeredBy := "cli" |};
       calls := [];
       emitted :=
         [(AuditLog.RUN_START,
           JObj [("runId", JStr rid); ("planName", JStr (planName plan));
                 ("stepCount", AuditLog.nat_json (List.length (planSteps plan)))])] |} in
  let st1 := run_steps (planSteps plan) st0 in
  let st2 :=
    match runStatus (planRun st1) with
    | run_running => with_run_status st1 run_completed
    | _ => st1
    end in
  emit st2 AuditLog.RUN_COMPLETE
    (JObj [("runId", JStr rid);
           ("status", JStr (run_status_name (runStatus (planRun st2))));
           ("stepsCompleted",
            AuditLog.nat_json (count_status completed (steps (planRun st2))));
           ("stepsFailed",
            AuditLog.nat_json (count_status failed (steps (planRun st2))))]).

End Runner.

End Plans.

(** ** More of the audit logger: step updates, summary, completion *)

Module AuditLogOps.

Import AuditLog.

(** The [Partial<StepLog>] handed to [updateStep]: a field is absent
    ([None]) or present; a present optional field may hold
    [undefined]. *)
Record StepUpdates : Type := {
  up_stepId : option string;
  up_skill : option (option string);
  up_tool : option (option string);
  up_startedAt : option string;
  up_completedAt : option (option string);
  up_status : option StepStatus;
  up_input : option (option json);
  up_output : option (option json);
  up_error : option (option string);
  up_verification : option (option Verification)
}.

(** [Object.assign(step, updates)]. *)
Definition assign (s : StepLog) (u : StepUpdates) : StepLog :=
  {| sl_stepId := default (sl_stepId s) (up_stepId u);
     sl_skill := default (sl_skill s) (up_skill u);
     sl_tool := default (sl_tool s) (up_tool u);
     sl_startedAt := default (sl_startedAt s) (up_startedAt u);
     sl_completedAt := default (sl_completedAt s) (up_completedAt u);
     sl_status := default (sl_status s) (up_status u);
     sl_input := default (sl_input s) (up_input u);
     sl_output := default (sl_output s) (up_output u);
     sl_error := default (sl_error s) (up_error u);
     sl_verification := default (sl_verification s) (up_verification u) |}.

(** [steps.find((s) => s.stepId === stepId)] followed by the
    assignment: the first entry with the id changes. *)
Fixpoint update_first (ss : list StepLog) (sid : string) (u : StepUpdates)
  : list StepLog :=
  match ss with
  | [] => []
  | s :: rest =>
      if String.eqb (sl_stepId s) sid then assign s u :: rest
      else s :: update_first rest sid u
  end.

Definition with_steps (r : RunLog) (ss : list StepLog) : RunLog :=
  {| runId := runId r; planName := planName r; startedAt := startedAt r;
     completedAt := completedAt r; status := status r; events := events r;
     steps := ss; diffs := diffs r; summary := summary r |}.

Definition updateStep (l : AuditLogger) (sid : string) (u : StepUpdates) : AuditLogger :=
  with_log l (with_steps (runLog l) (update_first (steps (runLog l)) sid u)).

Definition step_status_eqb (a b : StepStatus) : bool :=
  match a, b with
  | st_pending, st_pending | st_running, st_running
  | st_completed, st_completed | st_failed, st_failed
  | st_skipped, st_skipped => true
  | _, _ => false
  end.

Definition count_steps (p : StepLog -> bool) (ss : list StepLog) : nat :=
  List.length (List.filter p ss).

Definition verification_passed (s : StepLog) : bool :=
  match sl_verification s with
  | Some v => passed v
  | None => false
  end.

Definition verification_failed (s : StepLog) : bool :=
  match sl_verification s with
  | Some v => negb (passed v)
  | None => false
  end.

Section Clock.

(** [new Date(iso).getTime()] and [Date.now()]. *)
Variable parseTime : string -> Z.
Variable nowMs : Z.

Definition buildSummary (r : RunLog) : RunSummary :=
  let startTime := parseTime (startedAt r) in
  let endTime :=
    match completedAt r with
    | Some (String c rest) => parseTime (String c rest)
    | _ => nowMs
    end in
  {| stepsCompleted :=
       count_steps (fun s => step_status_eqb (sl_status s) st_completed) (steps r);
     stepsFailed :=
       count_steps (fun s => step_status_eqb (sl_status s) st_failed) (steps r);
     stepsSkipped :=
       count_steps (fun s => step_status_eqb (sl_status s) st_skipped) (steps r);
     filesChanged := List.length (remove_dups (List.map de_file (diffs r)));
     durationMs := (endTime - startTime)%Z;
     verificationsPassed := count_steps verification_passed (steps r);
     verificationsFailed := count_steps verification_failed (steps r) |}.

Inductive FinalStatus : Type := fin_completed | fin_failed | fin_aborted.

Definition final_status (s : FinalStatus) : RunStatus :=
  match s with
  | fin_completed => run_completed
  | fin_failed => run_failed
  | fin_aborted => run_aborted
  end.

(** [complete(status)] at the time [nowIso]: the logger afterwards and
    the files written. *)
Definition complete (l : AuditLogger) (s : FinalStatus) (nowIso : string)
  : AuditLogger * list FileWrite :=
  let r := runLog l in
  let r1 :=
    {| runId := runId r; planName := planName r; startedAt := startedAt r;
       completedAt := Some nowIso; status := final_status s; events := events r;
       steps := steps r; diffs := diffs r; summary := summary r |} in
  let r2 :=
    {| runId := runId r1; planName := planName r1; startedAt := startedAt r1;
       completedAt := completedAt r1; status := status r1; events := events r1;
       steps := steps r1; diffs := diffs r1; summary := Some (buildSummary r1) |} in
  (with_log l r2, save (with_log l r2)).

End Clock.

End AuditLogOps.

(** ** More of the tool registry: registration and listing *)

Module RegistryOps.

Record ToolMetadata : Type := {
  md_name : string;
  md_category : string;
  md_description : string;
  md_permissions : list string
}.

Section Ops.

Variable W : Type.

(** [register]: the error thrown, or the registry afterwards. *)
Definition register (reg : Tools.ToolRegistry W) (tool : Tools.ToolDefinition W)
  : string + Tools.ToolRegistry W :=
  if JsMap.has reg (Tools.name tool)
  then inl ("Tool " +:+ Policy.quoted (Tools.name tool) +:+ " is already registered")
  else inr (JsMap.set reg (Tools.name tool) tool).

Definition has (reg : Tools.ToolRegistry W) (toolName : string) : bool :=
  JsMap.has reg toolName.

(** [list()]. *)
Definition listTools (reg : Tools.ToolRegistry W) : list ToolMetadata :=
  List.map (fun kv => {| md_name := Tools.name (snd kv);
                         md_category := Tools.category (snd kv);
                         md_description := Tools.description (snd kv);
                         md_permissions := Tools.permissions (snd kv) |}) reg.

Definition listByCategory (reg : Tools.ToolRegistry W) (cat : string)
  : list ToolMetadata :=
  List.filter (fun t => String.eqb (md_category t) cat) (listTools reg).

(** Registering a list of tools in order, stopping at the first
    error. *)
Fixpoint register_all (reg : Tools.ToolRegistry W) (tools : list (Tools.ToolDefinition W))
  : string + Tools.ToolRegistry W :=
  match tools with
  | [] => inr reg
  | t :: rest =>
      match register reg t with
      | inl msg => inl msg
      | inr reg' => register_all reg' rest
      end
  end.

End Ops.

End RegistryOps.

(** ** Scope checks (policy/scope.ts) *)

Module Scope.

Record ScopeCheckResult : Type := {
  inScope : bool;
  violation : option string
}.

(** [s.endsWith(suffix)]. *)
Fixpoint endsWith (suffix s : string) : bool :=
  String.eqb suffix s ||
  match s with
  | EmptyString => false
  | String _ r => endsWith suffix r
  end.

Definition domain_matches (domain d : string) : bool :=
  String.eqb domain d || endsWith ("." +:+ d) domain.

Definition checkDomainScope (domainAllowlist : list string) (domain : string)
  : ScopeCheckResult :=
  match domainAllowlist with
  | [] => {| inScope := true; violation := None |}
  | _ =>
      if existsb (domain_matches domain) domainAllowlist
      then {| inScope := true; violation := None |}
      else {| inScope := false;
              violation := Some ("Domain " +:+ Policy.quoted domain
                                 +:+ " not in domain allowlist") |}
  end.

End Scope.

(** ** The execution engine (engine/executor.ts) *)

Module Engine.

(** [s.split(' ')]. *)
Fixpoint split_spaces_from (cur : string -> string) (s : string) : list string :=
  match s with
  | EmptyString => [cur EmptyString]
  | String c r =>
      if Ascii.eqb c " " then cur EmptyString :: split_spaces_from (fun x => x) r
      else split_spaces_from (fun x => cur (String c x)) r
  end.

Definition split_spaces (s : string) : list string := split_spaces_from (fun x => x) s.

(** The truth value of a JSON value in a condition. *)
Definition json_truthy (v : json) : bool :=
  match v with
  | JNull => false
  | JBool b => b
  | JNum n => negb (Z.eqb n 0)
  | JStr s => negb (String.eqb s EmptyString)
  | JArr _ => true
  | JObj _ => true
  end.

(** [obj[key]] of an object with distinct keys. *)
Fixpoint field (fields : list (string * json)) (key : string) : option json :=
  match fields with
  | [] => None
  | (k, v) :: rest => if String.eqb k key then Some v else field rest key
  end.

(** [step.args?.['path']] when it is truthy. *)
Definition path_arg (args : option json) : option json :=
  match args with
  | Some (JObj fields) =>
      match field fields "path" with
      | Some v => if json_truthy v then Some v else None
      | None => None
      end
  | _ => None
  end.

Section Executor.

Variable W : Type.

(** What the engine reaches outside the runtime: the files as the
    rollback tracker reads them, [path.resolve], [createPatch], the
    message of the [TypeError] that [path.resolve] throws for a value
    that is no string, the model, the workflow loader, the commands of
    validators and verifications ([execFile]: the standard output, or
    the message of the error thrown), and the outcome of the
    file-exists block of [verify]. *)
Variable disk : W -> Rollback.FS.
Variable resolve : string -> string -> string.
Variable createPatch : string -> string -> string -> string.
Variable resolveTypeError : json -> string.
Variable chat : list Skills.LLMMessage -> list Skills.LLMToolDefinition -> string
                -> Skills.ChatOutcome.
Variable importWorkflow : string -> string + (json -> Skills.Workflow).
Variable execValidator : Skills.ValidatorConfig -> string -> W -> W * (bool * string).
Variable execFile : string -> list string -> string -> W -> W * (string + string).
Variable fileCheck : string -> string -> W -> bool.

Variable registry : Tools.ToolRegistry W.
Variable skillLoader : JsMap.t Skills.LoadedSkill.

(** The engine with the policy engine it shares with the skill runner
    and its rollback tracker. *)
Record EngineState : Type := {
  world : W;
  policy : Policy.PolicyEngine;
  rollback : Rollback.RollbackTracker;
  emitted : list Policy.Emission
}.

Definition step_failure (msg : option string) : Plans.StepResult :=
  {| Plans.success := false; Plans.output := None; Plans.error := msg;
     Plans.durationMs := 0 |}.

Definition tool_name (step : Plans.PlanStep) : string :=
  default EmptyString (Plans.tool step).

Definition step_action (step : Plans.PlanStep) (tool : Tools.ToolDefinition W)
  : Policy.ActionDescriptor :=
  {| Policy.tool := tool_name step;
     Policy.operation := tool_name step;
     Policy.description :=
       "Plan step " +:+ Policy.quoted (Plans.name step) +:+ " calling " +:+ tool_name step;
     Policy.permissions := Tools.permissions tool;
     Policy.args := Plans.args step;
     Policy.riskLevel := Policy.medium |}.

Definition with_emitted (st : EngineState) (e : Policy.PolicyEngine)
    (evs : list Policy.Emission) : EngineState :=
  {| world := world st; policy := e; rollback := rollback st;
     emitted := emitted st ++ evs |}.

(** The part of [executeToolStep] after the permission checks: the
    capture before, the dispatch, the [tool_call] event and the
    capture after. A thrown error is [inl] of its message. A step
    without arguments hands [undefined] to the registry, here
    [JNull]. *)
Definition run_tool (step : Plans.PlanStep) (ctx : Policy.ExecutionContext)
    (st : EngineState) : EngineState * (string + Plans.StepResult) :=
  let tracked := Str.startsWith "fs." (tool_name step) in
  let target := if tracked then path_arg (Plans.args step) else None in
  match target with
  | Some (JStr p) =>
      let rb1 :=
        Rollback.captureBeforeState resolve (rollback st) (disk (world st))
          (Plans.id step) p (Policy.cwd ctx) in
      let '(w', result) :=
        Tools.registry_execute registry (Policy.enabledTools ctx) (tool_name step)
          (default JNull (Plans.args step)) (world st) in
      let rb2 :=
        if Tools.success result
        then Rollback.captureAfterState resolve createPatch rb1 (disk w')
               (Plans.id step) p (Policy.cwd ctx)
        else rb1 in
      ({| world := w'; policy := policy st; rollback := rb2;
          emitted := emitted st
            ++ [(AuditLog.TOOL_CALL,
                 JObj ([("stepId", JStr (Plans.id step));
                        ("tool", JStr (tool_name step))]
                       ++ opt_field "input" id (Plans.args step)
                       ++ [("success", JBool (Tools.success result))]))] |},
       inr {| Plans.success := Tools.success result;
              Plans.output := Tools.data result;
              Plans.error := Tools.error result;
              Plans.durationMs := Tools.durationMs result |})
  | Some other => (st, inl (resolveTypeError other))
  | None =>
      let '(w', result) :=
        Tools.registry_execute registry (Policy.enabledTools ctx) (tool_name step)
          (default JNull (Plans.args step)) (world st) in
      ({| world := w'; policy := policy st; rollback := rollback st;
          emitted := emitted st
            ++ [(AuditLog.TOOL_CALL,
                 JObj ([("stepId", JStr (Plans.id step));
                        ("tool", JStr (tool_name step))]
                       ++ opt_field "input" id (Plans.args step)
                       ++ [("success", JBool (Tools.success result))]))] |},
       inr {| Plans.success := Tools.success result;
              Plans.output := Tools.data result;
              Plans.error := Tools.error result;
              Plans.durationMs := Tools.durationMs result |})
  end.

Definition executeToolStep (step : Plans.PlanStep) (ctx : Policy.ExecutionContext)
    (st : EngineState) : EngineState * (string + Plans.StepResult) :=
  match Tools.get registry (tool_name step) with
  | None =>
      (st, inr (step_failure
                  (Some ("Tool " +:+ Policy.quoted (tool_name step) +:+ " not found"))))
  | Some tool =>
      let act := step_action step tool in
      let '(permResult, evs) := Policy.checkPermission (policy st) act ctx in
      let st1 := with_emitted st (policy st) evs in
      if negb (Policy.allowed permResult) && Policy.requiresApproval permResult then
        let '(approved, e', evs') := Policy.requestApproval (policy st1) act ctx in
        let st2 := with_emitted st1 e' evs' in
        if approved then run_tool step ctx st2
        else (st2, inr (step_failure (Some "Permission denied by user")))
      else if negb (Policy.allowed permResult) then
        (st1, inr (step_failure (Policy.reason permResult)))
      else run_tool step ctx st1
  end.

(** [step.args ?? {}] as the inputs of a skill. *)
Definition skill_inputs (args : option json) : list (string * json) :=
  match args with
  | Some (JObj fields) => fields
  | _ => []
  end.

Definition executeSkillStep (step : Plans.PlanStep) (ctx : Policy.ExecutionContext)
    (st : EngineState) : EngineState * (string + Plans.StepResult) :=
  match JsMap.get skillLoader (default EmptyString (Plans.skill step)) with
  | None =>
      (st, inr (step_failure
                  (Some ("Skill "
                         +:+ Policy.quoted (default EmptyString (Plans.skill step))
                         +:+ " not found"))))
  | Some skill =>
      let '(rs, result) :=
        Skills.run W chat importWorkflow execValidator registry skill
          (skill_inputs (Plans.args step)) ctx (world st) (policy st) in
      ({| world := Skills.world W rs; policy := Skills.policy W rs;
          rollback := rollback st;
          emitted := emitted st ++ Skills.emitted W rs |},
       inr {| Plans.success := Skills.success result;
              Plans.output := Skills.output result;
              Plans.error := Skills.error result;
              Plans.durationMs := 0 |})
  end.

(** [executeStep]; [elapsed] is what [Date.now() - start] gives at the
    end. *)
Definition executeStep (elapsed : Z) (step : Plans.PlanStep)
    (ctx : Policy.ExecutionContext) (st : EngineState)
  : EngineState * Plans.StepResult :=
  let '(st', outcome) :=
    if Skills.truthy (Plans.skill step) then executeSkillStep step ctx st
    else if Skills.truthy (Plans.tool step) then executeToolStep step ctx st
    else (st, inr (step_failure
                     (Some ("Step " +:+ Policy.quoted (Plans.id step)
                            +:+ " has neither skill nor tool defined")))) in
  match outcome with
  | inr result =>
      (st', {| Plans.success := Plans.success result;
               Plans.output := Plans.output result;
               Plans.error := Plans.error result;
               Plans.durationMs := elapsed |})
  | inl msg =>
      (st', {| Plans.success := false; Plans.output := None;
               Plans.error := Some msg; Plans.durationMs := elapsed |})
  end.

(** The command block of [verify]: the world afterwards, whether the
    block kept [passed], and the lines it pushed. *)
Definition verify_command (v : Plans.VerifyConfig) (cwd : string) (w : W)
  : W * (bool * list string) :=
  match Plans.command v with
  | Some (String c rest) =>
      let parts := split_spaces (String c rest) in
      let '(w', outcome) := execFile (hd EmptyString parts) (tl parts) cwd w in
      match outcome with
      | inr output =>
          let code_line :=
            match Plans.exitCode v with
            | Some code => ["Command exited with code 0 (expected: " +:+ pretty code +:+ ")"]
            | None => []
            end in
          match Plans.contains v with
          | Some (String d more) =>
              if negb (Str.includes (String d more) output)
              then (w', (false,
                         code_line
                         ++ ["Output does not contain " +:+ Policy.quoted (String d more);
                             "Command executed successfully"]))
              else (w', (true,
                         code_line
                         ++ ["Output contains " +:+ Policy.quoted (String d more);
                             "Command executed successfully"]))
          | _ => (w', (true, code_line ++ ["Command executed successfully"]))
          end
      | inl msg => (w', (false, ["Command failed: " +:+ msg]))
      end
  | _ => (w, (true, []))
  end.

Definition verify_file (v : Plans.VerifyConfig) (cwd : string) (w : W)
  : bool * list string :=
  match Plans.fileExists v with
  | Some (String c rest) =>
      if fileCheck (String c rest) cwd w
      then (true, ["File exists: " +:+ String c rest])
      else (false, ["File not found: " +:+ String c rest])
  | _ => (true, [])
  end.

Definition verify (v : Plans.VerifyConfig) (ctx : Policy.ExecutionContext)
    (st : EngineState) : EngineState * AuditLog.Verification :=
  let '(w', (ok1, lines1)) := verify_command v (Policy.cwd ctx) (world st) in
  let '(ok2, lines2) := verify_file v (Policy.cwd ctx) w' in
  ({| world := w'; policy := policy st; rollback := rollback st;
      emitted := emitted st |},
   {| AuditLog.passed := ok1 && ok2;
      AuditLog.details := Str.join Json.nl (lines1 ++ lines2) |}).

(** A plan run on this engine. *)
Definition runPlan (elapsed : Z) (plan : Plans.Plan) (ctx : Policy.ExecutionContext)
    (rid : string) (st : EngineState) : Plans.LoopState EngineState :=
  Plans.run EngineState (fun step => executeStep elapsed step ctx)
    (fun v => verify v ctx) plan rid st.

End Executor.

End Engine.

(** ** Concrete runs used below *)

Module Scenarios.

(** *** Policy *)



Definition deny_all : Policy.PolicyConfig :=
  {| Policy.defaultApproval := Policy.deny;
     Policy.rules := [ {| Policy.permission := "secrets"; Policy.action := Policy.deny |};
                       {| Policy.permission := "exec"; Policy.action := Policy.confirm |} ] |}.

Definition engine_deny_all : Policy.PolicyEngine :=
  {| Policy.config := deny_all; Policy.sessionApprovals := ∅ |}.


Definition action_of (toolName : string) (perms : list string) : Policy.ActionDescriptor :=
  {| Policy.tool := toolName; Policy.operation := toolName;
     Policy.description := "call " +:+ toolName;
     Policy.permissions := perms; Policy.args := None;
     Policy.riskLevel := Policy.high |}.

(** *** Rollback *)

Definition capture := Rollback.captureBeforeState Rollback.resolve_plain.
Definition capture_after :=
  Rollback.captureAfterState Rollback.resolve_plain Rollback.patch_plain.

(** The directory [/w] with the file [a.txt] in it. *)
Definition disk_with (bytes : string) : Rollback.FS :=
  <[ "/w/a.txt" := Rollback.File bytes ]> {[ "/w" := Rollback.Dir ]}.


Definition disk_old : Rollback.FS := disk_with "old".
Definition disk_new : Rollback.FS := disk_with "new".

(** The pre-state of a step is captured, the step writes the file, and
    the capture runs again for the same step: what a retried
    [executeToolStep] does. *)
Definition captured_twice : Rollback.RollbackTracker :=
  capture (capture Rollback.empty disk_old "s1" "a.txt" "/w") disk_new "s1" "a.txt" "/w".

(** *** Skills *)

(** The world is the journal of what the tools did. *)
Definition Journal : Type := list string.

Definition journal_tool (toolName : string) (perms : list string)
  : Tools.ToolDefinition Journal :=
  {| Tools.name := toolName; Tools.category := "filesystem";
     Tools.description := "journalling " +:+ toolName;
     Tools.inputSchema := JObj [("type", JStr "object")];
     Tools.permissions := perms;
     Tools.safeParse := fun input => inr input;
     Tools.execute := fun input w =>
       (w ++ [toolName +:+ " " +:+ stringify_compact input],
        {| Tools.success := true; Tools.data := Some (JStr "ok");
           Tools.error := None; Tools.durationMs := 1; Tools.metadata := None |}) |}.

Definition registry : Tools.ToolRegistry Journal :=
  JsMap.set
    (JsMap.set [] "fs.read" (journal_tool "fs.read" ["filesystem.read"]))
    "fs.write" (journal_tool "fs.write" ["filesystem.write"]).

Definition allow_fs : Policy.PolicyEngine :=
  {| Policy.config :=
       {| Policy.defaultApproval := Policy.confirm;
          Policy.rules := [ {| Policy.permission := "filesystem.read";
                               Policy.action := Policy.allow |};
                            {| Policy.permission := "filesystem.write";
                               Policy.action := Policy.allow |} ] |};
     Policy.sessionApprovals := ∅ |}.

Definition ctx_plain : Policy.ExecutionContext :=
  {| Policy.cwd := "/w"; Policy.autonomous := false;
     Policy.approvedPermissions := ∅;
     Policy.onApproval := None; Policy.enabledTools := ["fs.*"] |}.

(** A skill that declares [fs.read] only. *)
Definition reader_manifest : Skills.SkillManifest :=
  {| Skills.sk_name := "summarise"; Skills.sk_version := "1.0.0";
     Skills.sk_entrypoint := "prompt.md"; Skills.sk_tools := ["fs.read"];
     Skills.sk_validators := None |}.

Definition reader_skill : Skills.LoadedSkill :=
  {| Skills.manifest := reader_manifest;
     Skills.promptContent := Some "Summarise {{file}}";
     Skills.workflowPath := None |}.

Definition reader_workflow_skill : Skills.LoadedSkill :=
  {| Skills.manifest := reader_manifest;
     Skills.promptContent := None;
     Skills.workflowPath := Some "/skills/summarise/workflow.js" |}.

Definition write_args : json :=
  JObj [("path", JStr "/w/out.txt"); ("content", JStr "x")].

Definition write_call : Skills.LLMToolCall :=
  {| Skills.tc_id := "call-1"; Skills.tc_name := "fs.write"; Skills.tc_args := write_args |}.

Definition read_call : Skills.LLMToolCall :=
  {| Skills.tc_id := "call-r"; Skills.tc_name := "fs.read";
     Skills.tc_args := JObj [("path", JStr "/w/in.txt")] |}.

Definition is_tool_message (m : Skills.LLMMessage) : bool :=
  match Skills.role m with
  | Skills.tool_role => true
  | _ => false
  end.

(** A model that asks for [fs.write] once and answers when it has a
    tool result. *)
Definition chat_writes_once (msgs : list Skills.LLMMessage)
    (tools : list Skills.LLMToolDefinition) (skillName : string) : Skills.ChatOutcome :=
  if existsb is_tool_message msgs
  then Skills.ChatResponse "done" None
  else Skills.ChatResponse "writing" (Some [write_call]).

(** A model that asks for [fs.read] whatever it is sent. *)
Definition chat_never_done (msgs : list Skills.LLMMessage)
    (tools : list Skills.LLMToolDefinition) (skillName : string) : Skills.ChatOutcome :=
  Skills.ChatResponse "reading" (Some [read_call]).

Definition no_workflow (path : string) : string + (json -> Skills.Workflow) :=
  inl ("Cannot find module " +:+ path).

(** A workflow that calls [fs.write] and returns what it got. *)
Definition workflow_writes (path : string) : string + (json -> Skills.Workflow) :=
  inr (fun _ => Skills.WfCall "fs.write" write_args
                  (fun r => Skills.WfReturn (Tools.result_json r))).

Definition validator_passes (v : Skills.ValidatorConfig) (cwd : string) (w : Journal)
  : Journal * (bool * string) := (w, (true, EmptyString)).

Definition file_input : list (string * json) := [("file", JStr "/w/in.txt")].

Definition prompt_run_writes :=
  Skills.run Journal chat_writes_once no_workflow validator_passes registry
    reader_skill file_input ctx_plain [] allow_fs.

Definition workflow_run_writes :=
  Skills.run Journal chat_never_done workflow_writes validator_passes registry
    reader_workflow_skill file_input ctx_plain [] allow_fs.

Definition prompt_run_never_done :=
  Skills.run Journal chat_never_done no_workflow validator_passes registry
    reader_skill file_input ctx_plain [] allow_fs.

(** *** Plans *)

Definition plain_step (sid : string) : Plans.PlanStep :=
  {| Plans.id := sid; Plans.name := "step " +:+ sid; Plans.skill := None;
     Plans.tool := Some "cmd.run"; Plans.args := None; Plans.verify := None;
     Plans.onFailure := None; Plans.retries := None; Plans.dependsOn := None |}.

Definition check_output : Plans.VerifyConfig :=
  {| Plans.command := Some "cat out.txt"; Plans.fileExists := None;
     Plans.exitCode := None; Plans.contains := Some "bar" |}.

(** One step with a verification clause and [onFailure: retry]. *)
Definition retried_step : Plans.PlanStep :=
  {| Plans.id := "build"; Plans.name := "Build"; Plans.skill := None;
     Plans.tool := Some "cmd.run"; Plans.args := None;
     Plans.verify := Some check_output;
     Plans.onFailure := Some Plans.retry; Plans.retries := Some 1%Z;
     Plans.dependsOn := None |}.

Definition retry_plan : Plans.Plan :=
  {| Plans.planName := "retry-plan"; Plans.planSteps := [retried_step] |}.

Definition ok_result : Plans.StepResult :=
  {| Plans.success := true; Plans.output := Some (JStr "foo");
     Plans.error := None; Plans.durationMs := 5 |}.

Definition failed_result : Plans.StepResult :=
  {| Plans.success := false; Plans.output := None;
     Plans.error := Some "exit code 1"; Plans.durationMs := 5 |}.

(** An engine whose tool always succeeds and whose verification never
    passes. *)
Definition exec_ok (step : Plans.PlanStep) (w : unit) : unit * Plans.StepResult :=
  (w, ok_result).

Definition verify_fails (v : Plans.VerifyConfig) (w : unit)
  : unit * AuditLog.Verification :=
  (w, {| AuditLog.passed := false;
         AuditLog.details := "Output does not contain " +:+ Policy.quoted "bar" |}).

Definition retry_run := Plans.run unit exec_ok verify_fails retry_plan "run-1" tt.

(** Steps A, B (depends on A), C (depends on B); A fails and is
    skipped over. *)
Definition step_A : Plans.PlanStep :=
  {| Plans.id := "A"; Plans.name := "first"; Plans.skill := None;
     Plans.tool := Some "cmd.run"; Plans.args := None; Plans.verify := None;
     Plans.onFailure := Some Plans.skip; Plans.retries := Some 0%Z;
     Plans.dependsOn := None |}.

Definition step_B : Plans.PlanStep :=
  {| Plans.id := "B"; Plans.name := "second"; Plans.skill := None;
     Plans.tool := Some "cmd.run"; Plans.args := None; Plans.verify := None;
     Plans.onFailure := Some Plans.abort; Plans.retries := Some 0%Z;
     Plans.dependsOn := Some ["A"] |}.

Definition step_C : Plans.PlanStep :=
  {| Plans.id := "C"; Plans.name := "third"; Plans.skill := None;
     Plans.tool := Some "cmd.run"; Plans.args := None; Plans.verify := None;
     Plans.onFailure := Some Plans.abort; Plans.retries := Some 0%Z;
     Plans.dependsOn := Some ["B"] |}.

Definition chain_plan : Plans.Plan :=
  {| Plans.planName := "chain"; Plans.planSteps := [step_A; step_B; step_C] |}.

Definition exec_A_fails (step : Plans.PlanStep) (w : unit) : unit * Plans.StepResult :=
  (w, if String.eqb (Plans.id step) "A" then failed_result else ok_result).

Definition verify_passes (v : Plans.VerifyConfig) (w : unit)
  : unit * AuditLog.Verification :=
  (w, {| AuditLog.passed := true; AuditLog.details := "Command executed successfully" |}).

Definition chain_run := Plans.run unit exec_A_fails verify_passes chain_plan "run-2" tt.

(** The same chain where A's execution succeeds and the verification
    of its clause does not pass. *)
Definition step_A_verified : Plans.PlanStep :=
  {| Plans.id := "A"; Plans.name := "first"; Plans.skill := None;
     Plans.tool := Some "cmd.run"; Plans.args := None;
     Plans.verify := Some check_output;
     Plans.onFailure := Some Plans.skip; Plans.retries := Some 0%Z;
     Plans.dependsOn := None |}.

Definition chain_run_unverified :=
  Plans.run unit exec_ok verify_fails
    {| Plans.planName := "chain"; Plans.planSteps := [step_A_verified; step_B; step_C] |}
    "run-3" tt.

End Scenarios.

(** ** Further concrete inputs *)

Module MoreScenarios.

(** A context whose approval handler says yes. *)
Definition ctx_approver : Policy.ExecutionContext :=
  {| Policy.cwd := "/w"; Policy.autonomous := false;
     Policy.approvedPermissions := ∅;
     Policy.onApproval := Some (fun _ => true); Policy.enabledTools := ["fs.*"] |}.

Definition risky_action : Policy.ActionDescriptor :=
  Scenarios.action_of "cmd.run" ["exec"; "secrets"].

Definition secrets_action : Policy.ActionDescriptor :=
  Scenarios.action_of "any.tool" ["secrets"].

Definition git_status_tool : Tools.ToolDefinition Scenarios.Journal :=
  Scenarios.journal_tool "git.status" ["filesystem.read"].

(** The same file captured under two steps, the second after the file
    changed. *)
Definition captured_once : Rollback.RollbackTracker :=
  Scenarios.capture Rollback.empty Scenarios.disk_old "s1" "a.txt" "/w".

Definition captured_two_steps : Rollback.RollbackTracker :=
  Scenarios.capture captured_once Scenarios.disk_new "s2" "a.txt" "/w".

(** The capture of the working directory itself. *)
Definition captured_directory : Rollback.RollbackTracker :=
  Scenarios.capture Rollback.empty Scenarios.disk_new "s1" "/w" "/w".

(** After the first step, a second step captures a path in a
    directory that does not exist. *)
Definition captured_missing_directory : Rollback.RollbackTracker :=
  Scenarios.capture captured_once Scenarios.disk_new "s2" "missing/b.txt" "/w".

(** The disk as the journal implies it: the file is rewritten by the
    first tool that runs. *)
Definition journal_disk (w : Scenarios.Journal) : Rollback.FS :=
  match w with
  | [] => Scenarios.disk_old
  | _ => Scenarios.disk_new
  end.

Definition type_error (v : json) : string :=
  "The " +:+ Policy.quoted "paths[1]" +:+ " argument must be of type string".

Definition engine_step :=
  Engine.executeStep Scenarios.Journal journal_disk Rollback.resolve_plain
    Rollback.patch_plain type_error Scenarios.chat_never_done Scenarios.no_workflow
    Scenarios.validator_passes Scenarios.registry [].

Definition fs_write_step : Plans.PlanStep :=
  {| Plans.id := "w1"; Plans.name := "write"; Plans.skill := None;
     Plans.tool := Some "fs.write";
     Plans.args := Some (JObj [("path", JStr "a.txt"); ("content", JStr "new")]);
     Plans.verify := None; Plans.onFailure := None; Plans.retries := None;
     Plans.dependsOn := None |}.

Definition fs_write_tool : Tools.ToolDefinition Scenarios.Journal :=
  Scenarios.journal_tool "fs.write" ["filesystem.write"].

Definition engine_allowing : Engine.EngineState Scenarios.Journal :=
  {| Engine.world := []; Engine.policy := Scenarios.allow_fs;
     Engine.rollback := Rollback.empty; Engine.emitted := [] |}.

Definition engine_denying : Engine.EngineState Scenarios.Journal :=
  {| Engine.world := []; Engine.policy := Scenarios.engine_deny_all;
     Engine.rollback := Rollback.empty; Engine.emitted := [] |}.

Definition two_step_plan : Plans.Plan :=
  {| Plans.planName := "two"; Plans.planSteps := [Scenarios.plain_step "A"; Scenarios.step_B] |}.

(** A logger with one step logged, and the update the plan runner
    sends when the step has completed. *)
Definition logged_step : AuditLog.StepLog :=
  {| AuditLog.sl_stepId := "s1"; AuditLog.sl_skill := None;
     AuditLog.sl_tool := Some "fs.write";
     AuditLog.sl_startedAt := "2026-01-01T00:00:00.000Z";
     AuditLog.sl_completedAt := None; AuditLog.sl_status := AuditLog.st_running;
     AuditLog.sl_input := None; AuditLog.sl_output := None;
     AuditLog.sl_error := None; AuditLog.sl_verification := None |}.

Definition logger_with_step : AuditLog.AuditLogger :=
  AuditLog.addStep
    (AuditLog.new_logger ".agent/runs" "run-1" None "2026-01-01T00:00:00.000Z")
    logged_step.

Definition completion_update : AuditLogOps.StepUpdates :=
  {| AuditLogOps.up_stepId := None; AuditLogOps.up_skill := None;
     AuditLogOps.up_tool := None; AuditLogOps.up_startedAt := None;
     AuditLogOps.up_completedAt := Some (Some "2026-01-01T00:00:02.000Z");
     AuditLogOps.up_status := Some AuditLog.st_completed;
     AuditLogOps.up_input := None;
     AuditLogOps.up_output := Some (Some (JStr "ok"));
     AuditLogOps.up_error := Some None;
     AuditLogOps.up_verification := Some None |}.

(** A skill run in progress under a policy that denies by default. *)
Definition denied_state : Skills.RunState Scenarios.Journal :=
  {| Skills.world := []; Skills.policy := Scenarios.engine_deny_all;
     Skills.messages := []; Skills.toolCallsOut := []; Skills.emitted := [];
     Skills.llmCalls := 0 |}.

(** A verification command that exits with an error, and a file check
    that finds nothing. *)
Definition exec_fails (file : string) (args : list string) (cwd : string)
    (w : Scenarios.Journal) : Scenarios.Journal * (string + string) :=
  (w, inl "Command failed with exit code 1").

Definition file_missing (path cwd : string) (w : Scenarios.Journal) : bool := false.

End MoreScenarios.

(** * Properties *)

(** ** Insertion-ordered maps *)

Module JsMapFacts.

Lemma get_set_eq {V} (m : JsMap.t V) k v : JsMap.get (JsMap.set m k v) k = Some v.
Proof.
  induction m as [|[k' v'] m IH]; simpl.
  - by rewrite String.eqb_refl.
  - destruct (String.eqb k' k) eqn:E; simpl; rewrite E; [done | exact IH].
Qed.

Lemma get_set_ne {V} (m : JsMap.t V) k k' v :
  k <> k' -> JsMap.get (JsMap.set m k v) k' = JsMap.get m k'.
Proof.
  intros Hne. induction m as [|[k0 v0] m IH]; simpl.
  - apply String.eqb_neq in Hne. by rewrite Hne.
  - destruct (String.eqb k0 k) eqn:E; simpl.
    + apply String.eqb_eq in E. subst k0.
      apply String.eqb_neq in Hne. by rewrite Hne.
    + by rewrite IH.
Qed.

Lemma get_None_keys {V} (m : JsMap.t V) k :
  JsMap.get m k = None <-> ~ In k (JsMap.keys m).
Proof.
  induction m as [|[k' v'] m IH]; simpl; [tauto |].
  destruct (String.eqb k' k) eqn:E.
  - apply String.eqb_eq in E. split; [discriminate | tauto].
  - apply String.eqb_neq in E. rewrite IH. tauto.
Qed.

Lemma get_Some_keys {V} (m : JsMap.t V) k v :
  JsMap.get m k = Some v -> In k (JsMap.keys m).
Proof.
  induction m as [|[k' v'] m IH]; simpl; [discriminate |].
  destruct (String.eqb k' k) eqn:E.
  - apply String.eqb_eq in E. auto.
  - auto.
Qed.

Lemma keys_set_in {V} (m : JsMap.t V) k v k' :
  In k' (JsMap.keys (JsMap.set m k v)) <-> k' = k \/ In k' (JsMap.keys m).
Proof.
  induction m as [|[k0 v0] m IH]; simpl.
  - intuition.
  - destruct (String.eqb k0 k) eqn:E; simpl.
    + apply String.eqb_eq in E. subst. intuition.
    + rewrite IH. intuition.
Qed.

Lemma wf_nil {V} : JsMap.wf (@nil (string * V)).
Proof. constructor. Qed.

Lemma wf_set {V} (m : JsMap.t V) k v : JsMap.wf m -> JsMap.wf (JsMap.set m k v).
Proof.
  unfold JsMap.wf. induction m as [|[k0 v0] m IH]; simpl; intros Hnd.
  - apply NoDup_cons. split; [apply not_elem_of_nil | constructor].
  - destruct (String.eqb k0 k) eqn:E; simpl; [exact Hnd |].
    apply String.eqb_neq in E.
    apply NoDup_cons in Hnd as [Hnotin Hnd].
    apply NoDup_cons. split; [| by apply IH].
    rewrite list_elem_of_In. rewrite list_elem_of_In in Hnotin.
    rewrite keys_set_in. intros [->|Hin]; [done | by apply Hnotin].
Qed.

End JsMapFacts.

(** ** Text files *)

Module Utf8Facts.

Import Utf8.



End Utf8Facts.

(** ** Rollback tracker *)

Module RollbackFacts.

Import Rollback.

(** A write that goes through changes no answer of [writable]: it makes
    no directory and removes none. *)
Lemma writable_insert (fs : FS) p content q :
  writable fs p = true ->
  writable (<[p := File content]> fs) q = writable fs q.
Proof.
  unfold writable. intros Hp.
  assert (Hnodir : forall k, k = p ->
            (<[p := File content]> fs) !! k = Some (File content)
            /\ fs !! k <> Some Dir).
  { intros k ->. split; [apply lookup_insert_eq |].
    intros Hd. rewrite Hd in Hp. discriminate. }
  assert (Hother : forall k, k <> p -> (<[p := File content]> fs) !! k = fs !! k)
    by (intros k Hk; by apply lookup_insert_ne).
  destruct (decide (q = p)) as [Hq | Hq];
    destruct (decide (dirname q = p)) as [Hd | Hd].
  - destruct (Hnodir q Hq) as [-> Hq']. destruct (Hnodir _ Hd) as [-> Hd'].
    destruct (fs !! q) as [[|]|]; try done;
      destruct (fs !! dirname q) as [[|]|]; done.
  - destruct (Hnodir q Hq) as [-> Hq']. rewrite (Hother _ Hd).
    destruct (fs !! q) as [[|]|]; done.
  - rewrite (Hother _ Hq). destruct (Hnodir _ Hd) as [-> Hd'].
    destruct (fs !! q) as [[|]|]; try done;
      destruct (fs !! dirname q) as [[|]|]; done.
  - by rewrite (Hother _ Hq), (Hother _ Hd).
Qed.

Lemma restore_entries_writable entries (fs : FS) q :
  writable (fst (restore_entries entries fs)) q = writable fs q.
Proof.
  revert fs. induction entries as [|[k v] entries IH]; intros fs; [done |].
  cbn [restore_entries]. unfold writeFile.
  destruct (writable fs k) eqn:Hk; [| done].
  specialize (IH (<[k := File v]> fs)).
  destruct (restore_entries entries (<[k := File v]> fs)) as [fs' restored].
  cbn [fst] in *. rewrite IH. by apply writable_insert.
Qed.

(** The list that the loop returns names the entries in their order. *)
Lemma restore_entries_restored entries (fs : FS) restored :
  snd (restore_entries entries fs) = Some restored -> restored = JsMap.keys entries.
Proof.
  revert fs restored.
  induction entries as [|[k v] entries IH]; intros fs restored; cbn [restore_entries].
  - by intros [= <-].
  - unfold writeFile. destruct (writable fs k); [| discriminate].
    specialize (IH (<[k := File v]> fs)).
    destruct (restore_entries entries (<[k := File v]> fs)) as [fs' [r|]];
      cbn [snd option_map] in *; [| discriminate].
    intros [= <-]. by rewrite (IH r eq_refl).
Qed.

(** The loop returns when every entry can be written. *)
Lemma restore_entries_returns entries (fs : FS) :
  (forall k, In k (JsMap.keys entries) -> writable fs k = true) ->
  snd (restore_entries entries fs) = Some (JsMap.keys entries).
Proof.
  revert fs. induction entries as [|[k v] entries IH]; intros fs Hall; [done |].
  cbn [restore_entries]. unfold writeFile.
  rewrite (Hall k) by (by left).
  specialize (IH (<[k := File v]> fs)).
  destruct (restore_entries entries (<[k := File v]> fs)) as [fs' r]. cbn [snd] in *.
  rewrite IH; [done |].
  intros q Hq. rewrite writable_insert; [| apply Hall; by left].
  apply Hall. by right.
Qed.

(** Whether or not a write throws, a path without an entry is not
    written. *)
Lemma restore_entries_other entries (fs : FS) k :
  ~ In k (JsMap.keys entries) ->
  fst (restore_entries entries fs) !! k = fs !! k.
Proof.
  revert fs. induction entries as [|[k0 v0] entries IH]; intros fs Hnotin; [done |].
  cbn [restore_entries]. unfold writeFile.
  destruct (writable fs k0); [| done].
  cbn [JsMap.keys List.map fst] in Hnotin.
  specialize (IH (<[k0 := File v0]> fs)).
  destruct (restore_entries entries (<[k0 := File v0]> fs)) as [fs' restored].
  cbn [fst] in *.
  rewrite IH; [apply lookup_insert_ne |]; intros ?; apply Hnotin; [by left | by right].
Qed.

Lemma restore_entries_lookup entries (fs : FS) k v restored :
  JsMap.wf entries ->
  JsMap.get entries k = Some v ->
  snd (restore_entries entries fs) = Some restored ->
  fst (restore_entries entries fs) !! k = Some (File v).
Proof.
  unfold JsMap.wf.
  revert fs restored.
  induction entries as [|[k0 v0] entries IH]; intros fs restored Hnd Hget;
    cbn [restore_entries JsMap.get JsMap.keys List.map fst] in *; [discriminate |].
  apply NoDup_cons in Hnd as [Hnotin Hnd].
  unfold writeFile. destruct (writable fs k0); [| discriminate].
  pose proof (restore_entries_other entries (<[k0 := File v0]> fs) k) as Hother.
  specialize (IH (<[k0 := File v0]> fs)).
  destruct (restore_entries entries (<[k0 := File v0]> fs)) as [fs' [r|]];
    cbn [fst snd option_map] in *; [| discriminate].
  intros _.
  destruct (String.eqb k0 k) eqn:E.
  - apply String.eqb_eq in E. subst k0. injection Hget as ->.
    rewrite Hother; [apply lookup_insert_eq |].
    by rewrite <- list_elem_of_In.
  - by apply (IH r).
Qed.

(** Running the loop again on the disk it left gives the same disk and
    the same outcome. *)
Lemma restore_entries_again entries (fs : FS) :
  JsMap.wf entries ->
  restore_entries entries (fst (restore_entries entries fs)) = restore_entries entries fs.
Proof.
  unfold JsMap.wf.
  revert fs. induction entries as [|[k v] entries IH]; intros fs Hnd; [done |].
  cbn [JsMap.keys List.map fst] in Hnd. apply NoDup_cons in Hnd as [Hnotin Hnd].
  cbn [restore_entries]. unfold writeFile.
  destruct (writable fs k) eqn:Hk.
  - pose proof (restore_entries_writable entries (<[k := File v]> fs) k) as Hw.
    pose proof (restore_entries_other entries (<[k := File v]> fs) k) as Hother.
    specialize (IH (<[k := File v]> fs) Hnd).
    destruct (restore_entries entries (<[k := File v]> fs)) as [fs' r] eqn:Hrest.
    cbn [fst] in *.
    rewrite Hw, writable_insert, Hk by done.
    assert (Hsame : <[k := File v]> fs' = fs').
    { apply insert_id. rewrite Hother; [apply lookup_insert_eq |].
      by rewrite <- list_elem_of_In. }
    rewrite Hsame, IH. reflexivity.
  - cbn [fst]. by rewrite Hk.
Qed.

Section Capture.

Variable resolve : string -> string -> string.
Variable createPatch : string -> string -> string -> string.

(** Whatever was stored before, a capture stores the content the file
    has at the call. *)
Lemma captureBeforeState_stored t (fs : FS) stepId filePath cwd :
  stored (captureBeforeState resolve t fs stepId filePath cwd) stepId
         (resolve cwd filePath)
  = Some (read_or_empty fs (resolve cwd filePath)).
Proof.
  unfold stored, captureBeforeState. simpl.
  rewrite JsMapFacts.get_set_eq. apply JsMapFacts.get_set_eq.
Qed.

Lemma captureBeforeState_bucket_wf t (fs : FS) stepId filePath cwd bucket :
  tracker_wf t ->
  JsMap.get (beforeStates (captureBeforeState resolve t fs stepId filePath cwd)) stepId
    = Some bucket ->
  JsMap.wf bucket.
Proof.
  intros [_ Hbuckets]. unfold captureBeforeState. simpl.
  rewrite JsMapFacts.get_set_eq. intros [= <-].
  apply JsMapFacts.wf_set.
  unfold JsMap.has.
  destruct (JsMap.get (beforeStates t) stepId) as [b|] eqn:Hget; simpl.
  - rewrite Hget. simpl. by apply (Hbuckets stepId).
  - rewrite JsMapFacts.get_set_eq. simpl. apply JsMapFacts.wf_nil.
Qed.

Lemma captureBeforeState_wf t (fs : FS) stepId filePath cwd :
  tracker_wf t -> tracker_wf (captureBeforeState resolve t fs stepId filePath cwd).
Proof.
  intros Hwf. split.
  - destruct Hwf as [Houter _]. unfold captureBeforeState. simpl.
    apply JsMapFacts.wf_set.
    destruct (negb (JsMap.has (beforeStates t) stepId)); [by apply JsMapFacts.wf_set | done].
  - intros sid bucket Hget.
    destruct (String.eqb stepId sid) eqn:E.
    + apply String.eqb_eq in E. subst sid.
      by eapply captureBeforeState_bucket_wf.
    + apply String.eqb_neq in E. destruct Hwf as [_ Hbuckets].
      unfold captureBeforeState in Hget. simpl in Hget.
      rewrite JsMapFacts.get_set_ne in Hget by done.
      destruct (negb (JsMap.has (beforeStates t) stepId)).
      * rewrite JsMapFacts.get_set_ne in Hget by done. by apply (Hbuckets sid).
      * by apply (Hbuckets sid).
Qed.



End Capture.

Lemma empty_wf : tracker_wf empty.
Proof. split; [apply JsMapFacts.wf_nil | intros ? ? [=]]. Qed.




(** C6. A second [captureBeforeState] for the same step and path,
    made after the file has changed, replaces the stored pre-state:
    the content recorded by the first call ("old") is gone and the
    changed content ("new") is what a rollback of the step would write
    back. *)
Theorem captureBeforeState_second_call_overwrites :
  stored (Scenarios.capture empty Scenarios.disk_old "s1" "a.txt" "/w") "s1" "/w/a.txt"
    = Some "old"
  /\ stored Scenarios.captured_twice "s1" "/w/a.txt" = Some "new"
  /\ fst (rollbackStep Scenarios.captured_twice Scenarios.disk_new "s1") !! "/w/a.txt"
     = Some (File "new").
Proof.
  split; [| split].
  - vm_compute. reflexivity.
  - vm_compute. reflexivity.
  - vm_compute. reflexivity.
Qed.

End RollbackFacts.

(** ** Policy engine *)

Module PolicyFacts.

Import Policy.



Lemma includes_dot_cons c s :
  Str.includes "." (String c s) = Ascii.eqb "." c || Str.includes "." s.
Proof.
  change (Str.includes "." (String c s))
    with (Str.startsWith "." (String c s) || Str.includes "." s).
  f_equal. unfold Str.startsWith.
  change (Str.strip_prefix "." (String c s))
    with (if Ascii.eqb "." c then Str.strip_prefix EmptyString s else None).
  destruct (Ascii.eqb "." c); [by destruct s | done].
Qed.

(** [split('.')[0]] is the text before the first dot. *)
Lemma before_dot_no_dot s :
  Str.includes "." s = false -> Str.before_dot s = s.
Proof.
  induction s as [|c s IH]; [done |].
  rewrite includes_dot_cons. intros [Hc Hs]%orb_false_elim.
  cbn [Str.before_dot]. rewrite Ascii.eqb_sym, Hc. by rewrite IH.
Qed.

Lemma before_dot_app a b :
  Str.includes "." a = false -> Str.before_dot (a +:+ "." +:+ b) = a.
Proof.
  induction a as [|c a IH]; [done |].
  rewrite includes_dot_cons. intros [Hc Ha]%orb_false_elim.
  change ((String c a) +:+ "." +:+ b) with (String c (a +:+ "." +:+ b)).
  cbn [Str.before_dot]. rewrite Ascii.eqb_sym, Hc. by rewrite IH.
Qed.



Lemma grant_fold_elem (toolName : string) (perms : list string)
    (acc : gset string) (key : string) :
  key ∈ fold_left (fun acc perm => acc ∪ {[ session_key toolName perm ]}) perms acc
  <-> key ∈ acc \/ exists p, In p perms /\ key = session_key toolName p.
Proof.
  revert acc. induction perms as [|q perms IH]; intros acc; simpl.
  - split; [by left | intros [H | (p & [] & _)]; done].
  - rewrite IH. rewrite elem_of_union, elem_of_singleton. split.
    + intros [[H | H] | (p & Hp & Hk)]; eauto.
    + intros [H | (p & [<- | Hp] & Hk)]; eauto.
Qed.



(** A session approval granted for one tool does not carry over to
    another tool that needs the same permission. *)
Example session_approval_is_per_tool :
  let e := grantSessionApproval Scenarios.engine_deny_all
             (Scenarios.action_of "cmd.run" ["exec"]) in
  let ctx := {| cwd := "/w"; autonomous := false; approvedPermissions := ∅;
                onApproval := None; enabledTools := [] |} in
  allowed (fst (checkPermission e (Scenarios.action_of "cmd.run" ["exec"]) ctx)) = true
  /\ allowed (fst (checkPermission e (Scenarios.action_of "other.tool" ["exec"]) ctx)) = false.
Proof. split; vm_compute; reflexivity. Qed.

End PolicyFacts.

(** ** Audit logger and redaction *)

Module AuditLogFacts.

Import AuditLog.

(** The replacer keeps a match shorter than eight characters. *)
Example mask_keeps_short_match : Secrets.redactSecrets "xoxb-ab" = "xoxb-ab".
Proof. vm_compute. reflexivity. Qed.

Example redact_openai_key :
  Secrets.redactSecrets "key sk-abcdefghijklmnopqrstuvwxyz end" = "key sk-a***wxyz end".
Proof. vm_compute. reflexivity. Qed.

(** Whenever a run has a diff, the second file holds the serialized
    diffs as they are. *)
Lemma save_diffs_file (l : AuditLogger) d ds :
  diffs (runLog l) = d :: ds ->
  save l = [ {| fw_path := path_join (runDir l) "run.json";
                fw_content := Secrets.redactSecrets (stringify (runlog_json (runLog l))) |};
             {| fw_path := path_join (runDir l) "diffs.json";
                fw_content := stringify (diffs_json (d :: ds)) |} ].
Proof. intros H. unfold save. by rewrite H. Qed.

(** C1. A run whose diff holds an AWS access key: [save] writes
    [run.json] and [diffs.json]; the key is masked in [run.json], and
    [diffs.json] holds it in full, since only the run log goes through
    [redactSecrets]. *)
Theorem save_writes_diffs_file_unredacted :
  List.map fw_path (save leaky_run)
    = [".agent/runs/run-1/run.json"; ".agent/runs/run-1/diffs.json"]
  /\ List.map (fun w => Str.includes aws_key (fw_content w)) (save leaky_run)
     = [false; true]
  /\ List.map (fun w => Secrets.has_secret (fw_content w)) (save leaky_run)
     = [false; true]
  /\ List.map (fun w => String.eqb (Secrets.redactSecrets (fw_content w)) (fw_content w))
       (save leaky_run)
     = [true; false].
Proof. repeat split; vm_compute; reflexivity. Qed.

End AuditLogFacts.

(** ** Skill runner *)

Module SkillsFacts.

Import Skills.

(** C9. [String.prototype.replace] with a string pattern replaces one
    occurrence: of two [{{x}}] in a prompt, the first is replaced by
    the input value and the second stays in the prompt that is sent to
    the model. *)
Theorem renderPrompt_replaces_first_occurrence_only :
  renderPrompt "{{x}} and {{x}}" [("x", JStr "1")] = "1 and {{x}}"
  /\ Str.includes (placeholder "x") (renderPrompt "{{x}} and {{x}}" [("x", JStr "1")]) = true
  /\ renderPrompt "only {{x}}" [("x", JStr "1")] = "only 1".
Proof. repeat split; vm_compute; reflexivity. Qed.

Section Loop.

Variable W : Type.
Variable chat : list LLMMessage -> list LLMToolDefinition -> string -> ChatOutcome.
Variable importWorkflow : string -> string + (json -> Workflow).
Variable execValidator : ValidatorConfig -> string -> W -> W * (bool * string).
Variable registry : Tools.ToolRegistry W.

(** The body of the tool-call loop reads the skill's name and nothing
    else of the skill: the declared tools play no part in it. *)
Lemma handle_tool_call_ignores_declared_tools skill skill' ctx st tc :
  sk_name (manifest skill) = sk_name (manifest skill') ->
  handle_tool_call W registry skill ctx st tc
  = handle_tool_call W registry skill' ctx st tc.
Proof.
  intros Hname. unfold handle_tool_call, skill_action. by rewrite Hname.
Qed.

Lemma dispatch_llmCalls ctx st tc :
  llmCalls W (dispatch W registry ctx st tc) = llmCalls W st.
Proof.
  unfold dispatch. by destruct (Tools.registry_execute _ _ _ _ _).
Qed.

Lemma handle_tool_call_llmCalls skill ctx st tc :
  llmCalls W (handle_tool_call W registry skill ctx st tc) = llmCalls W st.
Proof.
  unfold handle_tool_call.
  destruct (Tools.get registry (tc_name tc)) as [tool|]; [| done].
  destruct (Policy.checkPermission _ _ _) as [permResult evs].
  destruct (negb (Policy.allowed permResult) && Policy.requiresApproval permResult).
  - destruct (Policy.requestApproval _ _ _) as [[approved e'] evs'].
    destruct approved; [by rewrite dispatch_llmCalls | done].
  - destruct (negb (Policy.allowed permResult)); [done | by rewrite dispatch_llmCalls].
Qed.

Lemma fold_tool_calls_llmCalls skill ctx tcs st :
  llmCalls W (fold_left (handle_tool_call W registry skill ctx) tcs st) = llmCalls W st.
Proof.
  revert st. induction tcs as [|tc tcs IH]; intros st; simpl; [done |].
  by rewrite IH, handle_tool_call_llmCalls.
Qed.

Lemma agentic_loop_exhausts skill ctx :
  always_calls chat ->
  forall n st,
    snd (agentic_loop W chat registry skill ctx n st) = inr JNull
    /\ llmCalls W (fst (agentic_loop W chat registry skill ctx n st)) = llmCalls W st + n.
Proof.
  intros Hchat. induction n as [|n IH]; intros st; simpl.
  - split; [done | lia].
  - destruct (Hchat (messages W st) (toolDefs W registry skill) (sk_name (manifest skill)))
      as (text & tc & more & ->).
    match goal with
    | |- context [agentic_loop W chat registry skill ctx n ?s] =>
        destruct (IH s) as [Hout Hcalls]; split; [exact Hout |];
        rewrite Hcalls;
        change s with (fold_left (handle_tool_call W registry skill ctx) (tc :: more)
                         (push_message W (count_call W st)
                            {| role := assistant; content := text; toolCallId := None;
                               toolCalls := Some (tc :: more) |}))
    end.
    rewrite fold_tool_calls_llmCalls. simpl. lia.
Qed.

(** C4, as the code has it. When the model returns tool calls on every
    iteration, the agentic loop of a prompt-driven skill stops after
    the twentieth call of the model; the skill's output is null, no
    error is reported, and [success] is what the validators say: true
    when each of them passed, so true for a skill without validators. *)
Theorem prompt_skill_stops_at_iteration_bound
    (skill : LoadedSkill) (inputs : list (string * json))
    (ctx : Policy.ExecutionContext) (w : W) (e : Policy.PolicyEngine) :
  truthy (promptContent skill) = true ->
  always_calls chat ->
  let r := run W chat importWorkflow execValidator registry skill inputs ctx w e in
  llmCalls W (fst r) = maxIterations
  /\ output (snd r) = Some JNull
  /\ error (snd r) = None
  /\ (exists results,
         validatorResults (snd r) = Some results
         /\ success (snd r) = forallb vr_passed results)
  /\ (sk_validators (manifest skill) = None -> success (snd r) = true).
Proof.
  intros Hprompt Hchat r. subst r. unfold run. rewrite Hprompt.
  unfold runPromptSkill.
  match goal with
  | |- context [agentic_loop W chat registry skill ctx maxIterations ?s] =>
      destruct (agentic_loop_exhausts skill ctx Hchat maxIterations s) as [Hout Hcalls];
      destruct (agentic_loop W chat registry skill ctx maxIterations s) as [st1 outcome]
  end.
  simpl in Hout, Hcalls. subst outcome.
  destruct (runValidators W execValidator skill (Policy.cwd ctx) (world W st1))
    as [w' results] eqn:Hval.
  simpl. repeat split; try done.
  - exists results. split; [done |].
    destruct results; simpl; [done | by rewrite orb_false_r].
  - intros Hnone. unfold runValidators in Hval. rewrite Hnone in Hval.
    by injection Hval as <- <-.
Qed.

End Loop.

Lemma chat_never_done_always_calls : always_calls Scenarios.chat_never_done.
Proof. intros msgs tools nm. unfold Scenarios.chat_never_done. eauto. Qed.

Lemma prompt_skill_stops_at_iteration_bound_witness :
  truthy (promptContent Scenarios.reader_skill) = true
  /\ always_calls Scenarios.chat_never_done
  /\ llmCalls _ (fst Scenarios.prompt_run_never_done) = 20.
Proof.
  split; [reflexivity |]. split; [exact chat_never_done_always_calls |].
  exact (proj1 (prompt_skill_stops_at_iteration_bound Scenarios.Journal
                  Scenarios.chat_never_done Scenarios.no_workflow
                  Scenarios.validator_passes Scenarios.registry
                  Scenarios.reader_skill Scenarios.file_input Scenarios.ctx_plain
                  [] Scenarios.allow_fs eq_refl chat_never_done_always_calls)).
Defined.

(** The same run refutes C4 as the specification states it: the model
    returns a tool call on each of the twenty iterations and the skill's
    result has [success = true]. *)
Lemma iteration_bound_exhausted_reports_success :
  always_calls Scenarios.chat_never_done
  /\ llmCalls _ (fst Scenarios.prompt_run_never_done) = 20
  /\ success (snd Scenarios.prompt_run_never_done) <> false.
Proof.
  split; [exact chat_never_done_always_calls |].
  split; [vm_compute; reflexivity |].
  vm_compute. discriminate.
Qed.

(** C3. A skill that declares [fs.read] only, and a model that emits a
    call of the registered tool [fs.write]: the prompt-driven loop
    dispatches the call through the registry (the tool runs and changes
    the world, the call is recorded, and the tool message carries the
    tool's result, not an error object). The workflow executor, given
    the same call, refuses it without a dispatch. *)
Theorem prompt_loop_dispatches_undeclared_tool :
  existsb (String.eqb "fs.write") (sk_tools Scenarios.reader_manifest) = false
  /\ List.map rec_tool (toolCallLog (snd Scenarios.prompt_run_writes)) = ["fs.write"]
  /\ world _ (fst Scenarios.prompt_run_writes)
     = ["fs.write " +:+ stringify_compact Scenarios.write_args]
  /\ List.map content (List.filter Scenarios.is_tool_message
                         (messages _ (fst Scenarios.prompt_run_writes)))
     = [stringify_compact
          (Tools.result_json
             {| Tools.success := true; Tools.data := Some (JStr "ok");
                Tools.error := None; Tools.durationMs := 1; Tools.metadata := None |})]
  /\ toolCallLog (snd Scenarios.workflow_run_writes) = []
  /\ world _ (fst Scenarios.workflow_run_writes) = [].
Proof. repeat split; vm_compute; reflexivity. Qed.

End SkillsFacts.

(** ** Plan runner *)

Module PlansFacts.

Import Plans.

(** C2. A step with a verification clause and [onFailure: retry]: the
    first execution succeeds and its verification fails, the retry
    executes the step again, and the step ends [completed] although no
    verification ran after the execution that completed it and the
    only verdict recorded for the step is a failed one. *)
Theorem retry_completes_step_without_verification :
  verify Scenarios.retried_step = Some Scenarios.check_output
  /\ option_map status (find_run (steps (planRun _ Scenarios.retry_run)) "build")
     = Some completed
  /\ option_map (fun r => option_map AuditLog.passed (verification r))
       (find_run (steps (planRun _ Scenarios.retry_run)) "build")
     = Some (Some false)
  /\ calls _ Scenarios.retry_run
     = [CallExecute "build"; CallVerify "build"; CallExecute "build"]
  /\ runStatus (planRun _ Scenarios.retry_run) = run_completed.
Proof. repeat split; vm_compute; reflexivity. Qed.

(** The chain of the specification's scenario refutes C5 as stated: A
    fails and is skipped over, B and C are skipped, and the run ends
    [completed], not [failed]. *)
Lemma skipped_failure_run_is_completed :
  List.map status (steps (planRun _ Scenarios.chain_run)) = [failed; skipped; skipped]
  /\ runStatus (planRun _ Scenarios.chain_run) <> run_failed.
Proof. split; [vm_compute; reflexivity | vm_compute; discriminate]. Qed.

Section Chain.

Variable W : Type.
Variable executeStep : PlanStep -> W -> W * StepResult.
Variable verifyStep : VerifyConfig -> W -> W * AuditLog.Verification.

Local Abbreviation run_steps := (run_steps W executeStep verifyStep).
Local Abbreviation attempt_step := (attempt_step W executeStep verifyStep).

Lemma run_steps_skipped step rest st d ds :
  unmet_deps W st step = d :: ds ->
  run_steps (step :: rest) st = run_steps rest (mark_skipped W st step (d :: ds)).
Proof. intros H. cbn [Plans.run_steps]. rewrite H. reflexivity. Qed.

Lemma run_steps_failed_skip step rest st :
  unmet_deps W st step = [] ->
  current_status W (attempt_step step st) step = failed ->
  onFailure step = Some skip ->
  run_steps (step :: rest) st = run_steps rest (attempt_step step st).
Proof.
  intros Hdeps Hstatus Hskip. cbn [Plans.run_steps].
  rewrite Hdeps. cbn [List.length Nat.ltb Nat.leb].
  rewrite Hstatus, Hskip. reflexivity.
Qed.

(** The retry loop calls [executeStep] and nothing else of the
    engine: whatever the step and the number of attempts, no
    verification is among the calls it adds. *)
Lemma retry_loop_never_verifies step n st :
  exists k,
    calls W (fst (retry_loop W executeStep step n st))
    = calls W st ++ repeat (CallExecute (id step)) k.
Proof.
  revert st. induction n as [|n IH]; intros st; cbn [retry_loop].
  - exists 0. cbn. by rewrite app_nil_r.
  - unfold call_execute. destruct (executeStep step (world W st)) as [w1 r].
    destruct (success r).
    + exists 1. reflexivity.
    + match goal with
      | |- context [retry_loop W executeStep step n ?s] => destruct (IH s) as [k Hk]
      end.
      exists (S k). rewrite Hk. cbn [calls repeat]. by rewrite <- app_assoc.
Qed.

(** A failed execution: no verification runs, and the run record
    changes at the step's entry only. *)
Lemma attempt_step_failed step st :
  success (snd (executeStep step (world W st))) = false ->
  steps (planRun W (attempt_step step st))
  = update_run (update_run (steps (planRun W st)) (id step) (set_status running))
      (id step) (record_result (snd (executeStep step (world W st))))
  /\ runStatus (planRun W (attempt_step step st)) = runStatus (planRun W st)
  /\ calls W (attempt_step step st) = calls W st ++ [CallExecute (id step)].
Proof.
  intros Hfail. unfold Plans.attempt_step, call_execute. cbn [world emit update_step with_steps].
  destruct (executeStep step (world W st)) as [w1 r]. cbn [snd] in *.
  unfold verify_after. rewrite Hfail.
  destruct (verify step); repeat split; reflexivity.
Qed.

(** An execution that succeeds followed by a verification that does
    not pass: the step ends [failed] with the verdict recorded. *)
Lemma attempt_step_verification_failed step st v :
  verify step = Some v ->
  success (snd (executeStep step (world W st))) = true ->
  AuditLog.passed (snd (verifyStep v (fst (executeStep step (world W st))))) = false ->
  let result := snd (executeStep step (world W st)) in
  let verdict := snd (verifyStep v (fst (executeStep step (world W st)))) in
  steps (planRun W (attempt_step step st))
  = update_run
      (update_run
         (update_run
            (update_run (steps (planRun W st)) (id step) (set_status running))
            (id step) (record_result result))
         (id step) (set_verification verdict))
      (id step)
      (fun r => set_error (Some ("Verification failed: " +:+ AuditLog.details verdict))
                  (set_status failed r))
  /\ runStatus (planRun W (attempt_step step st)) = runStatus (planRun W st)
  /\ calls W (attempt_step step st)
     = calls W st ++ [CallExecute (id step); CallVerify (id step)].
Proof.
  intros Hv Hok Hnot. unfold Plans.attempt_step, call_execute.
  cbn [world emit update_step with_steps].
  destruct (executeStep step (world W st)) as [w1 r]. cbn [fst snd] in *.
  unfold verify_after. rewrite Hv, Hok. unfold call_verify.
  cbn [world update_step with_steps].
  destruct (verifyStep v w1) as [w2 verdict]. cbn [snd] in *. rewrite Hnot.
  cbn [negb planRun steps runStatus calls update_step with_steps emit].
  rewrite <- app_assoc. repeat split; reflexivity.
Qed.

(** C5, as the code has it. Steps A, B (depends on A) and C (depends
    on B), with distinct ids; A has [onFailure: skip] and fails: its
    execution fails, or its execution succeeds and the verification of
    its clause does not pass. Then A ends [failed], B and C end
    [skipped] with the errors "Unmet dependencies: A" and "Unmet
    dependencies: B", the engine is called for A only (its execution,
    and its verification when the execution succeeded), and the run
    ends [completed]: only an abort or an exhausted retry makes a run
    [failed]. *)
Theorem skipped_failure_chain
    (A B C : PlanStep) (nm rid : string) (w : W) :
  id A <> id B -> id A <> id C -> id B <> id C ->
  (dependsOn A = None \/ dependsOn A = Some []) ->
  dependsOn B = Some [id A] ->
  dependsOn C = Some [id B] ->
  onFailure A = Some skip ->
  (success (snd (executeStep A w)) = false
   \/ exists v, verify A = Some v
        /\ AuditLog.passed (snd (verifyStep v (fst (executeStep A w)))) = false) ->
  let st := run W executeStep verifyStep
              {| planName := nm; planSteps := [A; B; C] |} rid w in
  option_map status (find_run (steps (planRun W st)) (id A)) = Some failed
  /\ option_map status (find_run (steps (planRun W st)) (id B)) = Some skipped
  /\ option_map sr_error (find_run (steps (planRun W st)) (id B))
     = Some (Some ("Unmet dependencies: " +:+ id A))
  /\ option_map status (find_run (steps (planRun W st)) (id C)) = Some skipped
  /\ option_map sr_error (find_run (steps (planRun W st)) (id C))
     = Some (Some ("Unmet dependencies: " +:+ id B))
  /\ runStatus (planRun W st) = run_completed
  /\ calls W st
     = CallExecute (id A)
       :: (if success (snd (executeStep A w)) then [CallVerify (id A)] else []).
Proof.
  intros HAB HAC HBC HdA HdB HdC HfA Hfail st. subst st.
  assert (EAB := proj2 (String.eqb_neq _ _) HAB).
  assert (EAC := proj2 (String.eqb_neq _ _) HAC).
  assert (EBC := proj2 (String.eqb_neq _ _) HBC).
  assert (EBA : String.eqb (id B) (id A) = false) by (rewrite String.eqb_sym; exact EAB).
  unfold run. cbn [planSteps planName List.map].
  change (List.map _ [A; B; C]) with [fresh_entry A; fresh_entry B; fresh_entry C].
  match goal with
  | |- context [run_steps [A; B; C] ?s] => set (st0 := s)
  end.
  (* A: dependencies met, the attempt fails, skipped over *)
  set (st6 := attempt_step A st0).
  assert (HA : exists rA,
             steps (planRun W st6) = [rA; fresh_entry B; fresh_entry C]
             /\ status rA = failed /\ stepId rA = id A
             /\ runStatus (planRun W st6) = run_running
             /\ calls W st6
                = CallExecute (id A)
                  :: (if success (snd (executeStep A w)) then [CallVerify (id A)] else [])).
  { destruct (success (snd (executeStep A w))) eqn:Hok.
    - destruct Hfail as [Hfail | (v & Hv & Hnot)]; [discriminate |].
      destruct (attempt_step_verification_failed A st0 v Hv Hok Hnot)
        as (Hsteps & Hrun & Hcalls).
      fold st6 in Hsteps, Hrun, Hcalls.
      eexists. split; [| split; [| split; [| split]]].
      + rewrite Hsteps. subst st0.
        cbn [steps planRun update_run stepId fresh_entry set_status record_result
             set_duration set_error set_output set_verification world].
        rewrite !String.eqb_refl.
        cbn [update_run stepId set_status record_result set_duration set_error
             set_output set_verification].
        rewrite !String.eqb_refl.
        cbn [update_run stepId set_status record_result set_duration set_error
             set_output set_verification].
        rewrite !String.eqb_refl.
        cbn [update_run stepId set_status record_result set_duration set_error
             set_output set_verification].
        rewrite !String.eqb_refl. reflexivity.
      + reflexivity.
      + reflexivity.
      + rewrite Hrun. reflexivity.
      + rewrite Hcalls. reflexivity.
    - assert (Hfail0 : success (snd (executeStep A (world W st0))) = false) by exact Hok.
      destruct (attempt_step_failed A st0 Hfail0) as (Hsteps & Hrun & Hcalls).
      fold st6 in Hsteps, Hrun, Hcalls.
      eexists. split; [| split; [| split; [| split]]].
      + rewrite Hsteps. subst st0.
        cbn [steps planRun update_run stepId fresh_entry set_status world].
        rewrite !String.eqb_refl. cbn [update_run stepId set_status].
        rewrite !String.eqb_refl. reflexivity.
      + unfold record_result. cbn [status set_duration set_error set_output set_status].
        change (world W st0) with w. by rewrite Hok.
      + reflexivity.
      + rewrite Hrun. reflexivity.
      + rewrite Hcalls. reflexivity. }
  destruct HA as (rA & Hsteps6' & HrA & HidA & Hrun6 & Hcalls6).
  assert (HdepsA : unmet_deps W st0 A = []).
  { unfold unmet_deps. by destruct HdA as [-> | ->]. }
  assert (HstatusA : current_status W st6 A = failed).
  { unfold current_status, status_of. rewrite Hsteps6'.
    cbn [find_run]. rewrite HidA, String.eqb_refl. cbn. exact HrA. }
  rewrite (run_steps_failed_skip A [B; C] st0 HdepsA HstatusA HfA).
  fold st6.
  (* B: its dependency A is not completed *)
  assert (HdepsB : unmet_deps W st6 B = [id A]).
  { unfold unmet_deps, unmet. rewrite HdB, Hsteps6'. cbn [List.filter find_run].
    rewrite HidA, String.eqb_refl, HrA. reflexivity. }
  rewrite (run_steps_skipped B [C] st6 (id A) [] HdepsB).
  set (st7 := mark_skipped W st6 B [id A]).
  set (rB := set_error (Some ("Unmet dependencies: " +:+ id A))
               (set_status skipped (fresh_entry B))).
  assert (Hsteps7 : steps (planRun W st7) = [rA; rB; fresh_entry C]).
  { unfold st7, mark_skipped, update_step. cbn [steps planRun with_steps].
    rewrite Hsteps6'. cbn [update_run]. rewrite HidA.
    rewrite EAB. change (stepId (fresh_entry B)) with (id B).
    by rewrite String.eqb_refl. }
  (* C: its dependency B is not completed *)
  assert (HdepsC : unmet_deps W st7 C = [id B]).
  { unfold unmet_deps, unmet. rewrite HdC, Hsteps7. cbn [List.filter find_run].
    rewrite HidA. change (stepId rB) with (id B).
    rewrite EAB, String.eqb_refl. reflexivity. }
  rewrite (run_steps_skipped C [] st7 (id B) [] HdepsC).
  set (st8 := mark_skipped W st7 C [id B]).
  set (rC := set_error (Some ("Unmet dependencies: " +:+ id B))
               (set_status skipped (fresh_entry C))).
  assert (Hsteps8 : steps (planRun W st8) = [rA; rB; rC]).
  { unfold st8, mark_skipped, update_step. cbn [steps planRun with_steps].
    rewrite Hsteps7. cbn [update_run]. rewrite HidA.
    change (stepId rB) with (id B). change (stepId (fresh_entry C)) with (id C).
    by rewrite EAC, EBC, String.eqb_refl. }
  assert (Hrun8 : runStatus (planRun W st8) = run_running).
  { unfold st8, st7, mark_skipped, update_step. cbn [runStatus planRun with_steps].
    exact Hrun6. }
  assert (Hcalls8 : calls W st8
                    = CallExecute (id A)
                      :: (if success (snd (executeStep A w))
                          then [CallVerify (id A)] else [])).
  { unfold st8, st7, mark_skipped, update_step. cbn [calls with_steps].
    exact Hcalls6. }
  cbn [Plans.run_steps]. rewrite Hrun8.
  cbn [emit planRun calls with_run_status steps runStatus].
  rewrite Hsteps8, Hcalls8. cbn [find_run].
  rewrite HidA. change (stepId rB) with (id B).
  change (stepId rC) with (id C).
  rewrite !String.eqb_refl, EAB, EAC, EBC. cbn [option_map].
  rewrite HrA. repeat split; reflexivity.
Qed.

End Chain.

(** The two ways for A to fail: its execution fails; its execution
    succeeds and its verification does not pass. *)
Lemma skipped_failure_chain_witness :
  (List.map status (steps (planRun _ Scenarios.chain_run)) = [failed; skipped; skipped]
   /\ runStatus (planRun _ Scenarios.chain_run) = run_completed
   /\ calls _ Scenarios.chain_run = [CallExecute "A"])
  /\ (List.map status (steps (planRun _ Scenarios.chain_run_unverified))
      = [failed; skipped; skipped]
      /\ runStatus (planRun _ Scenarios.chain_run_unverified) = run_completed
      /\ calls _ Scenarios.chain_run_unverified = [CallExecute "A"; CallVerify "A"]).
Proof.
  split.
  - split; [vm_compute; reflexivity |].
    pose proof (skipped_failure_chain unit Scenarios.exec_A_fails Scenarios.verify_passes
                  Scenarios.step_A Scenarios.step_B Scenarios.step_C "chain" "run-2" tt
                  ltac:(discriminate) ltac:(discriminate) ltac:(discriminate)
                  (or_introl eq_refl) eq_refl eq_refl eq_refl (or_introl eq_refl)) as H.
    split; [exact (proj1 (proj2 (proj2 (proj2 (proj2 (proj2 H))))))
           | exact (proj2 (proj2 (proj2 (proj2 (proj2 (proj2 H))))))].
  - split; [vm_compute; reflexivity |].
    pose proof (skipped_failure_chain unit Scenarios.exec_ok Scenarios.verify_fails
                  Scenarios.step_A_verified Scenarios.step_B Scenarios.step_C
                  "chain" "run-3" tt
                  ltac:(discriminate) ltac:(discriminate) ltac:(discriminate)
                  (or_introl eq_refl) eq_refl eq_refl eq_refl
                  (or_intror (ex_intro _ Scenarios.check_output (conj eq_refl eq_refl))))
      as H.
    split; [exact (proj1 (proj2 (proj2 (proj2 (proj2 (proj2 H))))))
           | exact (proj2 (proj2 (proj2 (proj2 (proj2 (proj2 H))))))].
Defined.

End PlansFacts.

(** * Further properties of the code *)

(** ** Policy engine: outcomes of a permission check *)

Module PolicyOutcomes.

Import Policy.

Lemma check_step_pass e a ctx p rest :
  passes e a ctx p ->
  checkPermission_from e a ctx (p :: rest) = checkPermission_from e a ctx rest.
Proof.
  intros [H | [H | H]]; cbn [checkPermission_from].
  - by rewrite (bool_decide_eq_true_2 _ H).
  - rewrite (bool_decide_eq_true_2 _ H). by rewrite orb_true_r.
  - rewrite H. by destruct (_ || _).
Qed.

Lemma check_step_stop e a ctx p :
  ~ passes e a ctx p ->
  (p ∉ approvedPermissions ctx)
  /\ (session_key (tool a) p ∉ sessionApprovals e)
  /\ findRule (config e) p <> allow
  /\ (bool_decide (p ∈ approvedPermissions ctx)
      || bool_decide (session_key (tool a) p ∈ sessionApprovals e)) = false.
Proof.
  intros Hno. unfold passes in Hno.
  assert (H1 : p ∉ approvedPermissions ctx) by tauto.
  assert (H2 : session_key (tool a) p ∉ sessionApprovals e) by tauto.
  repeat split; [done | done | tauto |].
  by rewrite (bool_decide_eq_false_2 _ H1), (bool_decide_eq_false_2 _ H2).
Qed.

Lemma passes_dec e a ctx p : passes e a ctx p \/ ~ passes e a ctx p.
Proof.
  unfold passes.
  destruct (decide (p ∈ approvedPermissions ctx)); [tauto |].
  destruct (decide (session_key (tool a) p ∈ sessionApprovals e)); [tauto |].
  destruct (findRule (config e) p); [tauto | |]; right; intros [?|[?|?]]; done.
Qed.

(** X1. An action is allowed exactly when each permission it requires is
    pre-approved in the context, approved for this tool in the
    session, or allowed by the rule that [findRule] resolves. *)
Theorem checkPermission_allowed_iff (e : PolicyEngine) (a : ActionDescriptor)
    (ctx : ExecutionContext) :
  allowed (fst (checkPermission e a ctx)) = true
  <-> forall p, In p (permissions a) -> passes e a ctx p.
Proof.
  unfold checkPermission. induction (permissions a) as [|p perms IH].
  - split; [intros _ q [] | done].
  - destruct (passes_dec e a ctx p) as [Hp | Hp].
    + rewrite (check_step_pass _ _ _ _ _ Hp), IH. split.
      * intros H q [<- | Hq]; [done | by apply H].
      * intros H q Hq. apply H. by right.
    + destruct (check_step_stop _ _ _ _ Hp) as (_ & _ & Hrule & Hb).
      cbn [checkPermission_from]. rewrite Hb. split.
      * destruct (findRule (config e) p); [done | discriminate | discriminate].
      * intros H. exfalso. apply Hp, H. by left.
Qed.

(** X2. The first required permission that does not pass decides a
    refusal: under a deny rule the action is denied for good and one
    [permission_denied] event is emitted; under a confirm rule the
    answer asks for approval and nothing is emitted. Permissions after
    it are not looked at. *)
Theorem checkPermission_first_refusal_decides (e : PolicyEngine)
    (a : ActionDescriptor) (ctx : ExecutionContext)
    (before : list string) (p : string) (after : list string) :
  permissions a = before ++ p :: after ->
  (forall q, In q before -> passes e a ctx q) ->
  ~ passes e a ctx p ->
  let '(r, evs) := checkPermission e a ctx in
  allowed r = false
  /\ (findRule (config e) p = deny ->
      requiresApproval r = false
      /\ evs = [(AuditLog.PERMISSION_DENIED,
                 JObj [("tool", JStr (tool a)); ("permission", JStr p);
                       ("reason", JStr "Denied by policy")])])
  /\ (findRule (config e) p = confirm -> requiresApproval r = true /\ evs = []).
Proof.
  intros Hperms Hbefore Hp. unfold checkPermission. rewrite Hperms. clear Hperms.
  induction before as [|q before IH]; cbn [app].
  - destruct (check_step_stop _ _ _ _ Hp) as (_ & _ & Hrule & Hb).
    cbn [checkPermission_from]. rewrite Hb.
    destruct (findRule (config e) p); [done | |]; repeat split; done.
  - rewrite check_step_pass by (apply Hbefore; by left).
    apply IH. intros x Hx. apply Hbefore. by right.
Qed.

(** X3. An approved request makes the check of the same action succeed from
    then on, in any context and whatever the rules say: the session
    approval is consulted before the rule. *)
Theorem approved_request_is_remembered (e e' : PolicyEngine) (a : ActionDescriptor)
    (ctx ctx' : ExecutionContext) (evs : list Emission) :
  requestApproval e a ctx = (true, e', evs) ->
  checkPermission e' a ctx' = (granted, []).
Proof.
  intros Hreq.
  assert (He' : e' = grantSessionApproval e a).
  { unfold requestApproval in Hreq.
    destruct (autonomous ctx), (riskLevel a), (onApproval ctx) as [h|];
      try destruct (h a); congruence. }
  subst e'.
  assert (Hall : forall q, In q (permissions a) ->
                           session_key (tool a) q ∈ sessionApprovals (grantSessionApproval e a)).
  { intros q Hq. unfold grantSessionApproval. cbn [sessionApprovals].
    apply PolicyFacts.grant_fold_elem. right. eauto. }
  unfold checkPermission. induction (permissions a) as [|q perms IH]; [done |].
  rewrite check_step_pass.
  - apply IH. intros x Hx. apply Hall. by right.
  - right. left. apply Hall. by left.
Qed.

(** A refused request grants nothing, and without an approval handler
    a request is refused unless the run is autonomous and the action
    is of low risk. *)
Lemma refused_request_grants_nothing (e : PolicyEngine) (a : ActionDescriptor)
    (ctx : ExecutionContext) :
  (forall e' evs, requestApproval e a ctx = (false, e', evs) -> e' = e)
  /\ (onApproval ctx = None ->
      autonomous ctx = false \/ riskLevel a <> low ->
      requestApproval e a ctx = (false, e, [])).
Proof.
  split.
  - intros e' evs. unfold requestApproval.
    destruct (autonomous ctx), (riskLevel a), (onApproval ctx) as [h|];
      try destruct (h a); congruence.
  - intros Hnone Hrisk. unfold requestApproval. rewrite Hnone.
    destruct (autonomous ctx), (riskLevel a); try done; destruct Hrisk; done.
Qed.

End PolicyOutcomes.

(** ** Domain scope *)

Module ScopeFacts.

Import Scope.

Lemma endsWith_spec suffix s :
  endsWith suffix s = true <-> exists pre, s = pre +:+ suffix.
Proof.
  induction s as [|c s IH]; cbn [endsWith].
  - rewrite orb_false_r, String.eqb_eq. split.
    + intros ->. by exists EmptyString.
    + intros [pre H]. destruct pre; [done |]. discriminate.
  - rewrite orb_true_iff, String.eqb_eq, IH. split.
    + intros [-> | [pre ->]]; [by exists EmptyString | by exists (String c pre)].
    + intros [pre H]. destruct pre as [|d pre]; [by left |].
      right. exists pre. cbn in H. by injection H.
Qed.

(** X4. With an empty allow-list every domain is in scope; otherwise a
    domain is in scope exactly when it is an allow-listed domain or
    ends with a dot followed by one, so a name that merely ends with the
    same letters is not. *)
Theorem checkDomainScope_spec (allowlist : list string) (domain : string) :
  inScope (checkDomainScope allowlist domain) = true
  <-> allowlist = []
      \/ exists d, In d allowlist
                   /\ (domain = d \/ exists sub, domain = sub +:+ "." +:+ d).
Proof.
  unfold checkDomainScope. destruct allowlist as [|d0 rest]; [by split; [left |] |].
  destruct (existsb (domain_matches domain) (d0 :: rest)) eqn:E; cbn [inScope].
  - split; [intros _ | done]. right.
    apply existsb_exists in E as (d & Hd & Hm). exists d. split; [done |].
    unfold domain_matches in Hm. apply orb_true_iff in Hm as [Hm | Hm].
    + left. by apply String.eqb_eq.
    + right. by apply endsWith_spec.
  - split; [done |]. intros [H | (d & Hd & Hm)]; [done |].
    assert (existsb (domain_matches domain) (d0 :: rest) = true); [| congruence].
    apply existsb_exists. exists d. split; [done |].
    unfold domain_matches. apply orb_true_iff.
    destruct Hm as [-> | Hsub]; [left; apply String.eqb_refl |].
    right. by apply endsWith_spec.
Qed.

End ScopeFacts.

(** ** Tool registry *)

Module RegistryFacts.

Lemma set_fresh {V} (m : JsMap.t V) k v :
  JsMap.get m k = None -> JsMap.set m k v = m ++ [(k, v)].
Proof.
  induction m as [|[k0 v0] m IH]; cbn [JsMap.get JsMap.set app]; [done |].
  destruct (String.eqb k0 k); [done |]. intros H. by rewrite IH.
Qed.

Lemma append_cons c p x : String c p +:+ x = String c (p +:+ x).
Proof. reflexivity. Qed.

Lemma append_nil x : EmptyString +:+ x = x.
Proof. reflexivity. Qed.

Lemma append_assoc a b c : (a +:+ b) +:+ c = a +:+ b +:+ c.
Proof. induction a as [|x a IH]; [done |]. by rewrite !append_cons, IH. Qed.

Lemma startsWith_spec p s :
  Str.startsWith p s = true <-> exists rest, s = p +:+ rest.
Proof.
  unfold Str.startsWith. revert s. induction p as [|a p IH]; intros s; cbn [Str.strip_prefix].
  - split; [intros _; by exists s | done].
  - destruct s as [|b s].
    + split; [done | intros [rest H]; rewrite append_cons in H; discriminate].
    + destruct (Ascii.eqb a b) eqn:E.
      * apply Ascii.eqb_eq in E. subst b. rewrite IH. split.
        -- intros [rest ->]. by exists rest.
        -- intros [rest H]. exists rest. rewrite append_cons in H. by injection H.
      * apply Ascii.eqb_neq in E. split; [done |].
        intros [rest H]. rewrite append_cons in H. injection H as H1 H2. by subst.
Qed.

Lemma ends_dot_star_cons c s :
  2 <= String.length s -> Tools.ends_dot_star (String c s) = Tools.ends_dot_star s.
Proof.
  destruct s as [|a [|b s]]; intros H; [cbn in H; lia | cbn in H; lia | reflexivity].
Qed.

Lemma length_wildcard prefix : 2 <= String.length (prefix +:+ ".*").
Proof.
  induction prefix as [|c p IH]; [rewrite append_nil; cbn; lia |].
  rewrite append_cons. cbn [String.length]. lia.
Qed.

Lemma ends_dot_star_wildcard prefix :
  Tools.ends_dot_star (prefix +:+ ".*") = true.
Proof.
  induction prefix as [|c p IH]; [reflexivity |].
  rewrite append_cons, ends_dot_star_cons; [exact IH | apply length_wildcard].
Qed.

Lemma drop_last_wildcard prefix :
  Tools.drop_last (prefix +:+ ".*") = prefix +:+ ".".
Proof.
  unfold Tools.drop_last.
  induction prefix as [|c p IH]; [reflexivity |].
  rewrite !append_cons. cbn [String.length].
  replace (S (String.length (p +:+ ".*")) - 1) with (S (String.length (p +:+ ".*") - 1)).
  - cbn [Str.take]. by rewrite IH.
  - pose proof (length_wildcard p). lia.
Qed.

Section Registry.

Variable W : Type.

(** X5. A registration that succeeds can be looked up, leaves every other
    name as it was, puts the tool last in the listing, keeps the names
    distinct, and makes a second registration under the same name
    fail. *)
Theorem register_then_get (reg reg' : Tools.ToolRegistry W)
    (tool : Tools.ToolDefinition W) :
  RegistryOps.register W reg tool = inr reg' ->
  Tools.get reg' (Tools.name tool) = Some tool
  /\ (forall n, n <> Tools.name tool -> Tools.get reg' n = Tools.get reg n)
  /\ JsMap.keys reg' = JsMap.keys reg ++ [Tools.name tool]
  /\ (JsMap.wf reg -> JsMap.wf reg')
  /\ (forall other, Tools.name other = Tools.name tool ->
                    exists msg, RegistryOps.register W reg' other = inl msg).
Proof.
  unfold RegistryOps.register, JsMap.has, Tools.get.
  destruct (JsMap.get reg (Tools.name tool)) eqn:Hget; [discriminate |].
  intros [= <-]. repeat split.
  - apply JsMapFacts.get_set_eq.
  - intros n Hn. by apply JsMapFacts.get_set_ne.
  - rewrite (set_fresh _ _ _ Hget). unfold JsMap.keys. by rewrite map_app.
  - apply JsMapFacts.wf_set.
  - intros other Hname. rewrite Hname, JsMapFacts.get_set_eq. eauto.
Qed.

(** X6. [execute] runs a tool only when it is registered, its input parses
    and an enable pattern matches its name; in every other case the
    world stays as it was and the result is a failure with an error
    message. *)
Theorem registry_execute_guarded (reg : Tools.ToolRegistry W)
    (enabled : list string) (toolName : string) (input : json) (w : W) :
  (exists tool parsed,
      Tools.get reg toolName = Some tool
      /\ Tools.safeParse tool input = inr parsed
      /\ existsb (Tools.matchesPattern toolName) enabled = true
      /\ Tools.registry_execute reg enabled toolName input w
         = Tools.execute tool parsed w)
  \/ (fst (Tools.registry_execute reg enabled toolName input w) = w
      /\ Tools.success (snd (Tools.registry_execute reg enabled toolName input w)) = false
      /\ is_Some (Tools.error (snd (Tools.registry_execute reg enabled toolName input w)))).
Proof.
  unfold Tools.registry_execute, Tools.get.
  destruct (JsMap.get reg toolName) as [tool|];
    [| right; cbn; split_and!; [done | done | by eexists]].
  destruct (Tools.safeParse tool input) as [issues | parsed] eqn:Hparse;
    [right; cbn; split_and!; [done | done | by eexists] |].
  destruct (existsb (Tools.matchesPattern toolName) enabled) eqn:E;
    [| right; cbn; split_and!; [done | done | by eexists]].
  left. exists tool, parsed. by split_and!.
Qed.

End Registry.

(** X7. An enable pattern [prefix.*] matches the names that start with
    [prefix.] (and the pattern itself); any pattern that does not end
    in [.*] matches its own name only. *)
Theorem matchesPattern_spec (toolName : string) :
  (forall prefix,
      Tools.matchesPattern toolName (prefix +:+ ".*") = true
      <-> toolName = prefix +:+ ".*" \/ exists rest, toolName = prefix +:+ "." +:+ rest)
  /\ (forall pattern,
      Tools.ends_dot_star pattern = false ->
      (Tools.matchesPattern toolName pattern = true <-> toolName = pattern)).
Proof.
  split.
  - intros prefix. unfold Tools.matchesPattern.
    rewrite ends_dot_star_wildcard, drop_last_wildcard.
    destruct (String.eqb (prefix +:+ ".*") toolName) eqn:E.
    + apply String.eqb_eq in E. split; [by left | done].
    + apply String.eqb_neq in E. rewrite startsWith_spec. split.
      * intros [rest ->]. right. exists rest. apply append_assoc.
      * intros [-> | [rest ->]]; [done |]. exists rest. symmetry. apply append_assoc.
  - intros pattern Hno. unfold Tools.matchesPattern. rewrite Hno.
    destruct (String.eqb pattern toolName) eqn:E.
    + apply String.eqb_eq in E. by split.
    + apply String.eqb_neq in E. split; [done | intros ->; done].
Qed.

Example enable_pattern_boundary :
  Tools.matchesPattern "fs.read" "fs.*" = true
  /\ Tools.matchesPattern "fs.write" "fs.*" = true
  /\ Tools.matchesPattern "fstab" "fs.*" = false.
Proof. repeat split; reflexivity. Qed.

End RegistryFacts.

(** ** Rollback tracker: captures, diffs and rollbacks *)

Module RollbackMore.

Import Rollback.

Lemma get_of_entry {V} (m : JsMap.t V) k v :
  JsMap.wf m -> In (k, v) m -> JsMap.get m k = Some v.
Proof.
  unfold JsMap.wf. induction m as [|[k0 v0] m IH]; cbn [JsMap.keys List.map fst JsMap.get].
  - intros _ [].
  - intros [Hnotin Hnd]%NoDup_cons [Heq | Hin].
    + injection Heq as -> ->. by rewrite String.eqb_refl.
    + destruct (String.eqb k0 k) eqn:E; [| by apply IH].
      apply String.eqb_eq in E. subst k0. exfalso. apply Hnotin.
      apply list_elem_of_In. change (In k (JsMap.keys m)).
      unfold JsMap.keys. apply in_map_iff. by exists (k, v).
Qed.

Section Tracker.

Variable resolve : string -> string -> string.
Variable createPatch : string -> string -> string -> string.

(** X8. A capture changes the stored pre-state of the captured file under
    the given step and of nothing else, and records no diff. *)
Theorem captureBeforeState_keeps_other_entries (t : RollbackTracker) (fs : FS)
    (stepId filePath cwd otherStep otherPath : string) :
  (otherStep, otherPath) <> (stepId, resolve cwd filePath) ->
  stored (captureBeforeState resolve t fs stepId filePath cwd) otherStep otherPath
  = stored t otherStep otherPath
  /\ diffs (captureBeforeState resolve t fs stepId filePath cwd) = diffs t.
Proof.
  intros Hne. split; [| reflexivity].
  unfold stored, captureBeforeState. cbn [beforeStates].
  destruct (String.eqb stepId otherStep) eqn:E.
  - apply String.eqb_eq in E. subst otherStep.
    assert (Hp : resolve cwd filePath <> otherPath) by congruence.
    rewrite JsMapFacts.get_set_eq. rewrite JsMapFacts.get_set_ne by done.
    unfold JsMap.has.
    destruct (JsMap.get (beforeStates t) stepId) as [b|] eqn:Hget; cbn [negb].
    + by rewrite Hget.
    + by rewrite JsMapFacts.get_set_eq.
  - apply String.eqb_neq in E. rewrite JsMapFacts.get_set_ne by done.
    destruct (negb (JsMap.has (beforeStates t) stepId)); [| done].
    by rewrite JsMapFacts.get_set_ne.
Qed.

(** X9. After a capture, [captureAfterState] records a diff exactly when
    the file's content differs from the captured one; the diff carries
    the captured content as [before] and the current content as
    [after]. For a step that captured nothing it does nothing. *)
Theorem captureAfterState_records_changes (t : RollbackTracker) (fs fs' : FS)
    (stepId filePath cwd : string) :
  let absPath := resolve cwd filePath in
  let old := read_or_empty fs absPath in
  let new := read_or_empty fs' absPath in
  let t1 := captureBeforeState resolve t fs stepId filePath cwd in
  let t2 := captureAfterState resolve createPatch t1 fs' stepId filePath cwd in
  (old = new -> diffs t2 = diffs t)
  /\ (old <> new ->
      diffs t2 = diffs t ++ [ {| file := absPath; before := old; after := new;
                                 patch := createPatch absPath old new |} ])
  /\ (JsMap.get (beforeStates t) stepId = None ->
      captureAfterState resolve createPatch t fs' stepId filePath cwd = t).
Proof.
  intros absPath old new t1 t2.
  assert (Hstored : stored t1 stepId absPath = Some old)
    by apply RollbackFacts.captureBeforeState_stored.
  unfold stored in Hstored.
  destruct (JsMap.get (beforeStates t1) stepId) as [bucket|] eqn:Hbucket; [| discriminate].
  assert (Ht2 : t2 = if negb (String.eqb old new)
                     then {| beforeStates := beforeStates t1;
                             diffs := diffs t1 ++ [ {| file := absPath; before := old;
                                                       after := new;
                                                       patch := createPatch absPath old new |} ] |}
                     else t1).
  { unfold t2, captureAfterState. fold absPath. rewrite Hbucket, Hstored. reflexivity. }
  split; [| split].
  - intros Heq. rewrite Ht2. apply String.eqb_eq in Heq. by rewrite Heq.
  - intros Hne. rewrite Ht2. apply String.eqb_neq in Hne. by rewrite Hne.
  - intros Hnone. unfold captureAfterState. by rewrite Hnone.
Qed.

End Tracker.

Lemma rollbackStep_other (t : RollbackTracker) (fs : FS) (stepId path : string) :
  stored t stepId path = None -> fst (rollbackStep t fs stepId) !! path = fs !! path.
Proof.
  unfold rollbackStep, stored.
  destruct (JsMap.get (beforeStates t) stepId) as [bucket|]; cbn [fst]; [| done].
  intros Hnone. apply RollbackFacts.restore_entries_other.
  by apply JsMapFacts.get_None_keys.
Qed.

Lemma rollbackStep_writable (t : RollbackTracker) (fs : FS) (stepId q : string) :
  writable (fst (rollbackStep t fs stepId)) q = writable fs q.
Proof.
  unfold rollbackStep.
  destruct (JsMap.get (beforeStates t) stepId) as [bucket|]; [| done].
  apply RollbackFacts.restore_entries_writable.
Qed.

(** X10. [rollbackStep] writes the files captured for the step and no
    other: a path without a stored pre-state keeps whatever the disk
    has, also when a write throws, and a list that [rollbackStep]
    returns names exactly the captured paths; it returns one when
    every captured path can be written. *)
Theorem rollbackStep_touches_captured_only (t : RollbackTracker) (fs : FS)
    (stepId path : string) :
  (stored t stepId path = None -> fst (rollbackStep t fs stepId) !! path = fs !! path)
  /\ (forall restored,
        snd (rollbackStep t fs stepId) = Some restored ->
        (In path restored <-> is_Some (stored t stepId path)))
  /\ ((forall q, is_Some (stored t stepId q) -> writable fs q = true) ->
      is_Some (snd (rollbackStep t fs stepId))).
Proof.
  split; [apply rollbackStep_other |].
  unfold rollbackStep, stored.
  destruct (JsMap.get (beforeStates t) stepId) as [bucket|]; cbn [snd].
  - split.
    + intros restored Hsome.
      rewrite (RollbackFacts.restore_entries_restored _ _ _ Hsome). split.
      * intros Hin. destruct (JsMap.get bucket path) eqn:E; [by eexists |].
        apply JsMapFacts.get_None_keys in E. done.
      * intros [v Hv]. by eapply JsMapFacts.get_Some_keys.
    + intros Hall. rewrite RollbackFacts.restore_entries_returns; [by eexists |].
      intros k Hk. apply Hall.
      destruct (JsMap.get bucket k) eqn:E; [by eexists |].
      by apply JsMapFacts.get_None_keys in E.
  - split; [| intros _; by eexists].
    intros restored [= <-]. split; [done | intros [v Hv]; discriminate].
Qed.

(** X11. Rolling a step back twice leaves the disk as after the first
    rollback, with the same outcome: the second rollback writes the
    same contents to the same paths and, where the first one stopped at
    a write that threw, stops at the same write. *)
Theorem rollbackStep_idempotent (t : RollbackTracker) (fs : FS) (stepId : string) :
  tracker_wf t ->
  rollbackStep t (fst (rollbackStep t fs stepId)) stepId = rollbackStep t fs stepId.
Proof.
  intros [_ Hbuckets]. unfold rollbackStep.
  destruct (JsMap.get (beforeStates t) stepId) as [bucket|] eqn:Hget; [| done].
  apply RollbackFacts.restore_entries_again. by eapply Hbuckets.
Qed.

Lemma rollback_steps_app t ids1 ids2 (fs : FS) :
  is_Some (snd (rollback_steps t (ids1 ++ ids2) fs)) ->
  is_Some (snd (rollback_steps t ids1 fs))
  /\ is_Some (snd (rollback_steps t ids2 (fst (rollback_steps t ids1 fs))))
  /\ fst (rollback_steps t (ids1 ++ ids2) fs)
     = fst (rollback_steps t ids2 (fst (rollback_steps t ids1 fs))).
Proof.
  revert fs. induction ids1 as [|sid ids1 IH]; intros fs.
  - cbn [app rollback_steps fst snd]. intros H. split; [by eexists |]. by split.
  - cbn [app rollback_steps].
    destruct (rollbackStep t fs sid) as [fs1 [restored|]];
      [| intros [x Hx]; discriminate].
    specialize (IH fs1).
    destruct (rollback_steps t (ids1 ++ ids2) fs1) as [fsa [ra|]];
      [| intros [x Hx]; discriminate].
    intros _. destruct IH as (H1 & H2 & H3); [by eexists |].
    destruct (rollback_steps t ids1 fs1) as [fsb [rb|]];
      [| destruct H1 as [x Hx]; discriminate].
    cbn [fst snd option_map] in *. split; [by eexists |]. by split.
Qed.

Lemma rollback_steps_untouched t ids (fs : FS) path :
  (forall sid, In sid ids -> stored t sid path = None) ->
  fst (rollback_steps t ids fs) !! path = fs !! path.
Proof.
  revert fs. induction ids as [|sid ids IH]; intros fs Hnone; [done |].
  cbn [rollback_steps].
  pose proof (rollbackStep_other t fs sid path (Hnone sid (or_introl eq_refl))) as Hstep.
  destruct (rollbackStep t fs sid) as [fs1 [restored|]]; [| exact Hstep].
  specialize (IH fs1 (fun s Hs => Hnone s (or_intror Hs))).
  destruct (rollback_steps t ids fs1) as [fs2 more]. cbn [fst] in *. congruence.
Qed.

(** The loop of [rollbackAll] returns when every captured path can be
    written. *)
Lemma rollback_steps_returns t ids (fs : FS) :
  (forall sid b p, In sid ids -> JsMap.get (beforeStates t) sid = Some b ->
                   In p (JsMap.keys b) -> writable fs p = true) ->
  is_Some (snd (rollback_steps t ids fs)).
Proof.
  revert fs. induction ids as [|sid ids IH]; intros fs Hall; [by eexists |].
  cbn [rollback_steps].
  pose proof (rollbackStep_writable t fs sid) as Hw.
  assert (Hstep : is_Some (snd (rollbackStep t fs sid))).
  { unfold rollbackStep.
    destruct (JsMap.get (beforeStates t) sid) as [b|] eqn:Hb; [| by eexists].
    rewrite RollbackFacts.restore_entries_returns; [by eexists |].
    intros k Hk. eapply Hall; [by left | exact Hb | exact Hk]. }
  destruct (rollbackStep t fs sid) as [fs1 [restored|]];
    [| destruct Hstep as [x Hx]; discriminate].
  cbn [fst] in Hw.
  destruct (IH fs1) as [more Hmore].
  { intros s b p Hs Hb Hp. rewrite Hw. eapply Hall; [by right | exact Hb | exact Hp]. }
  destruct (rollback_steps t ids fs1) as [fs2 m]. cbn [snd] in *. subst m.
  by eexists.
Qed.

(** X12. [rollbackAll] undoes the steps from the last to the first, so
    when it returns, a file captured under several steps holds the
    pre-state of the earliest step that captured it. It returns when
    every captured path can be written; a write that throws ends it
    with the steps before that one not rolled back. *)
Theorem rollbackAll_restores_earliest_capture (t : RollbackTracker) (fs : FS)
    (earlier : JsMap.t (JsMap.t string)) (stepId : string) (bucket : JsMap.t string)
    (later : JsMap.t (JsMap.t string)) (path content : string) :
  tracker_wf t ->
  beforeStates t = earlier ++ (stepId, bucket) :: later ->
  JsMap.get bucket path = Some content ->
  (forall s b, In (s, b) earlier -> JsMap.get b path = None) ->
  (is_Some (snd (rollbackAll t fs)) ->
   fst (rollbackAll t fs) !! path = Some (File content))
  /\ ((forall s b p, In (s, b) (beforeStates t) -> In p (JsMap.keys b) ->
                     writable fs p = true) ->
      is_Some (snd (rollbackAll t fs))).
Proof.
  intros [Houter Hbuckets] Hsplit Hget Hearlier.
  assert (Hentry : forall s b, In (s, b) (beforeStates t) ->
                               JsMap.get (beforeStates t) s = Some b)
    by (intros s b; by apply get_of_entry).
  split.
  - assert (Hthis : JsMap.get (beforeStates t) stepId = Some bucket).
    { apply Hentry. rewrite Hsplit. apply in_or_app. right. by left. }
    unfold rollbackAll. rewrite Hsplit. unfold JsMap.keys.
    rewrite map_app. cbn [List.map fst]. rewrite rev_app_distr. cbn [rev].
    rewrite <- app_assoc. cbn [app].
    intros Hreturns.
    apply rollback_steps_app in Hreturns as (_ & Hrest & ->).
    set (fs0 := fst (rollback_steps t (rev (List.map fst later)) fs)) in *.
    cbn [rollback_steps] in *.
    assert (Hstep : forall restored,
               snd (rollbackStep t fs0 stepId) = Some restored ->
               fst (rollbackStep t fs0 stepId) !! path = Some (File content)).
    { unfold rollbackStep. rewrite Hthis. intros restored Hsome.
      eapply RollbackFacts.restore_entries_lookup; [by eapply Hbuckets | done | done]. }
    destruct (rollbackStep t fs0 stepId) as [fs1 [restored|]];
      [| destruct Hrest as [x Hx]; discriminate].
    specialize (Hstep restored eq_refl). cbn [fst] in Hstep.
    assert (Huntouched : fst (rollback_steps t (rev (List.map fst earlier)) fs1) !! path
                         = fs1 !! path).
    { apply rollback_steps_untouched. intros sid Hsid.
      apply in_rev, in_map_iff in Hsid as ([s b] & <- & Hin). cbn [fst].
      unfold stored. rewrite (Hentry s b).
      - by eapply Hearlier.
      - rewrite Hsplit. apply in_or_app. by left. }
    destruct (rollback_steps t (rev (List.map fst earlier)) fs1) as [fs2 more].
    cbn [fst] in *. congruence.
  - intros Hall. unfold rollbackAll. apply rollback_steps_returns.
    intros sid b p Hsid Hb Hp. apply (Hall sid b p); [| exact Hp].
    apply in_rev in Hsid. unfold JsMap.keys in Hsid.
    apply in_map_iff in Hsid as ([s b'] & Hs & Hin). cbn [fst] in Hs. subst s.
    rewrite (Hentry _ _ Hin) in Hb. by injection Hb as <-.
Qed.

(** A capture under a later step of a path in a directory that does
    not exist: the write of that path throws, [rollbackAll] ends there
    and the file captured under the earlier step keeps its changed
    content. *)
Example rollbackAll_stops_at_failed_write :
  rollbackAll MoreScenarios.captured_missing_directory Scenarios.disk_new
  = (Scenarios.disk_new, None).
Proof. vm_compute. reflexivity. Qed.

(** A capture of a path that names a directory, as an [fs.list] step
    makes it: the empty text is stored, and a rollback of the step
    throws at the write and changes nothing. *)
Example rollbackStep_throws_on_directory :
  stored MoreScenarios.captured_directory "s1" "/w" = Some EmptyString
  /\ rollbackStep MoreScenarios.captured_directory Scenarios.disk_new "s1"
     = (Scenarios.disk_new, None).
Proof. split; vm_compute; reflexivity. Qed.

End RollbackMore.

(** ** Redaction and the audit logger's bookkeeping *)

Module RedactionFacts.

Import Secrets.

Lemma replace_from_no_match p s :
  has_match p s = false -> replace_from p 0 s = s.
Proof.
  induction s as [|c r IH]; [done |].
  cbn [has_match replace_from].
  destruct (match_at p (String c r)); [discriminate |].
  intros H. by rewrite IH.
Qed.

Lemma redact_fold_no_match ps s :
  existsb (fun p => has_match p s) ps = false ->
  fold_left (fun result p => replace_all p result) ps s = s.
Proof.
  induction ps as [|p ps IH]; [done |].
  cbn [existsb fold_left]. intros [Hp Hps]%orb_false_elim.
  unfold replace_all at 2. rewrite (replace_from_no_match p s Hp). by apply IH.
Qed.

(** X13. A text in which no pattern of the table matches anywhere comes out
    of [redactSecrets] as it went in. *)
Theorem redactSecrets_keeps_clean_text (text : string) :
  has_secret text = false -> redactSecrets text = text.
Proof. apply redact_fold_no_match. Qed.

Lemma redactSecrets_keeps_clean_text_witness :
  has_secret "status: completed, 3 steps" = false
  /\ redactSecrets "status: completed, 3 steps" = "status: completed, 3 steps".
Proof.
  split; [vm_compute; reflexivity |].
  apply redactSecrets_keeps_clean_text. vm_compute. reflexivity.
Defined.

End RedactionFacts.

Module AuditLogOpsFacts.

Import AuditLog AuditLogOps.

Lemma exclusive_counts (ss : list StepLog) :
  count_steps (fun s => step_status_eqb (sl_status s) st_completed) ss
  + count_steps (fun s => step_status_eqb (sl_status s) st_failed) ss
  + count_steps (fun s => step_status_eqb (sl_status s) st_skipped) ss
  <= List.length ss.
Proof.
  unfold count_steps. induction ss as [|s ss IH]; [done |].
  cbn [List.filter List.length]. destruct (sl_status s); cbn [step_status_eqb List.length]; lia.
Qed.

Lemma verification_counts (ss : list StepLog) :
  count_steps verification_passed ss + count_steps verification_failed ss
  = List.length (List.filter (fun s => bool_decide (is_Some (sl_verification s))) ss).
Proof.
  unfold count_steps. induction ss as [|s ss IH]; [done |].
  cbn [List.filter]. unfold verification_passed at 1, verification_failed at 1.
  destruct (sl_verification s) as [[ok d]|]; cbn [passed negb].
  - rewrite bool_decide_eq_true_2 by eauto.
    destruct ok; cbn [negb List.length]; lia.
  - rewrite bool_decide_eq_false_2 by (intros [? ?]; done). exact IH.
Qed.

Lemma remove_dups_shorter (l : list string) :
  List.length (remove_dups l) <= List.length l.
Proof.
  induction l as [|x l IH]; [done |]. cbn [remove_dups List.length].
  destruct (decide_rel elem_of x l); cbn [List.length]; lia.
Qed.

Section Clock.

Variable parseTime : string -> Z.
Variable nowMs : Z.

(** X14. [complete] stamps the end time and the final status, leaves the
    events, steps and diffs as they are, and attaches a summary whose
    counts add up: the completed, failed and skipped steps are at most
    the steps logged, each step with a verification counts once as
    passed or failed, the files changed are the distinct files of the
    diffs, and the duration is the end time minus the start time. *)
Theorem complete_summary_adds_up (l : AuditLogger) (s : FinalStatus) (nowIso : string) :
  let r := runLog l in
  let r' := runLog (fst (complete parseTime nowMs l s nowIso)) in
  status r' = final_status s
  /\ completedAt r' = Some nowIso
  /\ events r' = events r /\ steps r' = steps r /\ diffs r' = diffs r
  /\ exists sm,
      summary r' = Some sm
      /\ stepsCompleted sm + stepsFailed sm + stepsSkipped sm <= List.length (steps r)
      /\ verificationsPassed sm + verificationsFailed sm
         = List.length (List.filter (fun st => bool_decide (is_Some (sl_verification st)))
                          (steps r))
      /\ filesChanged sm <= List.length (diffs r)
      /\ (exists files,
             NoDup files
             /\ (forall f, f ∈ files <-> f ∈ List.map de_file (diffs r))
             /\ filesChanged sm = List.length files)
      /\ (nowIso <> EmptyString ->
          durationMs sm = (parseTime nowIso - parseTime (startedAt r))%Z).
Proof.
  intros r r'. subst r r'. unfold complete. cbn [fst runLog with_log].
  cbn [status completedAt events steps diffs summary].
  repeat split.
  eexists. split; [reflexivity |].
  unfold buildSummary.
  cbn [stepsCompleted stepsFailed stepsSkipped verificationsPassed verificationsFailed
       filesChanged durationMs steps diffs completedAt startedAt].
  split; [apply exclusive_counts |].
  split; [apply verification_counts |].
  split.
  { etransitivity; [apply remove_dups_shorter |]. by rewrite length_map. }
  split.
  { eexists. split; [apply NoDup_remove_dups |]. split; [| reflexivity].
    intros f. apply elem_of_remove_dups. }
  intros Hne. destruct nowIso; [done | reflexivity].
Qed.

End Clock.

(** X15. [updateStep] changes the first logged step with the given id and
    no other; when no step has the id, the logger stays as it was. The
    number of steps never changes. *)
Theorem updateStep_changes_first_match (l : AuditLogger) (sid : string)
    (u : StepUpdates) :
  ((forall s, In s (steps (runLog l)) -> sl_stepId s <> sid) ->
   updateStep l sid u = l)
  /\ (forall pre s post,
        steps (runLog l) = pre ++ s :: post ->
        sl_stepId s = sid ->
        (forall x, In x pre -> sl_stepId x <> sid) ->
        steps (runLog (updateStep l sid u)) = pre ++ assign s u :: post)
  /\ List.length (steps (runLog (updateStep l sid u))) = List.length (steps (runLog l)).
Proof.
  split; [| split].
  - intros Hnone.
    assert (H : update_first (steps (runLog l)) sid u = steps (runLog l)).
    { induction (steps (runLog l)) as [|s ss IH]; [done |].
      cbn [update_first].
      destruct (String.eqb (sl_stepId s) sid) eqn:E.
      - apply String.eqb_eq in E. exfalso. by apply (Hnone s); [left |].
      - rewrite IH; [done |]. intros x Hx. apply Hnone. by right. }
    unfold updateStep. rewrite H. by destruct l as [[] ?].
  - intros pre s post Hsteps Hs Hpre. unfold updateStep. cbn [runLog with_log steps with_steps].
    rewrite Hsteps. clear Hsteps.
    induction pre as [|x pre IH]; cbn [app update_first].
    + apply String.eqb_eq in Hs. by rewrite Hs.
    + destruct (String.eqb (sl_stepId x) sid) eqn:E.
      * apply String.eqb_eq in E. exfalso. by apply (Hpre x); [left |].
      * rewrite IH; [done |]. intros y Hy. apply Hpre. by right.
  - unfold updateStep. cbn [runLog with_log steps with_steps].
    induction (steps (runLog l)) as [|s ss IH]; [done |].
    cbn [update_first]. destruct (String.eqb (sl_stepId s) sid); cbn [List.length]; congruence.
Qed.

End AuditLogOpsFacts.

(** ** Skill runner: templating, tool calls, failures *)

Module SkillsMore.

Import Skills.

Lemma includes_char_cons x c s :
  Str.includes (String x EmptyString) (String c s)
  = Ascii.eqb x c || Str.includes (String x EmptyString) s.
Proof.
  change (Str.includes (String x EmptyString) (String c s))
    with (Str.startsWith (String x EmptyString) (String c s)
          || Str.includes (String x EmptyString) s).
  f_equal. unfold Str.startsWith.
  change (Str.strip_prefix (String x EmptyString) (String c s))
    with (if Ascii.eqb x c then Str.strip_prefix EmptyString s else None).
  destruct (Ascii.eqb x c); [by destruct s | done].
Qed.

Lemma split_first_none p s :
  Str.includes p s = false -> Str.split_first p s = None.
Proof.
  induction s as [|c s IH]; cbn [Str.includes Str.split_first]; unfold Str.startsWith.
  - destruct (Str.strip_prefix p EmptyString); [discriminate | done].
  - destruct (Str.strip_prefix p (String c s)); [discriminate |].
    cbn [orb]. intros H. by rewrite IH.
Qed.

Lemma strip_prefix_sound p s rest :
  Str.strip_prefix p s = Some rest -> s = p +:+ rest.
Proof.
  revert s. induction p as [|a p IH]; intros s; cbn [Str.strip_prefix].
  - by intros [= ->].
  - destruct s as [|b s]; [discriminate |].
    destruct (Ascii.eqb a b) eqn:E; [| discriminate].
    apply Ascii.eqb_eq in E. subst b. intros H.
    rewrite RegistryFacts.append_cons. f_equal. by apply IH.
Qed.

Lemma split_first_sound p s before after :
  Str.split_first p s = Some (before, after) -> s = before +:+ p +:+ after.
Proof.
  revert before. induction s as [|c s IH]; intros before; cbn [Str.split_first].
  - destruct (Str.strip_prefix p EmptyString) eqn:E; [| discriminate].
    intros [= <- <-]. rewrite RegistryFacts.append_nil. by apply strip_prefix_sound.
  - destruct (Str.strip_prefix p (String c s)) eqn:E.
    + intros [= <- <-]. rewrite RegistryFacts.append_nil. by apply strip_prefix_sound.
    + destruct (Str.split_first p s) as [[b a]|]; [| discriminate].
      intros [= <- <-]. rewrite RegistryFacts.append_cons. f_equal. by apply IH.
Qed.

Lemma expand_replacement_plain matched before after repl :
  Str.includes "$" repl = false ->
  expand_replacement matched before after repl = repl.
Proof.
  induction repl as [|c r IH]; [done |].
  rewrite includes_char_cons. intros [Hc Hr]%orb_false_elim.
  cbn [expand_replacement]. rewrite Ascii.eqb_sym, Hc. by rewrite IH.
Qed.

(** X16. The templating loop leaves a prompt alone when it holds no
    placeholder of any input; and for one input it replaces the first
    placeholder by the value as written, provided the value holds no
    dollar sign (a dollar sign starts a replacement pattern). *)
Theorem renderPrompt_substitution (prompt : string) :
  (forall inputs,
      (forall kv, In kv inputs -> Str.includes (placeholder (fst kv)) prompt = false) ->
      renderPrompt prompt inputs = prompt)
  /\ (forall key value before after,
      Str.split_first (placeholder key) prompt = Some (before, after) ->
      Str.includes "$" (to_String value) = false ->
      prompt = before +:+ placeholder key +:+ after
      /\ renderPrompt prompt [(key, value)] = before +:+ to_String value +:+ after).
Proof.
  split.
  - intros inputs. unfold renderPrompt.
    induction inputs as [|kv inputs IH]; [done |]. intros Hnone.
    cbn [fold_left]. unfold js_replace at 2.
    rewrite split_first_none by (apply Hnone; by left).
    apply IH. intros x Hx. apply Hnone. by right.
  - intros key value before after Hsplit Hplain. split.
    + by apply split_first_sound.
    + unfold renderPrompt. cbn [fold_left fst snd]. unfold js_replace.
      rewrite Hsplit. by rewrite expand_replacement_plain.
Qed.

Lemma renderPrompt_substitution_witness :
  renderPrompt "Summarise {{file}} in {{lang}}" [("file", JStr "a.txt")]
  = "Summarise a.txt in {{lang}}".
Proof.
  exact (proj2 (proj2 (renderPrompt_substitution "Summarise {{file}} in {{lang}}")
                  "file" (JStr "a.txt") "Summarise " " in {{lang}}" eq_refl eq_refl)).
Defined.

Section Loop.

Variable W : Type.
Variable chat : list LLMMessage -> list LLMToolDefinition -> string -> ChatOutcome.
Variable importWorkflow : string -> string + (json -> Workflow).
Variable execValidator : ValidatorConfig -> string -> W -> W * (bool * string).
Variable registry : Tools.ToolRegistry W.

(** X17. The workflow executor dispatches a tool only when the skill
    declares it: every call that a workflow run adds to the record is
    of a declared tool. *)
Theorem workflow_dispatches_declared_tools_only (skill : LoadedSkill)
    (inputs : list (string * json)) (ctx : Policy.ExecutionContext)
    (st : RunState W) :
  exists added,
    toolCallsOut W (fst (runWorkflowSkill W importWorkflow registry skill inputs ctx st))
    = toolCallsOut W st ++ added
    /\ forall r, In r added -> In (rec_tool r) (sk_tools (manifest skill)).
Proof.
  unfold runWorkflowSkill.
  destruct (importWorkflow _) as [msg | wf].
  { exists []. split; [by rewrite app_nil_r | intros r []]. }
  generalize (wf (JObj inputs)). clear wf. intros wf. revert st.
  induction wf as [out | msg | toolName args k IH]; intros st; cbn [run_workflow].
  - exists []. split; [by rewrite app_nil_r | intros r []].
  - exists []. split; [by rewrite app_nil_r | intros r []].
  - destruct (existsb (String.eqb toolName) (sk_tools (manifest skill))) eqn:E; cbn [negb].
    + destruct (Tools.registry_execute _ _ _ _ _) as [w' result].
      match goal with
      | |- context [run_workflow W registry skill ctx (k result) ?s] =>
          destruct (IH result s) as (added & Hadded & Hall)
      end.
      rewrite Hadded. cbn [toolCallsOut]. rewrite <- app_assoc.
      eexists. split; [reflexivity |].
      intros r [<- | Hr]; [| by apply Hall].
      cbn [rec_tool]. apply existsb_exists in E as (x & Hx & Heq).
      apply String.eqb_eq in Heq. by subst.
    + apply IH.
Qed.

Lemma push_message_messages st m :
  messages W (push_message W st m) = messages W st ++ [m].
Proof. reflexivity. Qed.

Lemma handle_tool_call_answer skill ctx st tc :
  exists m,
    messages W (handle_tool_call W registry skill ctx st tc) = messages W st ++ [m]
    /\ role m = tool_role /\ toolCallId m = Some (tc_id tc).
Proof.
  unfold handle_tool_call.
  destruct (Tools.get registry (tc_name tc)) as [tool|]; [| by eexists].
  destruct (Policy.checkPermission _ _ _) as [permResult evs].
  destruct (negb (Policy.allowed permResult) && Policy.requiresApproval permResult).
  - destruct (Policy.requestApproval _ _ _) as [[approved e'] evs'].
    destruct approved; [| by eexists].
    unfold dispatch. destruct (Tools.registry_execute _ _ _ _ _). by eexists.
  - destruct (negb (Policy.allowed permResult)); [by eexists |].
    unfold dispatch. destruct (Tools.registry_execute _ _ _ _ _). by eexists.
Qed.

(** X18. Every tool call of a response gets one tool message, in the order
    of the calls and under the id of its call, whether the call was
    dispatched, refused or unknown. *)
Theorem every_tool_call_is_answered (skill : LoadedSkill)
    (ctx : Policy.ExecutionContext) (tcs : list LLMToolCall) (st : RunState W) :
  exists answers,
    messages W (fold_left (handle_tool_call W registry skill ctx) tcs st)
    = messages W st ++ answers
    /\ List.map toolCallId answers = List.map (fun tc => Some (tc_id tc)) tcs
    /\ Forall (fun m => role m = tool_role) answers.
Proof.
  revert st. induction tcs as [|tc tcs IH]; intros st; cbn [fold_left].
  - exists []. by rewrite app_nil_r.
  - destruct (handle_tool_call_answer skill ctx st tc) as (m & Hm & Hrole & Hid).
    destruct (IH (handle_tool_call W registry skill ctx st tc)) as (answers & Ha & Hids & Hroles).
    exists (m :: answers). rewrite Ha, Hm, <- app_assoc. split; [done |].
    split; [cbn [List.map]; by rewrite Hid, Hids | by constructor].
Qed.

(** X19. A call that the policy does not allow and for which no approval is
    given is answered with an error and not dispatched: the world, the
    record of tool calls and the session approvals stay as they were.
    The same holds for a call of a tool that is not registered. *)
Theorem refused_call_is_not_dispatched (skill : LoadedSkill)
    (ctx : Policy.ExecutionContext) (st : RunState W) (tc : LLMToolCall) :
  (forall tool,
      Tools.get registry (tc_name tc) = Some tool ->
      let act := skill_action W skill tc tool in
      let verdict := fst (Policy.checkPermission (policy W st) act ctx) in
      Policy.allowed verdict = false ->
      (Policy.requiresApproval verdict = true ->
       fst (fst (Policy.requestApproval (policy W st) act ctx)) = false) ->
      world W (handle_tool_call W registry skill ctx st tc) = world W st
      /\ toolCallsOut W (handle_tool_call W registry skill ctx st tc) = toolCallsOut W st
      /\ policy W (handle_tool_call W registry skill ctx st tc) = policy W st)
  /\ (Tools.get registry (tc_name tc) = None ->
      world W (handle_tool_call W registry skill ctx st tc) = world W st
      /\ toolCallsOut W (handle_tool_call W registry skill ctx st tc) = toolCallsOut W st
      /\ policy W (handle_tool_call W registry skill ctx st tc) = policy W st).
Proof.
  split.
  - intros tool Hget act verdict Hdenied Hrefused. unfold handle_tool_call. rewrite Hget.
    fold act. subst verdict.
    destruct (Policy.checkPermission (policy W st) act ctx) as [permResult evs].
    cbn [fst] in *. rewrite Hdenied. cbn [negb andb].
    destruct (Policy.requiresApproval permResult).
    + cbn [with_policy policy].
      pose proof (PolicyOutcomes.refused_request_grants_nothing (policy W st) act ctx)
        as [Hsame _].
      destruct (Policy.requestApproval (policy W st) act ctx) as [[approved e'] evs'] eqn:Hreq.
      cbn [fst] in Hrefused. rewrite (Hrefused eq_refl) in *.
      by rewrite (Hsame e' evs' eq_refl).
    + done.
  - intros Hnone. unfold handle_tool_call. by rewrite Hnone.
Qed.

Lemma agentic_loop_returns_without_throw skill ctx :
  (forall msgs tools skillName msg, chat msgs tools skillName <> ChatThrows msg) ->
  forall n st, exists out,
    snd (agentic_loop W chat registry skill ctx n st) = inr out.
Proof.
  intros Hchat. induction n as [|n IH]; intros st; cbn [agentic_loop]; [by eexists |].
  destruct (chat (messages W st) (toolDefs W registry skill) (sk_name (manifest skill)))
    as [text [[|tc more]|] | msg] eqn:E.
  - by eexists.
  - apply IH.
  - by eexists.
  - by apply Hchat in E.
Qed.

(** X20. How a skill run fails or succeeds. A skill without a usable
    entrypoint (an empty prompt counts as none) fails with an error and
    calls neither the model nor a tool. A prompt-driven skill whose
    model call throws fails with the thrown message, with no tool and
    no validator run. While the model never throws, a prompt-driven
    skill reports no error and its [success] is the conjunction of the
    validators' verdicts. *)
Theorem skill_run_outcomes (skill : LoadedSkill) (inputs : list (string * json))
    (ctx : Policy.ExecutionContext) (w : W) (e : Policy.PolicyEngine) :
  let r := run W chat importWorkflow execValidator registry skill inputs ctx w e in
  (truthy (promptContent skill) = false ->
   truthy (workflowPath skill) = false ->
   success (snd r) = false
   /\ error (snd r)
      = Some ("Skill " +:+ Policy.quoted (sk_name (manifest skill))
              +:+ " has no valid entrypoint")
   /\ llmCalls W (fst r) = 0 /\ world W (fst r) = w /\ toolCallLog (snd r) = [])
  /\ (truthy (promptContent skill) = true ->
      forall msg,
        (forall msgs tools skillName, chat msgs tools skillName = ChatThrows msg) ->
        success (snd r) = false /\ error (snd r) = Some msg
        /\ llmCalls W (fst r) = 1 /\ world W (fst r) = w
        /\ toolCallLog (snd r) = [] /\ validatorResults (snd r) = None)
  /\ (truthy (promptContent skill) = true ->
      (forall msgs tools skillName msg, chat msgs tools skillName <> ChatThrows msg) ->
      error (snd r) = None
      /\ exists results,
          validatorResults (snd r) = Some results
          /\ success (snd r) = forallb vr_passed results).
Proof.
  intros r. subst r. split; [| split].
  - intros Hp Hw. unfold run. rewrite Hp, Hw. by cbn.
  - intros Hp msg Hthrows. unfold run. rewrite Hp.
    unfold runPromptSkill, maxIterations. cbn [agentic_loop]. rewrite Hthrows. by cbn.
  - intros Hp Hnever. unfold run. rewrite Hp.
    match goal with
    | |- context [runPromptSkill W chat registry skill inputs ctx ?s] =>
        destruct (agentic_loop_returns_without_throw skill ctx Hnever maxIterations
                    {| world := world W s; policy := policy W s;
                       messages :=
                         [ {| role := system;
                              content := renderPrompt (default EmptyString (promptContent skill)) inputs;
                              toolCallId := None; toolCalls := None |};
                           {| role := user;
                              content := "Execute this skill with inputs: "
                                         +:+ stringify_compact (JObj inputs);
                              toolCallId := None; toolCalls := None |} ];
                       toolCallsOut := toolCallsOut W s; emitted := emitted W s;
                       llmCalls := llmCalls W s |}) as [out Hout];
        change (snd (runPromptSkill W chat registry skill inputs ctx s) = inr out) in Hout;
        destruct (runPromptSkill W chat registry skill inputs ctx s) as [st1 outcome]
    end.
    cbn [snd] in Hout. subst outcome.
    destruct (runValidators W execValidator skill (Policy.cwd ctx) (world W st1))
      as [w' results].
    cbn [snd error validatorResults success]. split; [done |].
    exists results. split; [done |].
    destruct results; cbn [forallb List.length Nat.eqb]; [done | by rewrite orb_false_r].
Qed.

End Loop.

Lemma skill_run_outcomes_witness :
  Skills.error (snd Scenarios.prompt_run_writes) = None
  /\ Skills.success (snd Scenarios.prompt_run_writes) = true.
Proof.
  destruct (proj2 (proj2 (skill_run_outcomes Scenarios.Journal Scenarios.chat_writes_once
                            Scenarios.no_workflow Scenarios.validator_passes
                            Scenarios.registry Scenarios.reader_skill
                            Scenarios.file_input Scenarios.ctx_plain [] Scenarios.allow_fs))
              eq_refl) as [Herr _].
  - intros msgs tools nm msg. unfold Scenarios.chat_writes_once.
    destruct (existsb _ _); discriminate.
  - split; [exact Herr | vm_compute; reflexivity].
Defined.

End SkillsMore.

(** ** Plan runner: what every run keeps *)

Module PlansMore.

Import Plans.

Lemma update_run_ids rs sid f :
  (forall r, stepId (f r) = stepId r) ->
  List.map stepId (update_run rs sid f) = List.map stepId rs.
Proof.
  intros Hf. induction rs as [|r rs IH]; [done |]. cbn [update_run].
  destruct (String.eqb (stepId r) sid); cbn [List.map]; by rewrite ?Hf, ?IH.
Qed.

Lemma find_run_in rs sid r : find_run rs sid = Some r -> In r rs.
Proof.
  induction rs as [|x rs IH]; cbn [find_run]; [discriminate |].
  destruct (String.eqb (stepId x) sid); [intros [= ->]; by left | right; by apply IH].
Qed.

Section Runner.

Variable W : Type.
Variable executeStep : PlanStep -> W -> W * StepResult.
Variable verifyStep : VerifyConfig -> W -> W * AuditLog.Verification.

Local Abbreviation run_steps := (run_steps W executeStep verifyStep).
Local Abbreviation attempt_step := (attempt_step W executeStep verifyStep).
Local Abbreviation retry_loop := (retry_loop W executeStep).
Local Abbreviation ids st := (List.map stepId (steps (planRun W st))).
Local Abbreviation run_status st := (runStatus (planRun W st)).

Lemma update_step_ids st sid f :
  (forall r, stepId (f r) = stepId r) -> ids (update_step W st sid f) = ids st.
Proof. intros Hf. unfold update_step. cbn [planRun with_steps steps]. by apply update_run_ids. Qed.

Ltac step_ids :=
  repeat first
    [ progress cbn [planRun emit steps runStatus]
    | rewrite update_step_ids by done ].

Lemma attempt_step_keeps st step :
  ids (attempt_step step st) = ids st
  /\ run_status (attempt_step step st) = run_status st.
Proof.
  unfold Plans.attempt_step, call_execute, emit_step_end.
  cbn [world emit update_step with_steps].
  destruct (executeStep step (world W st)) as [w1 r].
  unfold verify_after.
  destruct (verify step) as [v|]; [| split; [by step_ids | done]].
  destruct (success r); [| split; [by step_ids | done]].
  unfold call_verify. cbn [world update_step with_steps].
  destruct (verifyStep v w1) as [w2 verdict].
  destruct (negb (AuditLog.passed verdict)); (split; [by step_ids | done]).
Qed.

Lemma retry_loop_keeps step n st :
  ids (fst (retry_loop step n st)) = ids st
  /\ run_status (fst (retry_loop step n st)) = run_status st
  /\ (snd (retry_loop step n st) = false ->
      steps (planRun W (fst (retry_loop step n st))) = steps (planRun W st)).
Proof.
  revert st. induction n as [|n IH]; intros st; cbn [Plans.retry_loop]; [done |].
  unfold call_execute. destruct (executeStep step (world W st)) as [w1 r].
  destruct (success r).
  - cbn [fst snd]. split; [by step_ids | split; [done | discriminate]].
  - match goal with
    | |- context [retry_loop step n ?s] => destruct (IH s) as (H1 & H2 & H3)
    end.
    rewrite H1, H2. split; [done | split; [done |]]. intros Hno. by rewrite (H3 Hno).
Qed.

Lemma mark_skipped_keeps st step deps :
  ids (mark_skipped W st step deps) = ids st
  /\ run_status (mark_skipped W st step deps) = run_status st.
Proof. unfold mark_skipped. split; [by step_ids | done]. Qed.

Lemma current_status_failed st step :
  current_status W st step = failed ->
  exists r, In r (steps (planRun W st)) /\ status r = failed.
Proof.
  unfold current_status, status_of.
  destruct (find_run (steps (planRun W st)) (id step)) as [r|] eqn:E; cbn; [| discriminate].
  intros H. exists r. split; [by eapply find_run_in | done].
Qed.

Lemma run_steps_keeps todo st :
  ids (run_steps todo st) = ids st
  /\ (run_status (run_steps todo st) = run_status st
      \/ (run_status (run_steps todo st) = run_failed
          /\ exists r, In r (steps (planRun W (run_steps todo st))) /\ status r = failed)).
Proof.
  revert st. induction todo as [|step rest IH]; intros st; cbn [Plans.run_steps].
  { split; [done | by left]. }
  destruct (Nat.ltb 0 (List.length (unmet_deps W st step))).
  { destruct (IH (mark_skipped W st step (unmet_deps W st step))) as [H1 H2].
    destruct (mark_skipped_keeps st step (unmet_deps W st step)) as [H3 H4].
    rewrite H1, H3, <- H4. by split. }
  destruct (attempt_step_keeps st step) as [Hids Hstatus].
  set (st6 := attempt_step step st) in *.
  assert (Hcont : ids (run_steps rest st6) = ids st
                  /\ (run_status (run_steps rest st6) = run_status st
                      \/ (run_status (run_steps rest st6) = run_failed
                          /\ exists r, In r (steps (planRun W (run_steps rest st6)))
                                       /\ status r = failed))).
  { destruct (IH st6) as [H1 H2]. rewrite H1, Hids, <- Hstatus. by split. }
  destruct (status_eqb (current_status W st6 step) failed) eqn:Hfailed; [| exact Hcont].
  assert (Hnow : current_status W st6 step = failed)
    by (destruct (current_status W st6 step); done).
  destruct (current_status_failed st6 step Hnow) as (r & Hr & Hrf).
  destruct (default abort (onFailure step)).
  - destruct (Z.ltb 0 (default 0%Z (retries step))); [| exact Hcont].
    destruct (retry_loop_keeps step (Z.to_nat (default 0%Z (retries step))) st6)
      as (H1 & H2 & H3).
    destruct (retry_loop step (Z.to_nat (default 0%Z (retries step))) st6)
      as [st7 retried]. cbn [fst snd] in *.
    destruct retried.
    + destruct (IH st7) as [H4 H5]. rewrite H4, H1, Hids, <- Hstatus, <- H2. by split.
    + cbn [with_run_status planRun steps runStatus]. split; [by rewrite H1 |].
      right. split; [done |]. rewrite (H3 eq_refl). eauto.
  - exact Hcont.
  - cbn [with_run_status planRun steps runStatus]. split; [done |].
    right. split; [done | eauto].
Qed.

(** X21. A run keeps one entry per step of the plan, in plan order and under
    the step's id; it ends [completed] or [failed], never in another
    state; and a run that ends [failed] has an entry that is
    [failed]. *)
Theorem run_keeps_entries_and_ends (plan : Plan) (rid : string) (w : W) :
  let final := run W executeStep verifyStep plan rid w in
  List.map stepId (steps (planRun W final)) = List.map id (planSteps plan)
  /\ (runStatus (planRun W final) = run_completed
      \/ runStatus (planRun W final) = run_failed)
  /\ (runStatus (planRun W final) = run_failed ->
      exists r, In r (steps (planRun W final)) /\ status r = failed).
Proof.
  intros final. subst final. unfold run.
  match goal with
  | |- context [run_steps (planSteps plan) ?s] => set (st0 := s)
  end.
  destruct (run_steps_keeps (planSteps plan) st0) as [Hids Hstatus].
  assert (Hids0 : ids st0 = List.map id (planSteps plan)).
  { unfold st0. cbn [planRun steps]. rewrite map_map. reflexivity. }
  assert (Hrun0 : run_status st0 = run_running) by reflexivity.
  destruct Hstatus as [Hsame | [Hfailed Hexists]].
  - rewrite Hrun0 in Hsame. rewrite Hsame.
    cbn [emit planRun with_run_status steps runStatus].
    split; [by rewrite Hids, Hids0 |]. split; [by left | discriminate].
  - rewrite Hfailed. cbn [emit planRun steps runStatus].
    split; [by rewrite Hids, Hids0 |]. split; [by right | done].
Qed.

Lemma retry_loop_all_fail step n st :
  (forall w', success (snd (executeStep step w')) = false) ->
  snd (retry_loop step n st) = false
  /\ calls W (fst (retry_loop step n st)) = calls W st ++ repeat (CallExecute (id step)) n.
Proof.
  intros Hfail. revert st. induction n as [|n IH]; intros st; cbn [Plans.retry_loop].
  - cbn. by rewrite app_nil_r.
  - unfold call_execute. pose proof (Hfail (world W st)) as Hf.
    destruct (executeStep step (world W st)) as [w1 r]. cbn [snd] in Hf. rewrite Hf.
    match goal with
    | |- context [retry_loop step n ?s] => destruct (IH s) as [H1 H2]
    end.
    split; [done |]. rewrite H2. cbn [calls repeat]. by rewrite <- app_assoc.
Qed.

(** X22. The first step of a plan, with no dependencies, whose execution
    fails. Under [onFailure: abort] (the default) the run ends
    [failed] after that one call of the engine and every later step
    stays [pending]. Under [onFailure: retry] with [retries = n > 0]
    and an execution that keeps failing, the engine is called [1 + n]
    times for the step and for no other, and the run ends [failed] with
    the later steps [pending]. *)
Theorem failing_first_step_ends_run (s : PlanStep) (rest : list PlanStep)
    (nm rid : string) (w : W) :
  (dependsOn s = None \/ dependsOn s = Some []) ->
  (forall w', success (snd (executeStep s w')) = false) ->
  let final := run W executeStep verifyStep {| planName := nm; planSteps := s :: rest |} rid w in
  forall attempts,
    (default abort (onFailure s) = abort /\ attempts = 1
     \/ default abort (onFailure s) = retry
        /\ (0 < default 0 (retries s))%Z
        /\ attempts = S (Z.to_nat (default 0%Z (retries s)))) ->
    runStatus (planRun W final) = run_failed
    /\ calls W final = repeat (CallExecute (id s)) attempts
    /\ option_map status (find_run (steps (planRun W final)) (id s)) = Some failed
    /\ List.map status (skipn 1 (steps (planRun W final)))
       = List.map (fun _ => pending) rest.
Proof.
  intros Hdeps Hfail final attempts Hpolicy. subst final. unfold run.
  cbn [planSteps planName List.map].
  match goal with
  | |- context [run_steps (s :: rest) ?x] => set (st0 := x)
  end.
  destruct (PlansFacts.attempt_step_failed W executeStep verifyStep s st0
              (Hfail (world W st0))) as (Hsteps6 & Hrun6 & Hcalls6).
  cbn [Plans.run_steps].
  assert (Hd : unmet_deps W st0 s = []).
  { unfold unmet_deps. by destruct Hdeps as [-> | ->]. }
  rewrite Hd. cbn [List.length Nat.ltb Nat.leb].
  set (st6 := attempt_step s st0) in *.
  set (rA := record_result (snd (executeStep s (world W st0)))
               (set_status running (fresh_entry s))).
  assert (HrA : status rA = failed).
  { unfold rA, record_result. cbn. by rewrite Hfail. }
  assert (Hsteps6' : steps (planRun W st6) = rA :: List.map fresh_entry rest).
  { rewrite Hsteps6. unfold st0. cbn [steps planRun update_run stepId fresh_entry set_status].
    rewrite !String.eqb_refl. cbn [update_run stepId set_status].
    by rewrite !String.eqb_refl. }
  assert (Hnow : current_status W st6 s = failed).
  { unfold current_status, status_of. rewrite Hsteps6'. cbn [find_run].
    change (stepId rA) with (id s). rewrite String.eqb_refl. cbn. exact HrA. }
  rewrite Hnow. cbn [status_eqb].
  assert (Hfind : forall rs, option_map status (find_run (rA :: rs) (id s)) = Some failed).
  { intros rs. cbn [find_run]. change (stepId rA) with (id s).
    rewrite String.eqb_refl. cbn [option_map]. by rewrite HrA. }
  destruct Hpolicy as [[Habort ->] | (Hretry & Hn & ->)].
  - rewrite Habort. cbn [emit with_run_status planRun steps runStatus calls].
    rewrite Hsteps6', Hcalls6. cbn [skipn]. rewrite Hfind, skipn_O, map_map.
    repeat split; reflexivity.
  - rewrite Hretry. apply Z.ltb_lt in Hn. rewrite Hn.
    destruct (retry_loop_all_fail s (Z.to_nat (default 0%Z (retries s))) st6 Hfail)
      as [Hno Hcalls7].
    destruct (retry_loop_keeps s (Z.to_nat (default 0%Z (retries s))) st6)
      as (_ & _ & Hsteps7).
    destruct (retry_loop s (Z.to_nat (default 0%Z (retries s))) st6) as [st7 retried].
    cbn [fst snd] in *. subst retried.
    cbn [emit with_run_status planRun steps runStatus calls].
    rewrite (Hsteps7 eq_refl), Hsteps6', Hcalls7, Hcalls6. cbn [skipn].
    rewrite Hfind, skipn_O, map_map. repeat split; reflexivity.
Qed.

End Runner.

Lemma failing_first_step_ends_run_witness :
  Plans.runStatus
    (Plans.planRun _
       (Plans.run unit Scenarios.exec_A_fails Scenarios.verify_passes
          {| planName := "abort"; planSteps := [Scenarios.plain_step "A";
                                                 Scenarios.plain_step "B"] |}
          "run-3" tt))
  = run_failed.
Proof.
  refine (proj1 (failing_first_step_ends_run unit Scenarios.exec_A_fails
                   Scenarios.verify_passes (Scenarios.plain_step "A")
                   [Scenarios.plain_step "B"] "abort" "run-3" tt _ _ 1 _)).
  - left. reflexivity.
  - intros w'. reflexivity.
  - left. split; reflexivity.
Defined.

End PlansMore.

(** ** Execution engine: tool steps and verification *)

Module EngineFacts.

Import Engine.

Section Executor.

Variable W : Type.
Variable disk : W -> Rollback.FS.
Variable resolve : string -> string -> string.
Variable createPatch : string -> string -> string -> string.
Variable resolveTypeError : json -> string.
Variable chat : list Skills.LLMMessage -> list Skills.LLMToolDefinition -> string
                -> Skills.ChatOutcome.
Variable importWorkflow : string -> string + (json -> Skills.Workflow).
Variable execValidator : Skills.ValidatorConfig -> string -> W -> W * (bool * string).
Variable execFile : string -> list string -> string -> W -> W * (string + string).
Variable fileCheck : string -> string -> W -> bool.
Variable registry : Tools.ToolRegistry W.
Variable skillLoader : JsMap.t Skills.LoadedSkill.

Local Abbreviation executeStep :=
  (executeStep W disk resolve createPatch resolveTypeError chat importWorkflow
     execValidator registry skillLoader).
Local Abbreviation verify := (verify W execFile fileCheck).

(** X24. What [verify] checks. The expected exit code plays no part in the
    verdict: two clauses that differ in [exitCode] only pass or fail
    together. A clause without a command and without a file passes
    with empty details and runs nothing. A command that cannot be run
    or exits with an error fails the clause, and so does an output
    that lacks the expected text. *)
Theorem verify_checks (v : Plans.VerifyConfig) (ctx : Policy.ExecutionContext)
    (st : EngineState W) :
  (forall v',
      Plans.command v' = Plans.command v ->
      Plans.fileExists v' = Plans.fileExists v ->
      Plans.contains v' = Plans.contains v ->
      AuditLog.passed (snd (verify v' ctx st)) = AuditLog.passed (snd (verify v ctx st))
      /\ fst (verify v' ctx st) = fst (verify v ctx st))
  /\ (Skills.truthy (Plans.command v) = false ->
      Skills.truthy (Plans.fileExists v) = false ->
      snd (verify v ctx st)
      = {| AuditLog.passed := true; AuditLog.details := EmptyString |}
      /\ world W (fst (verify v ctx st)) = world W st)
  /\ (forall cmd w' outcome,
      Plans.command v = Some cmd -> cmd <> EmptyString ->
      execFile (hd EmptyString (split_spaces cmd)) (tl (split_spaces cmd))
        (Policy.cwd ctx) (world W st) = (w', outcome) ->
      match outcome with
      | inl msg => AuditLog.passed (snd (verify v ctx st)) = false
      | inr output =>
          forall expected,
            Plans.contains v = Some expected -> expected <> EmptyString ->
            Str.includes expected output = false ->
            AuditLog.passed (snd (verify v ctx st)) = false
      end).
Proof.
  split; [| split].
  - intros v' Hc Hf Hx. unfold Engine.verify, verify_command, verify_file.
    rewrite Hc, Hf, Hx.
    destruct (Plans.command v) as [[|c rest]|]; [done | | done].
    destruct (execFile _ _ _ _) as [w' [msg | output]]; [done |].
    destruct (Plans.contains v) as [[|d more]|].
    + destruct (Plans.fileExists v) as [[|? ?]|]; [done | | done].
      by destruct (fileCheck _ _ _).
    + destruct (negb (Str.includes (String d more) output));
        (destruct (Plans.fileExists v) as [[|? ?]|]; [done | | done];
         by destruct (fileCheck _ _ _)).
    + destruct (Plans.fileExists v) as [[|? ?]|]; [done | | done].
      by destruct (fileCheck _ _ _).
  - intros Hc Hf. unfold Engine.verify, verify_command, verify_file.
    destruct (Plans.command v) as [[|c rest]|]; try discriminate;
      destruct (Plans.fileExists v) as [[|? ?]|]; try discriminate; done.
  - intros cmd w' outcome Hcmd Hne Hexec. unfold Engine.verify, verify_command.
    rewrite Hcmd. destruct cmd as [|c rest]; [done |]. rewrite Hexec.
    destruct outcome as [msg | output].
    + by destruct (verify_file W fileCheck v (Policy.cwd ctx) w').
    + intros expected Hexp Hne' Hmiss. rewrite Hexp.
      destruct expected as [|d more]; [done |]. rewrite Hmiss. cbn [negb].
      by destruct (verify_file W fileCheck v (Policy.cwd ctx) w').
Qed.

(** X25. A tool step that the policy does not allow, and for which no
    approval is given, fails without a trace outside the audit events:
    the tool does not run, the world and the rollback tracker stay as
    they were, and no session approval is added. *)
Theorem refused_tool_step_changes_nothing (elapsed : Z) (step : Plans.PlanStep)
    (ctx : Policy.ExecutionContext) (st : EngineState W)
    (tool : Tools.ToolDefinition W) :
  Skills.truthy (Plans.skill step) = false ->
  Skills.truthy (Plans.tool step) = true ->
  Tools.get registry (tool_name step) = Some tool ->
  let act := step_action W step tool in
  let verdict := fst (Policy.checkPermission (policy W st) act ctx) in
  Policy.allowed verdict = false ->
  (Policy.requiresApproval verdict = true ->
   fst (fst (Policy.requestApproval (policy W st) act ctx)) = false) ->
  let result := executeStep elapsed step ctx st in
  Plans.success (snd result) = false
  /\ world W (fst result) = world W st
  /\ rollback W (fst result) = rollback W st
  /\ policy W (fst result) = policy W st
  /\ (Policy.requiresApproval verdict = false ->
      Plans.error (snd result) = Policy.reason verdict)
  /\ (Policy.requiresApproval verdict = true ->
      Plans.error (snd result) = Some "Permission denied by user").
Proof.
  intros Hskill Htool Hget act verdict Hdenied Hrefused result. subst result.
  unfold Engine.executeStep. rewrite Hskill, Htool.
  unfold executeToolStep. rewrite Hget. fold act. subst verdict.
  destruct (Policy.checkPermission (policy W st) act ctx) as [permResult evs].
  cbn [fst] in *. rewrite Hdenied. cbn [negb andb].
  destruct (Policy.requiresApproval permResult).
  - cbn [with_emitted policy].
    pose proof (PolicyOutcomes.refused_request_grants_nothing (policy W st) act ctx)
      as [Hsame _].
    destruct (Policy.requestApproval (policy W st) act ctx) as [[approved e'] evs'] eqn:Hreq.
    cbn [fst] in Hrefused. rewrite (Hrefused eq_refl) in *.
    rewrite (Hsame e' evs' eq_refl). by cbn.
  - by cbn.
Qed.


End Executor.

End EngineFacts.

(** ** Plan runner: a plan whose steps all succeed *)

Module PlansHappyPath.

Import Plans.

Lemma update_run_app rs1 r rs2 sid f :
  stepId r = sid ->
  ~ In sid (List.map stepId rs1) ->
  update_run (rs1 ++ r :: rs2) sid f = rs1 ++ f r :: rs2.
Proof.
  intros <-.
  induction rs1 as [|x rs1 IH]; cbn [app update_run List.map In]; intros Hnotin.
  - by rewrite String.eqb_refl.
  - destruct (String.eqb (stepId x) (stepId r)) eqn:E.
    + apply String.eqb_eq in E. tauto.
    + rewrite IH; [done | tauto].
Qed.

Lemma find_run_app rs1 r rs2 :
  ~ In (stepId r) (List.map stepId rs1) ->
  find_run (rs1 ++ r :: rs2) (stepId r) = Some r.
Proof.
  induction rs1 as [|x rs1 IH]; cbn [app find_run List.map In]; intros Hnotin.
  - by rewrite String.eqb_refl.
  - destruct (String.eqb (stepId x) (stepId r)) eqn:E.
    + apply String.eqb_eq in E. tauto.
    + apply IH. tauto.
Qed.

Lemma find_run_done rs1 rs2 d :
  In d (List.map stepId rs1) ->
  exists r, find_run (rs1 ++ rs2) d = Some r /\ In r rs1.
Proof.
  induction rs1 as [|x rs1 IH]; cbn [app find_run List.map In]; [done |].
  intros Hin. destruct (String.eqb (stepId x) d) eqn:E.
  - exists x. split; [done | by left].
  - apply String.eqb_neq in E. destruct Hin as [Heq | Hin]; [done |].
    destruct (IH Hin) as (r & Hr & Hr'). exists r. split; [done | by right].
Qed.

Section Runner.

Variable W : Type.
Variable executeStep : PlanStep -> W -> W * StepResult.
Variable verifyStep : VerifyConfig -> W -> W * AuditLog.Verification.

Hypothesis executions_succeed : forall step w, success (snd (executeStep step w)) = true.
Hypothesis verifications_pass :
  forall v w, AuditLog.passed (snd (verifyStep v w)) = true.

Local Abbreviation run_steps := (run_steps W executeStep verifyStep).
Local Abbreviation attempt_step := (attempt_step W executeStep verifyStep).

Lemma attempt_step_unverified step st w1 r :
  verify step = None ->
  executeStep step (world W st) = (w1, r) ->
  steps (planRun W (attempt_step step st))
  = update_run (update_run (steps (planRun W st)) (id step) (set_status running))
      (id step) (record_result r)
  /\ runStatus (planRun W (attempt_step step st)) = runStatus (planRun W st)
  /\ calls W (attempt_step step st) = calls W st ++ [CallExecute (id step)].
Proof.
  intros Hv Hexec. unfold Plans.attempt_step, call_execute.
  cbn [world emit update_step with_steps]. rewrite Hexec.
  unfold verify_after. rewrite Hv. repeat split; reflexivity.
Qed.

Lemma attempt_step_verified step st v w1 r w2 verdict :
  verify step = Some v ->
  executeStep step (world W st) = (w1, r) ->
  success r = true ->
  verifyStep v w1 = (w2, verdict) ->
  AuditLog.passed verdict = true ->
  steps (planRun W (attempt_step step st))
  = update_run
      (update_run (update_run (steps (planRun W st)) (id step) (set_status running))
         (id step) (record_result r))
      (id step) (set_verification verdict)
  /\ runStatus (planRun W (attempt_step step st)) = runStatus (planRun W st)
  /\ calls W (attempt_step step st)
     = (calls W st ++ [CallExecute (id step)]) ++ [CallVerify (id step)].
Proof.
  intros Hv Hexec Hok Hver Hpass. unfold Plans.attempt_step, call_execute.
  cbn [world emit update_step with_steps]. rewrite Hexec.
  unfold verify_after. rewrite Hv, Hok. unfold call_verify.
  cbn [world update_step with_steps]. rewrite Hver, Hpass.
  repeat split; reflexivity.
Qed.

Lemma attempt_step_completes step st done_entries rest :
  steps (planRun W st) = done_entries ++ fresh_entry step :: rest ->
  ~ In (id step) (List.map stepId done_entries) ->
  exists entry,
    steps (planRun W (attempt_step step st)) = done_entries ++ entry :: rest
    /\ stepId entry = id step /\ status entry = completed
    /\ runStatus (planRun W (attempt_step step st)) = runStatus (planRun W st)
    /\ List.filter is_execute (calls W (attempt_step step st))
       = List.filter is_execute (calls W st) ++ [CallExecute (id step)].
Proof.
  intros Hsteps Hnotin.
  pose proof (executions_succeed step (world W st)) as Hok.
  destruct (executeStep step (world W st)) as [w1 r] eqn:Hexec. cbn [snd] in Hok.
  destruct (verify step) as [v|] eqn:Hv.
  - pose proof (verifications_pass v w1) as Hpass.
    destruct (verifyStep v w1) as [w2 verdict] eqn:Hver. cbn [snd] in Hpass.
    destruct (attempt_step_verified step st v w1 r w2 verdict Hv Hexec Hok Hver Hpass)
      as (H1 & H2 & H3).
    rewrite H1, H2, H3, Hsteps.
    rewrite !(update_run_app done_entries _ rest (id step)) by done.
    eexists. split; [reflexivity |].
    split; [reflexivity |]. split; [cbn; by rewrite Hok |]. split; [reflexivity |].
    rewrite !List.filter_app. cbn [List.filter is_execute]. by rewrite app_nil_r.
  - destruct (attempt_step_unverified step st w1 r Hv Hexec) as (H1 & H2 & H3).
    rewrite H1, H2, H3, Hsteps.
    rewrite !(update_run_app done_entries _ rest (id step)) by done.
    eexists. split; [reflexivity |].
    split; [reflexivity |]. split; [cbn; by rewrite Hok |]. split; [reflexivity |].
    rewrite !List.filter_app. cbn [List.filter is_execute]. reflexivity.
Qed.

Lemma run_steps_all_succeed todo :
  forall st done_entries,
    steps (planRun W st) = done_entries ++ List.map fresh_entry todo ->
    Forall (fun r => status r = completed) done_entries ->
    NoDup (List.map stepId done_entries ++ List.map id todo) ->
    (forall pre s post deps d,
        todo = pre ++ s :: post -> dependsOn s = Some deps -> In d deps ->
        In d (List.map stepId done_entries ++ List.map id pre)) ->
    Forall (fun r => status r = completed) (steps (planRun W (run_steps todo st)))
    /\ runStatus (planRun W (run_steps todo st)) = runStatus (planRun W st)
    /\ List.filter is_execute (calls W (run_steps todo st))
       = List.filter is_execute (calls W st) ++ List.map (fun s => CallExecute (id s)) todo.
Proof.
  induction todo as [|s rest IH]; intros st done_entries Hsteps Hdone Hnodup Hdeps.
  - cbn [Plans.run_steps List.map]. cbn [List.map] in Hsteps.
    rewrite app_nil_r in *. rewrite Hsteps. done.
  - cbn [List.map] in Hsteps, Hnodup.
    assert (Hnotin : ~ In (id s) (List.map stepId done_entries)).
    { apply NoDup_app in Hnodup as (_ & Hdisj & _). intros Hin.
      apply (Hdisj (id s)); [by apply list_elem_of_In | by left]. }
    assert (Hunmet : unmet_deps W st s = []).
    { unfold unmet_deps. destruct (dependsOn s) as [deps|] eqn:Hd; [| done].
      assert (Hall : forall d, In d deps -> unmet W st d = false).
      { intros d Hin.
        pose proof (Hdeps [] s rest deps d eq_refl Hd Hin) as Hearlier.
        cbn [List.map] in Hearlier. rewrite app_nil_r in Hearlier.
        destruct (find_run_done done_entries (fresh_entry s :: List.map fresh_entry rest)
                    d Hearlier) as (r & Hr & Hr').
        unfold unmet. rewrite Hsteps, Hr.
        rewrite Forall_forall in Hdone. rewrite (Hdone r); [done |].
        by apply list_elem_of_In. }
      clear Hd. induction deps as [|d deps IHd]; [done |]. cbn [List.filter].
      rewrite Hall by (by left). apply IHd. intros x Hx. apply Hall. by right. }
    destruct (attempt_step_completes s st done_entries (List.map fresh_entry rest)
                Hsteps Hnotin) as (entry & Hsteps6 & Hid & Hst & Hrun6 & Hcalls6).
    cbn [Plans.run_steps]. rewrite Hunmet. cbn [List.length Nat.ltb Nat.leb].
    set (st6 := attempt_step s st) in *.
    assert (Hnow : current_status W st6 s = completed).
    { unfold current_status, status_of. rewrite Hsteps6, <- Hid.
      rewrite find_run_app by (by rewrite Hid). cbn. exact Hst. }
    rewrite Hnow. cbn [status_eqb].
    destruct (IH st6 (done_entries ++ [entry])) as (H1 & H2 & H3).
    + by rewrite <- app_assoc.
    + apply Forall_app. split; [done | by constructor].
    + rewrite map_app. cbn [List.map]. rewrite Hid, <- app_assoc. exact Hnodup.
    + intros pre x post deps d Htodo Hd Hin.
      pose proof (Hdeps (s :: pre) x post deps d) as Hearlier.
      rewrite map_app. cbn [List.map]. rewrite Hid, <- app_assoc.
      apply Hearlier; [by rewrite Htodo | done | done].
    + split; [done |]. split; [by rewrite H2, Hrun6 |].
      rewrite H3, Hcalls6, <- app_assoc. reflexivity.
Qed.

(** X23. When every execution succeeds and every verification passes, a
    plan with distinct step ids whose dependencies all point to
    earlier steps runs to the end: every step ends [completed], the
    run ends [completed], and each step is executed exactly once, in
    plan order. *)
Theorem run_of_succeeding_steps_completes (plan : Plan) (rid : string) (w : W) :
  NoDup (List.map id (planSteps plan)) ->
  (forall pre s post deps d,
      planSteps plan = pre ++ s :: post -> dependsOn s = Some deps -> In d deps ->
      In d (List.map id pre)) ->
  let final := run W executeStep verifyStep plan rid w in
  Forall (fun r => status r = completed) (steps (planRun W final))
  /\ runStatus (planRun W final) = run_completed
  /\ List.filter is_execute (calls W final)
     = List.map (fun s => CallExecute (id s)) (planSteps plan).
Proof.
  intros Hnodup Hdeps final. subst final. unfold run.
  match goal with
  | |- context [run_steps (planSteps plan) ?s] => set (st0 := s)
  end.
  destruct (run_steps_all_succeed (planSteps plan) st0 []) as (H1 & H2 & H3);
    [reflexivity | constructor | exact Hnodup | exact Hdeps |].
  change (runStatus (planRun W st0)) with run_running in H2. rewrite H2.
  cbn [emit planRun with_run_status steps runStatus calls]. done.
Qed.

End Runner.

End PlansHappyPath.

(** ** The properties above at concrete inputs *)

Module Instances.

Lemma checkPermission_first_refusal_decides_witness :
  Policy.allowed
    (fst (Policy.checkPermission Scenarios.engine_deny_all MoreScenarios.secrets_action
            Scenarios.ctx_plain)) = false.
Proof.
  assert (Hbefore : forall q, In q [] ->
            Policy.passes Scenarios.engine_deny_all MoreScenarios.secrets_action
              Scenarios.ctx_plain q) by (intros q []).
  assert (Hstop : ~ Policy.passes Scenarios.engine_deny_all MoreScenarios.secrets_action
                      Scenarios.ctx_plain "secrets").
  { intros [H | [H | H]]; [set_solver | set_solver | vm_compute in H; discriminate]. }
  pose proof (PolicyOutcomes.checkPermission_first_refusal_decides
                Scenarios.engine_deny_all MoreScenarios.secrets_action Scenarios.ctx_plain
                [] "secrets" [] eq_refl Hbefore Hstop) as H.
  destruct (Policy.checkPermission Scenarios.engine_deny_all MoreScenarios.secrets_action
              Scenarios.ctx_plain) as [r evs].
  exact (proj1 H).
Defined.

Lemma approved_request_is_remembered_witness :
  Policy.checkPermission
    (Policy.grantSessionApproval Scenarios.engine_deny_all MoreScenarios.risky_action)
    MoreScenarios.risky_action Scenarios.ctx_plain
  = (Policy.granted, []).
Proof.
  exact (PolicyOutcomes.approved_request_is_remembered Scenarios.engine_deny_all
           (Policy.grantSessionApproval Scenarios.engine_deny_all MoreScenarios.risky_action)
           MoreScenarios.risky_action MoreScenarios.ctx_approver Scenarios.ctx_plain
           [(AuditLog.APPROVAL_GRANTED, Policy.approval_data MoreScenarios.risky_action)]
           eq_refl).
Defined.

Lemma register_then_get_witness :
  Tools.get (JsMap.set Scenarios.registry "git.status" MoreScenarios.git_status_tool)
    "git.status"
  = Some MoreScenarios.git_status_tool.
Proof.
  exact (proj1 (RegistryFacts.register_then_get Scenarios.Journal Scenarios.registry
                  (JsMap.set Scenarios.registry "git.status" MoreScenarios.git_status_tool)
                  MoreScenarios.git_status_tool eq_refl)).
Defined.

Lemma captureBeforeState_keeps_other_entries_witness :
  Rollback.stored MoreScenarios.captured_two_steps "s1" "/w/a.txt"
  = Rollback.stored MoreScenarios.captured_once "s1" "/w/a.txt".
Proof.
  refine (proj1 (RollbackMore.captureBeforeState_keeps_other_entries
                   Rollback.resolve_plain MoreScenarios.captured_once Scenarios.disk_new
                   "s2" "a.txt" "/w" "s1" "/w/a.txt" _)).
  intros H. discriminate H.
Defined.

Lemma captured_two_steps_wf : Rollback.tracker_wf MoreScenarios.captured_two_steps.
Proof.
  apply RollbackFacts.captureBeforeState_wf, RollbackFacts.captureBeforeState_wf,
    RollbackFacts.empty_wf.
Qed.

Lemma rollbackStep_idempotent_witness :
  Rollback.rollbackStep MoreScenarios.captured_two_steps
    (fst (Rollback.rollbackStep MoreScenarios.captured_two_steps
            Scenarios.disk_new "s1")) "s1"
  = Rollback.rollbackStep MoreScenarios.captured_two_steps Scenarios.disk_new "s1".
Proof.
  exact (RollbackMore.rollbackStep_idempotent MoreScenarios.captured_two_steps
           Scenarios.disk_new "s1" captured_two_steps_wf).
Defined.

Lemma rollbackAll_restores_earliest_capture_witness :
  fst (Rollback.rollbackAll MoreScenarios.captured_two_steps Scenarios.disk_new)
    !! "/w/a.txt" = Some (Rollback.File "old").
Proof.
  refine (proj1 (RollbackMore.rollbackAll_restores_earliest_capture
                   MoreScenarios.captured_two_steps Scenarios.disk_new
                   [] "s1" [("/w/a.txt", "old")] [("s2", [("/w/a.txt", "new")])]
                   "/w/a.txt" "old" captured_two_steps_wf _ _ _) _).
  - vm_compute. reflexivity.
  - reflexivity.
  - intros s b [].
  - vm_compute. by eexists.
Defined.

Lemma refused_tool_step_changes_nothing_witness :
  Plans.success
    (snd (MoreScenarios.engine_step 0%Z MoreScenarios.fs_write_step Scenarios.ctx_plain
            MoreScenarios.engine_denying)) = false.
Proof.
  refine (proj1 (EngineFacts.refused_tool_step_changes_nothing Scenarios.Journal
                   MoreScenarios.journal_disk Rollback.resolve_plain Rollback.patch_plain
                   MoreScenarios.type_error Scenarios.chat_never_done Scenarios.no_workflow
                   Scenarios.validator_passes Scenarios.registry [] 0%Z
                   MoreScenarios.fs_write_step Scenarios.ctx_plain
                   MoreScenarios.engine_denying MoreScenarios.fs_write_tool _ _ _ _ _)).
  - reflexivity.
  - reflexivity.
  - reflexivity.
  - vm_compute. reflexivity.
  - intros H. vm_compute in H. discriminate H.
Defined.


Lemma run_of_succeeding_steps_completes_witness :
  Plans.runStatus
    (Plans.planRun _
       (Plans.run unit Scenarios.exec_ok Scenarios.verify_passes
          MoreScenarios.two_step_plan "run-4" tt))
  = Plans.run_completed.
Proof.
  refine (proj1 (proj2 (PlansHappyPath.run_of_succeeding_steps_completes unit
                          Scenarios.exec_ok Scenarios.verify_passes _ _
                          MoreScenarios.two_step_plan "run-4" tt _ _))).
  - intros step w. reflexivity.
  - intros v w. reflexivity.
  - change (NoDup ["A"; "B"]).
    apply NoDup_cons. split.
    + intros H. apply list_elem_of_In in H. destruct H as [H | []]. discriminate H.
    + apply NoDup_cons. split; [apply not_elem_of_nil | apply NoDup_nil_2].
  - intros pre s post deps d Heq Hd Hin.
    destruct pre as [|a [|b pre]].
    + injection Heq as <- <-. discriminate Hd.
    + injection Heq as <- <- <-. injection Hd as <-.
      destruct Hin as [<- | []]. left. reflexivity.
    + exfalso. injection Heq as _ _ Heq. destruct pre; discriminate Heq.
Defined.

Lemma checkPermission_allowed_iff_witness :
  Policy.allowed
    (fst (Policy.checkPermission Scenarios.allow_fs
            (Scenarios.action_of "fs.read" ["filesystem.read"]) Scenarios.ctx_plain))
  = true.
Proof.
  apply (proj2 (PolicyOutcomes.checkPermission_allowed_iff Scenarios.allow_fs
                  (Scenarios.action_of "fs.read" ["filesystem.read"]) Scenarios.ctx_plain)).
  intros p [<- | []]. right. right. reflexivity.
Defined.

Lemma checkDomainScope_spec_witness :
  Scope.inScope (Scope.checkDomainScope ["example.com"] "api.example.com") = true
  /\ Scope.inScope (Scope.checkDomainScope ["example.com"] "evil-example.com") = false.
Proof.
  split; [| reflexivity].
  apply (proj2 (ScopeFacts.checkDomainScope_spec ["example.com"] "api.example.com")).
  right. exists "example.com". split; [by left |]. right. by exists "api".
Defined.

Lemma matchesPattern_spec_witness :
  Tools.matchesPattern "fs.read" ("fs" +:+ ".*") = true.
Proof.
  apply (proj2 (proj1 (RegistryFacts.matchesPattern_spec "fs.read") "fs")).
  right. by exists "read".
Defined.

Lemma captureAfterState_records_changes_witness :
  Rollback.diffs
    (Scenarios.capture_after MoreScenarios.captured_once Scenarios.disk_new
       "s1" "a.txt" "/w")
  = [ {| Rollback.file := "/w/a.txt"; Rollback.before := "old"; Rollback.after := "new";
         Rollback.patch := Rollback.patch_plain "/w/a.txt" "old" "new" |} ].
Proof.
  refine (proj1 (proj2 (RollbackMore.captureAfterState_records_changes
                          Rollback.resolve_plain Rollback.patch_plain Rollback.empty
                          Scenarios.disk_old Scenarios.disk_new "s1" "a.txt" "/w")) _).
  intros H. vm_compute in H. discriminate H.
Defined.

Lemma rollbackStep_touches_captured_only_witness :
  fst (Rollback.rollbackStep MoreScenarios.captured_once Scenarios.disk_new "s1")
    !! "/w/other.txt"
  = Scenarios.disk_new !! "/w/other.txt".
Proof.
  apply (proj1 (RollbackMore.rollbackStep_touches_captured_only
                  MoreScenarios.captured_once Scenarios.disk_new "s1" "/w/other.txt")).
  reflexivity.
Defined.

Lemma updateStep_changes_first_match_witness :
  AuditLog.steps (AuditLog.runLog
                    (AuditLogOps.updateStep MoreScenarios.logger_with_step "s1"
                       MoreScenarios.completion_update))
  = [AuditLogOps.assign MoreScenarios.logged_step MoreScenarios.completion_update].
Proof.
  refine (proj1 (proj2 (AuditLogOpsFacts.updateStep_changes_first_match
                          MoreScenarios.logger_with_step "s1"
                          MoreScenarios.completion_update))
            [] MoreScenarios.logged_step [] eq_refl eq_refl _).
  intros x [].
Defined.

Lemma refused_call_is_not_dispatched_witness :
  Skills.world _
    (Skills.handle_tool_call Scenarios.Journal Scenarios.registry Scenarios.reader_skill
       Scenarios.ctx_plain MoreScenarios.denied_state Scenarios.write_call)
  = [].
Proof.
  refine (proj1 (proj1 (SkillsMore.refused_call_is_not_dispatched Scenarios.Journal
                          Scenarios.registry Scenarios.reader_skill Scenarios.ctx_plain
                          MoreScenarios.denied_state Scenarios.write_call)
                   MoreScenarios.fs_write_tool eq_refl _ _)).
  - vm_compute. reflexivity.
  - intros H. vm_compute in H. discriminate H.
Defined.

Lemma verify_checks_witness :
  AuditLog.passed
    (snd (Engine.verify Scenarios.Journal MoreScenarios.exec_fails
            MoreScenarios.file_missing Scenarios.check_output Scenarios.ctx_plain
            MoreScenarios.engine_allowing))
  = false.
Proof.
  exact (proj2 (proj2 (EngineFacts.verify_checks Scenarios.Journal
                         MoreScenarios.exec_fails MoreScenarios.file_missing
                         Scenarios.check_output Scenarios.ctx_plain
                         MoreScenarios.engine_allowing))
           "cat out.txt" [] (inl "Command failed with exit code 1")
           eq_refl ltac:(discriminate) eq_refl).
Defined.

End Instances.
